(** * dataviz-enhanced: highlight detection and data reduction

    A shallow embedding of the analytical core of the charting toolkit:

    - [scripts/detect_highlights.py]: the detectors [detect_zscore],
      [detect_minmax], [detect_changepoint] and the merge stage
      [deduplicate];
    - [scripts/generate_chart.py]: the reduction pipeline [reduce_data].

    Numeric sequences are numpy [float64] arrays; they are embedded as lists
    of the kernel's binary64 floats, so that [nan], the comparisons and the
    arithmetic are IEEE 754 as in the program.  Python lists of dicts become
    lists of records, the dict [seen] of [deduplicate] a finite map, a pandas
    frame an ordered list of named, typed columns. *)

From Stdlib Require Import ZArith List String Ascii Bool Lia.
From Stdlib Require Import Floats Uint63.
From stdpp Require Import base option list gmap sorting.

Local Open Scope Z_scope.

(** ** Python exceptions

    Code that can raise returns a [result]; the exceptions that matter below
    are the ones the interpreter, numpy and pandas raise on the paths the
    program takes. *)

Inductive exn : Type :=
| IndexError
| TypeError
| ValueError
| KeyError.

Inductive result (A : Type) : Type :=
| Ok (a : A)
| Raise (e : exn).

Arguments Ok {A} a.
Arguments Raise {A} e.

#[global] Instance result_ret : MRet result := fun _ a => Ok a.

#[global] Instance result_bind : MBind result := fun _ _ k r =>
  match r with
  | Ok a => k a
  | Raise e => Raise e
  end.

(** ** Python built-ins on sequences *)

(** [enumerate(xs)], counting from [start]. *)
Fixpoint enumerate_from {A : Type} (start : Z) (xs : list A) : list (Z * A) :=
  match xs with
  | [] => []
  | x :: xs' => (start, x) :: enumerate_from (start + 1) xs'
  end.

Definition enumerate {A : Type} (xs : list A) : list (Z * A) :=
  enumerate_from 0 xs.

(** [len(xs)] as a Python int. *)
Definition len {A : Type} (xs : list A) : Z := Z.of_nat (length xs).

(** [range(a, b)]: empty when [b <= a]. *)
Definition py_range (a b : Z) : list Z :=
  map (fun k => a + Z.of_nat k) (seq 0 (Z.to_nat (b - a))).

(** [xs[i]] on a sequence of length [n]: a negative [i] counts from the end,
    and an index outside [-n, n) raises [IndexError]. *)
Definition py_index {A : Type} (xs : list A) (i : Z) : result A :=
  let n := len xs in
  let j := if i <? 0 then i + n else i in
  if (j <? 0) || (n <=? j) then Raise IndexError
  else match nth_error xs (Z.to_nat j) with
       | Some x => Ok x
       | None => Raise IndexError
       end.

(** A slice bound as Python normalises it: a negative bound counts from the
    end, and the result is clamped to [0, n]. *)
Definition slice_bound (n i : Z) : Z :=
  let j := if i <? 0 then i + n else i in
  Z.max 0 (Z.min n j).

(** [xs[a:b]]; never raises. *)
Definition py_slice {A : Type} (xs : list A) (a b : Z) : list A :=
  let n := len xs in
  let lo := slice_bound n a in
  let hi := slice_bound n b in
  firstn (Z.to_nat (hi - lo)) (skipn (Z.to_nat lo) xs).

(** [needle in hay] on strings. *)
Fixpoint contains (needle hay : string) : bool :=
  String.prefix needle hay ||
  match hay with
  | EmptyString => false
  | String _ rest => contains needle rest
  end.

(** ** numpy on [float64] arrays

    [np.sum] adds from left to right, as numpy does on fewer than 8 values.
    On 8 values or more numpy adds in blocks, which can change the last bits
    of a sum, and with them a mean or a standard deviation.  So the
    reductions of [np] stand for numpy's on short arrays only: what is
    proved of a detector for every input either takes the reductions as
    parameters ([detect_zscore_with], [detect_iqr]) or does not depend on
    the value of a sum, and the samples evaluated below are short. *)

Module np.

Local Open Scope float_scope.

Definition isnan (v : float) : bool := PrimFloat.is_nan v.

Definition of_count (n : nat) : float :=
  PrimFloat.of_uint63 (Uint63.of_Z (Z.of_nat n)).

Definition sum (a : list float) : float := fold_left PrimFloat.add a 0.

(** [a[~np.isnan(a)]] *)
Definition drop_nan (a : list float) : list float :=
  List.filter (fun v => negb (isnan v)) a.

(** [np.mean(a)] *)
Definition mean (a : list float) : float := sum a / of_count (length a).

(** [np.var(a)]: the mean of the squared deviations (ddof = 0). *)
Definition var (a : list float) : float :=
  let m := mean a in
  let dev := map (fun x => x - m) a in
  sum (map (fun d => d * d) dev) / of_count (length a).

(** [np.nanmean(a)]: missing entries are replaced by zero and the total is
    divided by the count of the others (0/0 = nan when there is none). *)
Definition nanmean (a : list float) : float :=
  let arr := map (fun v => if isnan v then 0 else v) a in
  sum arr / of_count (length (drop_nan a)).

(** [np.nanstd(a)], with ddof = 0. *)
Definition nanstd (a : list float) : float :=
  let avg := nanmean a in
  let arr := map (fun v => if isnan v then 0 else v - avg) a in
  let sqr := map (fun d => d * d) arr in
  PrimFloat.sqrt (sum sqr / of_count (length (drop_nan a))).

(** [np.maximum] and [np.minimum] on two scalars: a nan on the left wins. *)
Definition maximum (x y : float) : float :=
  if (y <=? x) || isnan x then x else y.

Definition minimum (x y : float) : float :=
  if (x <=? y) || isnan x then x else y.

(** [np.max(a)] and [np.min(a)]; numpy raises on an empty array, which
    [detect_minmax] rules out before the call. *)
Definition max (a : list float) : float :=
  match a with
  | [] => nan
  | x :: xs => fold_left maximum xs x
  end.

Definition min (a : list float) : float :=
  match a with
  | [] => nan
  | x :: xs => fold_left minimum xs x
  end.

End np.

(** ** detect_highlights.py *)

(** Python's [round(x, 2)] and the format specification [.1f] print a float
    in decimal; they are kept as calls on their argument. *)
Inductive rounded : Type :=
| Round2 (x : float).

Inductive label_text : Type :=
| LabelZ (z : float)          (* f"z={z:.1f}" *)
| LabelValue (v : float)      (* f"{v:.1f}" *)
| LabelMax (v : float)        (* f"Max: {v:.1f}" *)
| LabelMin (v : float)        (* f"Min: {v:.1f}" *)
| LabelShift (direction : string). (* f"Shift: {direction}" *)

(** The dict every detector appends; [z_score] and [shift_magnitude] are the
    keys only one detector sets. *)
Record Highlight : Type := mkHighlight {
  index : Z;
  value : float;
  reason : string;
  method : string;
  z_score : option rounded;
  shift_magnitude : option rounded;
  severity : string;
  label : label_text;
  suggested_style : string
}.

Section detectors.

Local Open Scope float_scope.

(** The body of the loop of [detect_zscore]: [None] stands for [continue]
    and for a value that is not flagged. *)
Definition zscore_at (mean std threshold : float) (i : Z) (v : float)
  : option Highlight :=
  if np.isnan v then None
  else
    let z := (v - mean) / std in
    if threshold <? PrimFloat.abs z then
      let severity :=
        if threshold + 1 <? PrimFloat.abs z then "high"%string
        else "medium"%string in
      let direction :=
        if 0 <? z then "above"%string else "below"%string in
      Some {| index := i;
              value := v;
              reason := ("Z-score outlier (" ++ direction ++ " mean)")%string;
              method := "zscore";
              z_score := Some (Round2 z);
              shift_magnitude := None;
              severity := severity;
              label := LabelZ z;
              suggested_style :=
                if String.eqb severity "high" then "halo_ring"
                else "color_shift" |}
    else None.

(** [detect_zscore], with the two reductions it calls as parameters: what
    is proved of [detect_zscore_with] holds whatever [np.nanmean] and
    [np.nanstd] return. *)
Definition detect_zscore_with (nanmean nanstd : list float -> float)
  (values : list float) (threshold : float) : list Highlight :=
  let mean := nanmean values in
  let std := nanstd values in
  if std =? 0 then []
  else omap (fun '(i, v) => zscore_at mean std threshold i v)
            (enumerate values).

(** [detect_zscore] at the reductions of [np]. *)
Definition detect_zscore (values : list float) (threshold : float)
  : list Highlight :=
  detect_zscore_with np.nanmean np.nanstd values threshold.

(** The two loops of [detect_minmax] stop at the first entry that is not
    missing and equals the extreme value. *)
Definition first_equal (target : float) (values : list float)
  : option (Z * float) :=
  List.find (fun '(_, v) => negb (np.isnan v) && (v =? target))
            (enumerate values).

Definition max_highlight (i : Z) (v : float) : Highlight :=
  {| index := i;
     value := v;
     reason := "Global maximum";
     method := "minmax";
     z_score := None;
     shift_magnitude := None;
     severity := "low";
     label := LabelMax v;
     suggested_style := "annotation_arrow" |}.

Definition min_highlight (i : Z) (v : float) : Highlight :=
  {| index := i;
     value := v;
     reason := "Global minimum";
     method := "minmax";
     z_score := None;
     shift_magnitude := None;
     severity := "low";
     label := LabelMin v;
     suggested_style := "annotation_arrow" |}.

Definition detect_minmax (values : list float) : list Highlight :=
  let clean := np.drop_nan values in
  if (len clean =? 0)%Z then []
  else
    let min_val := np.min clean in
    let max_val := np.max clean in
    let highlights :=
      match first_equal max_val values with
      | Some (i, v) => [max_highlight i v]
      | None => []
      end in
    highlights ++
      match first_equal min_val values with
      | Some (i, v) => [min_highlight i v]
      | None => []
      end.

(** The body of the loop of [detect_changepoint] at position [i]: [Ok None]
    is a [continue] or a position that is not flagged. *)
Definition changepoint_at (values : list float) (window : Z)
  (threshold : float) (i : Z) : result (option Highlight) :=
  vi ← py_index values i;
  if np.isnan vi then Ok None
  else
    let left := py_slice values (Z.max 0 (i - window)) i in
    let right := py_slice values (i + 1) (i + 1 + window) in
    let left_clean := np.drop_nan left in
    let right_clean := np.drop_nan right in
    if ((len left_clean <? 2) || (len right_clean <? 2))%Z then Ok None
    else
      let left_mean := np.mean left_clean in
      let right_mean := np.mean right_clean in
      let pooled_std :=
        PrimFloat.sqrt
          ((np.var left_clean * np.of_count (length left_clean)
            + np.var right_clean * np.of_count (length right_clean))
           / np.of_count (length left_clean + length right_clean)) in
      if pooled_std =? 0 then Ok None
      else
        let shift := PrimFloat.abs (right_mean - left_mean) / pooled_std in
        if threshold <? shift then
          let direction :=
            if left_mean <? right_mean then "increase"%string
            else "decrease"%string in
          Ok (Some {| index := i;
                      value := vi;
                      reason := ("Changepoint (" ++ direction ++ ")")%string;
                      method := "changepoint";
                      z_score := None;
                      shift_magnitude := Some (Round2 shift);
                      severity :=
                        if threshold + 1 <? shift then "high"%string
                        else "medium"%string;
                      label := LabelShift direction;
                      suggested_style := "band_shade" |})
        else Ok None.

(** [for i in range(...)]: the positions are visited in order and an
    exception ends the loop. *)
Fixpoint changepoint_loop (values : list float) (window : Z)
  (threshold : float) (positions : list Z) (highlights : list Highlight)
  : result (list Highlight) :=
  match positions with
  | [] => Ok highlights
  | i :: rest =>
      r ← changepoint_at values window threshold i;
      changepoint_loop values window threshold rest
        (highlights ++ option_list r)
  end.

Definition detect_changepoint (values : list float) (window : Z)
  (threshold : float) : result (list Highlight) :=
  let n := len values in
  if (n <? window * 2 + 1)%Z then Ok []
  else changepoint_loop values window threshold
         (py_range window (n - window)) [].

End detectors.

(** [detect_iqr] reads the quartiles off [np.percentile(clean, q)].  The
    interpolation numpy makes between two order statistics is left open:
    [percentile] stands for that call, and what is proved of [detect_iqr]
    holds of every function put in its place. *)
Section iqr.

Local Open Scope float_scope.

Variable percentile : list float -> float -> float.

(** The body of the loop of [detect_iqr]: [None] stands for [continue] and
    for a value inside the fences. *)
Definition iqr_at (iqr lower upper : float) (i : Z) (v : float)
  : option Highlight :=
  if np.isnan v then None
  else if (v <? lower) || (upper <? v) then
    let direction :=
      if upper <? v then "above Q3"%string else "below Q1"%string in
    let distance :=
      if upper <? v then (v - upper) / iqr else (lower - v) / iqr in
    let severity :=
      if 1 <? distance then "high"%string else "medium"%string in
    Some {| index := i;
            value := v;
            reason := ("IQR outlier (" ++ direction ++ ")")%string;
            method := "iqr";
            z_score := None;
            shift_magnitude := None;
            severity := severity;
            label := LabelValue v;
            suggested_style := "annotation_arrow" |}
  else None.

Definition detect_iqr (values : list float) (multiplier : float)
  : list Highlight :=
  let clean := np.drop_nan values in
  if (len clean <? 4)%Z then []
  else
    let q1 := percentile clean 25 in
    let q3 := percentile clean 75 in
    let iqr := q3 - q1 in
    if iqr =? 0 then []
    else
      let lower := q1 - multiplier * iqr in
      let upper := q3 + multiplier * iqr in
      omap (fun '(i, v) => iqr_at iqr lower upper i v) (enumerate values).

End iqr.

(** [severity_order.get(s, 0)] *)
Definition severity_order (s : string) : Z :=
  if String.eqb s "high" then 3
  else if String.eqb s "medium" then 2
  else if String.eqb s "low" then 1
  else 0.

(** One turn of the loop of [deduplicate] on the dict [seen]. *)
Definition dedup_step (seen : gmap Z Highlight) (hl : Highlight)
  : gmap Z Highlight :=
  let idx := index hl in
  match seen !! idx with
  | None => <[idx := hl]> seen
  | Some old =>
      if severity_order (severity old) <? severity_order (severity hl)
      then <[idx := hl]> seen
      else seen
  end.

Definition index_le (a b : Highlight) : Prop := index a <= index b.

#[global] Instance index_le_dec : RelDecision index_le :=
  fun a b => Z_le_dec (index a) (index b).

(** [sorted(hs, key=lambda h: h["index"])]: a stable merge sort on the key. *)
Definition sorted_by_index (hs : list Highlight) : list Highlight :=
  merge_sort index_le hs.

(** [seen.values()].  Python lists the values in insertion order, the finite
    map in the order of its keys; [sorted_values_any_order] shows that the
    order is lost in the sort, the keys of a dict being distinct. *)
Definition dict_values (seen : gmap Z Highlight) : list Highlight :=
  (map_to_list seen).*2.

Definition deduplicate (highlights : list Highlight) : list Highlight :=
  let seen := fold_left dedup_step highlights ∅ in
  sorted_by_index (dict_values seen).

(** ** detect_highlights.py: the detector loop of [main]

    What [main] does between reading the column and writing the file: the
    detectors named on the command line run in that order on the values,
    their records are appended to one list, and the list is merged.  The
    changepoint detector is called with the window of the command line and
    its own default threshold, 2.0. *)

Inductive method_name : Type :=
| Zscore
| Iqr
| Minmax
| Changepoint.

Module args.

(** The parsed arguments the loop reads. *)
Record t : Type := mk {
  methods : list method_name;
  threshold : float;
  iqr_multiplier : float;
  window : Z
}.

End args.

Section main.

Variable percentile : list float -> float -> float.

(** [methods[method_name](values)] *)
Definition detector (a : args.t) (m : method_name) (values : list float)
  : result (list Highlight) :=
  match m with
  | Zscore => Ok (detect_zscore values (args.threshold a))
  | Iqr => Ok (detect_iqr percentile values (args.iqr_multiplier a))
  | Minmax => Ok (detect_minmax values)
  | Changepoint => detect_changepoint values (args.window a) 2
  end.

(** [for method_name in args.methods: ... all_highlights.extend(results)] *)
Fixpoint run_detectors (a : args.t) (values : list float)
  (names : list method_name) (all_highlights : list Highlight)
  : result (list Highlight) :=
  match names with
  | [] => Ok all_highlights
  | m :: rest =>
      results ← detector a m values;
      run_detectors a values rest (all_highlights ++ results)
  end.

Definition main_highlights (a : args.t) (values : list float)
  : result (list Highlight) :=
  all_highlights ← run_detectors a values (args.methods a) [];
  Ok (deduplicate all_highlights).

End main.

(** ** pandas frames

    A frame is an ordered list of labelled columns, each of one dtype:
    [int64], [float64] or [object].  An [object] column holds Python
    objects: strings and the missing value [nan] as the loaders produce
    them, and any scalar after a concat that mixes types.  Column labels are
    taken to be distinct, as the loaders make them; the rows are numbered by
    position, which is what [reset_index(drop=True)] and [ignore_index=True]
    restore after every step of the pipeline. *)

Inductive scalar : Type :=
| SInt (z : Z)
| SFloat (f : float)
| SStr (s : string).

Inductive column : Type :=
| IntCol (xs : list Z)
| FloatCol (xs : list float)
| ObjCol (xs : list scalar).

Definition DataFrame : Type := list (string * column).

(** The outcome of a pandas call: a value, an exception, or [Unmodelled] on
    the inputs where the behaviour of pandas is left out of this model
    (aggregating or ordering [object] columns that hold numbers, an empty
    column selection in a group-by); nothing is stated about those. *)
Inductive outcome (A : Type) : Type :=
| Done (a : A)
| Raised (e : exn)
| Unmodelled.

Arguments Done {A} a.
Arguments Raised {A} e.
Arguments Unmodelled {A}.

#[global] Instance outcome_ret : MRet outcome := fun _ a => Done a.

#[global] Instance outcome_bind : MBind outcome := fun _ _ k r =>
  match r with
  | Done a => k a
  | Raised e => Raised e
  | Unmodelled => Unmodelled
  end.

(** [int64] arithmetic wraps around. *)
Definition wrap64 (z : Z) : Z := (z + 2 ^ 63) mod 2 ^ 64 - 2 ^ 63.

(** The cast of an [int64] to [float64], rounded to nearest. *)
Definition float_of_int64 (z : Z) : float :=
  if z =? - 2 ^ 63 then (- (PrimFloat.of_uint63 (Uint63.of_Z (2 ^ 62)) * 2))%float
  else if z <? 0 then (- PrimFloat.of_uint63 (Uint63.of_Z (- z)))%float
  else PrimFloat.of_uint63 (Uint63.of_Z z).

(** A stable insertion sort: equal keys keep their order. *)
Fixpoint insert_stable {A : Type} (lt : A -> A -> bool) (x : A) (l : list A)
  : list A :=
  match l with
  | [] => [x]
  | y :: l' => if lt y x then y :: insert_stable lt x l' else x :: l
  end.

Definition stable_sort {A : Type} (lt : A -> A -> bool) (l : list A)
  : list A :=
  fold_right (insert_stable lt) [] l.

Module pd.

Definition columns (df : DataFrame) : list string := df.*1.

(** [c in df.columns] *)
Definition has_column (c : string) (df : DataFrame) : bool :=
  existsb (String.eqb c) (columns df).

(** [df[c]], the first column of that label. *)
Fixpoint get (df : DataFrame) (c : string) : option column :=
  match df with
  | [] => None
  | (name, col) :: df' => if String.eqb name c then Some col else get df' c
  end.

Definition col_len (col : column) : nat :=
  match col with
  | IntCol xs => length xs
  | FloatCol xs => length xs
  | ObjCol xs => length xs
  end.

(** [len(df)] *)
Definition nrows (df : DataFrame) : nat :=
  match df with
  | [] => 0%nat
  | (_, col) :: _ => col_len col
  end.

(** The cells of a column as Python objects. *)
Definition values (col : column) : list scalar :=
  match col with
  | IntCol xs => map SInt xs
  | FloatCol xs => map SFloat xs
  | ObjCol xs => xs
  end.

(** Row [i] of a frame. *)
Definition row (df : DataFrame) (i : nat) : list (option scalar) :=
  map (fun '(_, col) => values col !! i) df.

Definition is_numeric_dtype (col : column) : bool :=
  match col with
  | IntCol _ | FloatCol _ => true
  | ObjCol _ => false
  end.

(** [df.select_dtypes(include=[np.number]).columns.tolist()] *)
Definition numeric_columns (df : DataFrame) : list string :=
  (List.filter (fun '(_, col) => is_numeric_dtype col) df).*1.

Definition col_map_rows (f : forall A : Type, list A -> list A) (col : column)
  : column :=
  match col with
  | IntCol xs => IntCol (f _ xs)
  | FloatCol xs => FloatCol (f _ xs)
  | ObjCol xs => ObjCol (f _ xs)
  end.

Definition map_rows (f : forall A : Type, list A -> list A) (df : DataFrame)
  : DataFrame :=
  map (fun '(name, col) => (name, col_map_rows f col)) df.

(** [df.head(n)] and [df.iloc[n:]] for [n >= 0]. *)
Definition head (n : nat) (df : DataFrame) : DataFrame :=
  map_rows (fun _ => firstn n) df.

Definition iloc_from (n : nat) (df : DataFrame) : DataFrame :=
  map_rows (fun _ => skipn n) df.

(** [df.take(indexer)]: the rows at the given positions, in that order. *)
Definition take_list {A : Type} (indexer : list nat) (xs : list A) : list A :=
  omap (fun i => xs !! i) indexer.

Definition take (indexer : list nat) (df : DataFrame) : DataFrame :=
  map_rows (fun _ => take_list indexer) df.

(** [df.rename(columns={old: new})] *)
Definition rename (old new : string) (df : DataFrame) : DataFrame :=
  map (fun '(name, col) => (if String.eqb name old then new else name, col))
      df.

Definition is_missing (s : scalar) : bool :=
  match s with
  | SFloat f => np.isnan f
  | _ => false
  end.

(** The keys an ordering or a grouping is modelled for: numbers of one
    dtype, or strings with missing entries. *)
Definition orderable (col : column) : bool :=
  match col with
  | IntCol _ | FloatCol _ => true
  | ObjCol xs =>
      forallb (fun s => match s with SStr _ => true | _ => is_missing s end)
              xs
  end.

Definition scalar_ltb (a b : scalar) : bool :=
  match a, b with
  | SInt x, SInt y => x <? y
  | SFloat x, SFloat y => (x <? y)%float
  | SStr x, SStr y => String.ltb x y
  | _, _ => false
  end.

Definition scalar_eqb (a b : scalar) : bool :=
  match a, b with
  | SInt x, SInt y => x =? y
  | SFloat x, SFloat y => (x =? y)%float
  | SStr x, SStr y => String.eqb x y
  | _, _ => false
  end.

(** [nargsort]: the positions of the keys in sorted order.  Missing keys go
    last; a descending sort reverses the keys, sorts them ascending and
    reverses the result.  The ascending sort is stable here; the default
    sort kind of pandas promises no order among equal keys, so what is
    proved of a sort below fixes no order among them, and the samples
    evaluated have distinct keys. *)
Definition nargsort (keys : list scalar) (ascending : bool) : list nat :=
  let tagged := zip (seq 0 (length keys)) keys in
  let non_nans := List.filter (fun p => negb (is_missing p.2)) tagged in
  let nan_idx := (List.filter (fun p => is_missing p.2) tagged).*1 in
  let non_nans := if ascending then non_nans else rev non_nans in
  let sorted := stable_sort (fun p q => scalar_ltb p.2 q.2) non_nans in
  let indexer := if ascending then sorted.*1 else rev sorted.*1 in
  indexer ++ nan_idx.

(** [df.sort_values(by, ascending=...).reset_index(drop=True)] *)
Definition sort_values (by_ : string) (ascending : bool) (df : DataFrame)
  : outcome DataFrame :=
  match get df by_ with
  | None => Raised KeyError
  | Some k =>
      if orderable k then Done (take (nargsort (values k) ascending) df)
      else Unmodelled
  end.

(** [df.nlargest(n, c)] and [df.nsmallest(n, c)] with [keep="first"]: the
    first [n] rows of the frame in descending (ascending) order of [c],
    missing values last; an [object] column is refused. *)
Definition nlargest (n : nat) (c : string) (df : DataFrame)
  : outcome DataFrame :=
  match get df c with
  | None => Raised KeyError
  | Some (ObjCol _) => Raised TypeError
  | Some k => Done (head n (take (nargsort (values k) false) df))
  end.

Definition nsmallest (n : nat) (c : string) (df : DataFrame)
  : outcome DataFrame :=
  match get df c with
  | None => Raised KeyError
  | Some (ObjCol _) => Raised TypeError
  | Some k => Done (head n (take (nargsort (values k) true) df))
  end.

(** The column [pd.DataFrame([row])] infers for one cell. *)
Definition column_of_scalar (s : scalar) : column :=
  match s with
  | SInt z => IntCol [z]
  | SFloat f => FloatCol [f]
  | SStr _ => ObjCol [s]
  end.

(** [pd.DataFrame([row])] for a dict [row], whose keys come in insertion
    order. *)
Definition of_row (row : list (string * scalar)) : DataFrame :=
  map (fun '(name, s) => (name, column_of_scalar s)) row.

(** Two pieces of one column under [pd.concat]: equal dtypes are kept,
    [int64] with [float64] gives [float64], and anything else [object]. *)
Definition concat_columns (a b : column) : column :=
  match a, b with
  | IntCol xs, IntCol ys => IntCol (xs ++ ys)
  | FloatCol xs, FloatCol ys => FloatCol (xs ++ ys)
  | IntCol xs, FloatCol ys => FloatCol (map float_of_int64 xs ++ ys)
  | FloatCol xs, IntCol ys => FloatCol (xs ++ map float_of_int64 ys)
  | _, _ => ObjCol (values a ++ values b)
  end.

(** A column missing from one frame of a concat is filled with [nan]. *)
Definition nan_column (n : nat) : column := FloatCol (replicate n nan).

(** [pd.concat([a, b], ignore_index=True)]: the columns of [a], then those
    only [b] has; the rows of [a], then those of [b], matched by label. *)
Definition concat (a b : DataFrame) : DataFrame :=
  map (fun '(name, col) =>
         (name, concat_columns col
                  (default (nan_column (nrows b)) (get b name)))) a
  ++ map (fun '(name, col) =>
            (name, concat_columns (nan_column (nrows a)) col))
         (List.filter (fun '(name, _) => negb (has_column name a)) b).

(** [Series.sum()]: [int64] wraps, [float64] skips the missing entries. *)
Definition sum (col : column) : outcome scalar :=
  match col with
  | IntCol xs => Done (SInt (wrap64 (fold_left Z.add xs 0)))
  | FloatCol xs => Done (SFloat (np.sum (np.drop_nan xs)))
  | ObjCol _ => Unmodelled
  end.

(** The aggregation functions of [agg_map]. *)
Inductive agg_fn : Type :=
| AggMean | AggSum | AggMedian | AggCount | AggMin | AggMax.

(** The median of values that are not missing: the middle one, or the mean
    of the two middle ones; [nan] when there is none. *)
Definition median (xs : list float) : float :=
  let sorted := stable_sort PrimFloat.ltb xs in
  let n := length sorted in
  if (n =? 0)%nat then nan
  else if Nat.odd n then nth (n / 2) sorted nan
  else ((nth (n / 2 - 1) sorted nan + nth (n / 2) sorted nan) / 2)%float.

(** The sorted keys of a group-by, each with the positions of its rows in
    their order: rows whose key is missing are dropped. *)
Fixpoint group_adjacent (l : list (nat * scalar))
  : list (scalar * list nat) :=
  match l with
  | [] => []
  | (i, k) :: rest =>
      match group_adjacent rest with
      | (k', g) :: gs =>
          if scalar_eqb k k' then (k, i :: g) :: gs
          else (k, [i]) :: (k', g) :: gs
      | [] => [(k, [i])]
      end
  end.

Definition group_positions (keys : list scalar) : list (list nat) :=
  let tagged := zip (seq 0 (length keys)) keys in
  let present := List.filter (fun p => negb (is_missing p.2)) tagged in
  (group_adjacent
     (stable_sort (fun p q => scalar_ltb p.2 q.2) present)).*2.

(** One column aggregated group by group.  The sums and means of a
    [float64] column are rounded as [np.sum] rounds them; pandas compensates
    the rounding errors of a group sum, so the last bits of such a cell can
    differ.  The [int64] aggregates are exact. *)
Definition aggregate (func : agg_fn) (col : column)
  (groups : list (list nat)) : outcome column :=
  match col with
  | IntCol xs =>
      let gs := map (fun g => take_list g xs) groups in
      Done
        match func with
        | AggSum => IntCol (map (fun g => wrap64 (fold_left Z.add g 0)) gs)
        | AggCount => IntCol (map len gs)
        | AggMin =>
            IntCol (map (fun g => fold_left Z.min (tail g) (hd 0 g)) gs)
        | AggMax =>
            IntCol (map (fun g => fold_left Z.max (tail g) (hd 0 g)) gs)
        | AggMean =>
            FloatCol (map (fun g => np.mean (map float_of_int64 g)) gs)
        | AggMedian =>
            FloatCol (map (fun g => median (map float_of_int64 g)) gs)
        end
  | FloatCol xs =>
      let gs := map (fun g => np.drop_nan (take_list g xs)) groups in
      Done
        match func with
        | AggSum => FloatCol (map np.sum gs)
        | AggCount => IntCol (map len gs)
        | AggMin => FloatCol (map np.min gs)
        | AggMax => FloatCol (map np.max gs)
        | AggMean => FloatCol (map np.mean gs)
        | AggMedian => FloatCol (map median gs)
        end
  | ObjCol xs =>
      match func with
      | AggCount =>
          Done (IntCol (map (fun g =>
                  len (List.filter (fun s => negb (is_missing s))
                                   (take_list g xs))) groups))
      | _ => Unmodelled
      end
  end.

Fixpoint aggregate_columns (func : agg_fn) (df : DataFrame)
  (groups : list (list nat)) (cols : list string) : outcome DataFrame :=
  match cols with
  | [] => Done []
  | c :: cols' =>
      match get df c with
      | None => Raised KeyError
      | Some col =>
          agg ← aggregate func col groups;
          rest ← aggregate_columns func df groups cols';
          Done ((c, agg) :: rest)
      end
  end.

(** [df.groupby(by, as_index=False)[cols].agg(func)]: one row per key, in
    the order of the keys; the key column first, then the selected columns
    aggregated. *)
Definition groupby_agg (by_ : string) (cols : list string) (func : agg_fn)
  (df : DataFrame) : outcome DataFrame :=
  match get df by_ with
  | None => Raised KeyError
  | Some key =>
      if negb (orderable key) || (length cols =? 0)%nat
         || existsb (String.eqb by_) cols
      then Unmodelled
      else
        let groups := group_positions (values key) in
        let firsts := omap (fun g => g !! 0%nat) groups in
        aggregated ← aggregate_columns func df groups cols;
        Done ((by_, col_map_rows (fun _ => take_list firsts) key)
              :: aggregated)
  end.

End pd.

(** ** generate_chart.py: [reduce_data] *)

(** The keyword arguments [reduce_data] reads; [None] is a key that is
    absent or holds [None]. *)
Record kwargs : Type := mkKwargs {
  x_col : option string;
  groupby : option string;
  agg : option string;
  top : option Z;
  bottom : option Z;
  sort_by : option string;
  sort_order : option string;
  max_categories : option Z
}.

(** The argument [y_col]: a column name, a list of names, or [None]. *)
Inductive y_arg : Type :=
| YStr (s : string)
| YList (l : list string)
| YNone.

(** The truth value of an optional string or int in a condition. *)
Definition truthy_str (o : option string) : bool :=
  match o with
  | Some s => negb (String.eqb s EmptyString)
  | None => false
  end.

Definition truthy_int (o : option Z) : bool :=
  match o with
  | Some z => negb (z =? 0)
  | None => false
  end.

(** [c in df.columns] for an optional name. *)
Definition in_columns (o : option string) (df : DataFrame) : bool :=
  match o with
  | Some c => pd.has_column c df
  | None => false
  end.

(** [y_col[0] if isinstance(y_col, list) else y_col] *)
Definition y_primary_of (y_col : y_arg) : outcome (option string) :=
  match y_col with
  | YStr s => Done (Some s)
  | YList [] => Raised IndexError
  | YList (s :: _) => Done (Some s)
  | YNone => Done None
  end.

(** [agg_map.get(agg_func, "mean")] *)
Definition agg_map (agg_func : string) : pd.agg_fn :=
  if String.eqb agg_func "mean" then pd.AggMean
  else if String.eqb agg_func "sum" then pd.AggSum
  else if String.eqb agg_func "median" then pd.AggMedian
  else if String.eqb agg_func "count" then pd.AggCount
  else if String.eqb agg_func "min" then pd.AggMin
  else if String.eqb agg_func "max" then pd.AggMax
  else pd.AggMean.

(** [sort_by or y_primary] *)
Definition sort_col_of (kw : kwargs) (y_primary : option string)
  : option string :=
  if truthy_str (sort_by kw) then sort_by kw else y_primary.

(** The columns the aggregation selects: the numeric ones other than the
    group-by column, or else the primary y column when the frame has it. *)
Definition agg_cols_of (by_ : string) (y_primary : option string)
  (df : DataFrame) : list string :=
  let numeric_cols := pd.numeric_columns df in
  let agg_cols :=
    List.filter (fun c => negb (String.eqb c by_)) numeric_cols in
  if (length agg_cols =? 0)%nat
  then (if in_columns y_primary df then [default EmptyString y_primary]
        else [])
  else agg_cols.

(** 1. Aggregation *)
Definition stage_aggregate (kw : kwargs) (y_primary : option string)
  (df : DataFrame) : outcome DataFrame :=
  if truthy_str (groupby kw) && truthy_str (agg kw)
     && in_columns (groupby kw) df
  then
    let by_ := default EmptyString (groupby kw) in
    let func := agg_map (default EmptyString (agg kw)) in
    df' ← pd.groupby_agg by_ (agg_cols_of by_ y_primary df) func df;
    if truthy_str (x_col kw) && negb (in_columns (x_col kw) df')
       && pd.has_column by_ df'
    then Done (pd.rename by_ (default EmptyString (x_col kw)) df')
    else Done df'
  else Done df.

(** 2. Sort *)
Definition stage_sort (kw : kwargs) (y_primary : option string)
  (df : DataFrame) : outcome DataFrame :=
  let sort_col := sort_col_of kw y_primary in
  if truthy_str sort_col && in_columns sort_col df
  then
    let ascending :=
      match sort_order kw with
      | Some o => String.eqb o "asc"
      | None => false
      end in
    pd.sort_values (default EmptyString sort_col) ascending df
  else Done df.

(** 3. Top / Bottom N *)
Definition stage_rank_limit (kw : kwargs) (y_primary : option string)
  (df : DataFrame) : outcome DataFrame :=
  let sort_col := sort_col_of kw y_primary in
  if truthy_int (top kw) && (0 <? default 0 (top kw))
  then
    if in_columns sort_col df
    then
      df' ← pd.nlargest (Z.to_nat (default 0 (top kw)))
                        (default EmptyString sort_col) df;
      pd.sort_values (default EmptyString sort_col) false df'
    else Done df
  else if truthy_int (bottom kw) && (0 <? default 0 (bottom kw))
  then
    if in_columns sort_col df
    then
      df' ← pd.nsmallest (Z.to_nat (default 0 (bottom kw)))
                         (default EmptyString sort_col) df;
      pd.sort_values (default EmptyString sort_col) true df'
    else Done df
  else Done df.

(** [d[k] = v] on a dict, whose keys keep their insertion order. *)
Fixpoint dict_set (d : list (string * scalar)) (k : string) (v : scalar)
  : list (string * scalar) :=
  match d with
  | [] => [(k, v)]
  | (k', v') :: d' =>
      if String.eqb k' k then (k', v) :: d'
      else (k', v') :: dict_set d' k v
  end.

(** One turn of the loop that fills [other_row]. *)
Definition other_row_step (x : string) (df rest : DataFrame)
  (acc : outcome (list (string * scalar))) (c : string)
  : outcome (list (string * scalar)) :=
  other_row ← acc;
  if String.eqb c x then Done other_row
  else
    match pd.get df c, pd.get rest c with
    | Some col, Some rest_c =>
        if pd.is_numeric_dtype col
        then total ← pd.sum rest_c; Done (dict_set other_row c total)
        else Done (dict_set other_row c (SStr "Other"))
    | _, _ => Raised KeyError
    end.

(** 4. Max categories: group remaining into "Other" *)
Definition stage_collapse (kw : kwargs) (df : DataFrame)
  : outcome DataFrame :=
  if truthy_int (max_categories kw) && (0 <? default 0 (max_categories kw))
     && truthy_str (x_col kw) && in_columns (x_col kw) df
  then
    let k := default 0 (max_categories kw) in
    let x := default EmptyString (x_col kw) in
    if k <? Z.of_nat (pd.nrows df)
    then
      let top_df := pd.head (Z.to_nat k) df in
      let rest := pd.iloc_from (Z.to_nat k) df in
      other_row ← fold_left (other_row_step x df rest) (pd.columns df)
                            (Done [(x, SStr "Other")]);
      Done (pd.concat top_df (pd.of_row other_row))
    else Done df
  else Done df.

Definition reduce_data (df : DataFrame) (y_col : y_arg) (kw : kwargs)
  : outcome DataFrame :=
  y_primary ← y_primary_of y_col;
  df ← stage_aggregate kw y_primary df;
  df ← stage_sort kw y_primary df;
  df ← stage_rank_limit kw y_primary df;
  stage_collapse kw df.

(** ** generate_chart.py: [group_small_slices] *)

(** [df.head(n)] is [df.iloc[:n]], and [df.iloc[n:]] the other part: slices
    of the rows, where a negative [n] counts from the end. *)
Definition head_int (n : Z) (df : DataFrame) : DataFrame :=
  pd.map_rows (fun _ xs => py_slice xs 0 n) df.

Definition iloc_from_int (n : Z) (df : DataFrame) : DataFrame :=
  pd.map_rows (fun _ xs => py_slice xs n (len xs)) df.

Definition group_small_slices (df : DataFrame) (x_col y_col : string)
  (max_slices : Z) : outcome DataFrame :=
  if Z.of_nat (pd.nrows df) <=? max_slices then Done df
  else
    df_sorted ← pd.sort_values y_col false df;
    let top := head_int (max_slices - 1) df_sorted in
    let rest := iloc_from_int (max_slices - 1) df_sorted in
    match pd.get rest y_col with
    | None => Raised KeyError
    | Some rest_y =>
        total ← pd.sum rest_y;
        let other := dict_set [(x_col, SStr "Other")] y_col total in
        Done (pd.concat top (pd.of_row other))
    end.

(** ** generate_chart.py: [auto_figsize]

    The sizes are floats, as the signature has them; the int constants of
    the caps stand as the floats of the same value.  [n_categories * 0.45]
    converts the count to a float first; the conversion is modelled on the
    range of [int64], and a count outside it is left out.  The factors are
    the doubles nearest to 0.45, 0.35 and 0.4, written in full. *)

Definition factor_045 : float := 0x1.ccccccccccccdp-2%float.
Definition factor_035 : float := 0x1.6666666666666p-2%float.
Definition factor_04 : float := 0x1.999999999999ap-2%float.

(** Python's [max(a, b)] and [min(a, b)] on two floats: the first argument
    stays unless the second is strictly greater (smaller). *)
Definition py_max (a b : float) : float := if (a <? b)%float then b else a.

Definition py_min (a b : float) : float := if (b <? a)%float then b else a.

Definition auto_figsize (n_categories : Z) (chart_type : string)
  (base : list float) : outcome (float * float) :=
  match base with
  | [w; h] =>
      if (n_categories <? - 2 ^ 63) || (2 ^ 63 <=? n_categories)
      then Unmodelled
      else
        let n := float_of_int64 n_categories in
        let '(w, h) :=
          if String.eqb chart_type "bar" || String.eqb chart_type "line"
             || String.eqb chart_type "area"
             || String.eqb chart_type "timeseries"
          then
            let w := if 15 <? n_categories
                     then py_max w (n * factor_045)%float else w in
            let w := if 30 <? n_categories
                     then py_max w (n * factor_035)%float else w in
            (w, h)
          else if String.eqb chart_type "hbar"
          then
            let h := if 12 <? n_categories
                     then py_max h (n * factor_04)%float else h in
            (w, h)
          else (w, h) in
        Done (py_min w 30, py_min h 24)
  | _ => Raised ValueError
  end.

(** ** generate_chart.py: [smart_tick_labels]

    A Python [str] is the list of its code points, which is what [len] and
    slicing count.  The function acts on the axes only; its embedding
    returns the calls it makes on them, in order.  [major_ticks] is the
    number of ticks [ax.xaxis.get_major_ticks()] returns, and [str] the
    conversion [str(l)] of a label. *)

Definition pystr : Type := list N.

(** ["…"] *)
Definition ellipsis : pystr := [8230%N].

Inductive ax_call : Type :=
| set_xticklabels (labels : list pystr) (rotation : Z) (ha : string)
| set_yticklabels (labels : list pystr)
| tick_set_visible (i : nat) (visible : bool).

Section tick_labels.

Context {A : Type}.

Variable str : A -> pystr.

(** The body of the loop that truncates long labels. *)
Definition truncate_label (max_label_len : Z) (lab : pystr) : pystr :=
  if max_label_len <? len lab
  then py_slice lab 0 (max_label_len - 1) ++ ellipsis
  else lab.

(** [max((len(l) for l in truncated), default=0)] *)
Definition max_len_of (truncated : list pystr) : Z :=
  match truncated with
  | [] => 0
  | l :: ls => fold_left Z.max (map len ls) (len l)
  end.

Definition smart_tick_labels (major_ticks : nat) (labels : option (list A))
  (axis : string) (max_label_len : Z) : list ax_call :=
  match labels with
  | None => []
  | Some labels =>
      if len labels =? 0 then []
      else
        let n := len labels in
        let str_labels := map str labels in
        let truncated := map (truncate_label max_label_len) str_labels in
        let max_len := max_len_of truncated in
        if String.eqb axis "x"
        then
          let '(rotation, ha) :=
            if 30 <? n then (90, "center"%string)
            else if (15 <? n) || (10 <? max_len) then (45, "right"%string)
            else if 8 <? n then (30, "right"%string)
            else (0, "center"%string) in
          set_xticklabels truncated rotation ha
          :: (if 60 <? n
              then
                let every := Z.max 1 (n / 30) in
                omap (fun i => if Z.of_nat i mod every =? 0 then None
                               else Some (tick_set_visible i false))
                     (seq 0 major_ticks)
              else [])
        else [set_yticklabels truncated]
  end.

End tick_labels.

(** * Specification vocabulary and sample inputs *)

(** ** Scenario 1 of the z-score detector *)

Definition scenario_1 : list float := [10; 10; 10; 10; 100]%float.

(** What the scenario expects of a run: index 4 flagged as "high", with a
    reason that contains "above mean". *)
Definition flags_4_high_above (out : list Highlight) : Prop :=
  ∃ h, h ∈ out ∧ index h = 4 ∧ severity h = "high"%string
       ∧ contains "above mean" (reason h) = true.

(** ** Deduplication *)

(** The ranking of the specification, high > medium > low: [s] is more
    severe than [t].  Any other string ranks below the three. *)
Definition more_severe (s t : string) : Prop :=
  (s = "high"%string ∧ t ≠ "high"%string)
  ∨ (s = "medium"%string ∧ t ≠ "high"%string ∧ t ≠ "medium"%string)
  ∨ (s = "low"%string ∧ t ≠ "high"%string ∧ t ≠ "medium"%string
     ∧ t ≠ "low"%string).

(** [h] is the most severe candidate of [hs] at its index, and the first of
    the most severe ones: no candidate at that index is more severe, and
    every candidate at that index that comes before [h] is less severe. *)
Definition most_severe_first (hs : list Highlight) (h : Highlight) : Prop :=
  (∀ h', h' ∈ hs → index h' = index h →
     ¬ more_severe (severity h') (severity h))
  ∧ ∃ pre post, hs = pre ++ h :: post
      ∧ ∀ h', h' ∈ pre → index h' = index h →
          more_severe (severity h) (severity h').

(** The same in terms of the table [severity_order] of the program: no
    earlier candidate at the index of [h] ranks as high, and no later one
    ranks higher. *)
Definition wins_index (hs : list Highlight) (h : Highlight) : Prop :=
  ∃ pre post, hs = pre ++ h :: post
    ∧ (∀ h', h' ∈ pre → index h' = index h →
         severity_order (severity h') < severity_order (severity h))
    ∧ (∀ h', h' ∈ post → index h' = index h →
         severity_order (severity h') <= severity_order (severity h)).

(** The loop invariant of [deduplicate]: [seen] holds, under each index
    met so far, the candidate that wins it. *)
Definition seen_invariant (hs : list Highlight) (seen : gmap Z Highlight)
  : Prop :=
  (∀ i h, seen !! i = Some h → index h = i ∧ wins_index hs h)
  ∧ (∀ h, h ∈ hs → is_Some (seen !! index h)).

Definition index_lt (a b : Highlight) : Prop := index a < index b.

(** ** The order of the floats *)

Definition sf_is_nan (a : spec_float) : bool :=
  match a with
  | S754_nan => true
  | _ => false
  end.

Ltac cmp_cases :=
  repeat match goal with
  | |- context [Z.compare ?a ?b] => destruct (Z.compare_spec a b)
  | H : context [Z.compare ?a ?b] |- _ => destruct (Z.compare_spec a b)
  | |- context [Pos.compare_cont Eq ?a ?b] =>
      change (Pos.compare_cont Eq a b) with (Pos.compare a b);
      destruct (Pos.compare_spec a b)
  | H : context [Pos.compare_cont Eq ?a ?b] |- _ =>
      change (Pos.compare_cont Eq a b) with (Pos.compare a b) in H;
      destruct (Pos.compare_spec a b)
  end.

(** ** The min/max detector *)

(** Position [i] holds [v], the first entry of [values] that is not missing
    and equals [target]. *)
Definition first_occurrence (target : float) (values : list float)
  (i : Z) (v : float) : Prop :=
  0 <= i ∧ values !! Z.to_nat i = Some v
  ∧ np.isnan v = false ∧ (v =? target)%float = true
  ∧ ∀ j w, (j < Z.to_nat i)%nat → values !! j = Some w →
      np.isnan w = true ∨ (w =? target)%float = false.

(** Position [i] holds [v], the first entry of [values] that is not
    missing. *)
Definition first_non_missing (values : list float) (i : Z) (v : float)
  : Prop :=
  0 <= i ∧ values !! Z.to_nat i = Some v ∧ np.isnan v = false
  ∧ ∀ j w, (j < Z.to_nat i)%nat → values !! j = Some w → np.isnan w = true.

Definition minmax_sample : list float := [3; nan; 1; 7; 7; 1]%float.

Definition all_equal_sample : list float := [nan; 3; nan; 3]%float.

(** ** The changepoint detector *)

Definition shift_sample : list float :=
  [0; 0; 1; 0; 0; 10; 10; 11; 10; 10; 10]%float.

Definition gap_sample : list float := [0; 1; 0; nan; 10; 11; 10]%float.

Definition no_gap_sample : list float := [0; 1; 0; 5; 10; 11; 10]%float.

(** ** The reduction pipeline *)

Definition no_kwargs : kwargs :=
  mkKwargs None None None None None None None None.

Definition two_rows : DataFrame :=
  [("name"%string, ObjCol [SStr "a"; SStr "b"]);
   ("v"%string, IntCol [1; 2])].

(** What C4 says of the sort stage: without sort parameters the stage
    returns its input. *)
Definition sort_is_identity_when_absent (kw : kwargs)
  (y_primary : option string) (df : DataFrame) : Prop :=
  sort_by kw = None → sort_order kw = None →
  stage_sort kw y_primary df = Done df.

Definition sales_by_region : DataFrame :=
  [("region"%string, ObjCol [SStr "north"; SStr "south"; SStr "north"]);
   ("year"%string, IntCol [1; 2; 3]);
   ("sales"%string, FloatCol [1; 2; 4]%float)].

Definition sum_by_region (x : string) : kwargs :=
  mkKwargs (Some x) (Some "region"%string) (Some "sum"%string)
           None None None None None.

Definition sum_by_region_table : DataFrame :=
  [("region"%string, ObjCol [SStr "north"; SStr "south"]);
   ("year"%string, IntCol [4; 2]);
   ("sales"%string, FloatCol [5; 2]%float)].

(** What C8 says: with a group-by column and an aggregation function
    supplied, and an x-column of another name, the group key, which is the
    first column of the aggregated table, carries the x-column name. *)
Definition group_key_renamed (kw : kwargs) (y_primary : option string)
  (df : DataFrame) : Prop :=
  ∀ g a x out,
    groupby kw = Some g → agg kw = Some a → x_col kw = Some x → g ≠ x →
    stage_aggregate kw y_primary df = Done out →
    pd.columns out !! 0%nat = Some x.

(** [d.get(k)] on a dict. *)
Fixpoint dict_get (d : list (string * scalar)) (k : string)
  : option scalar :=
  match d with
  | [] => None
  | (k', v) :: d' => if String.eqb k' k then Some v else dict_get d' k
  end.

(** The cell of the synthesized row under column [c], given the rows the
    collapse leaves out of that column. *)
Definition other_value (x c : string) (excluded : column) : scalar :=
  if String.eqb c x then SStr "Other"
  else
    match excluded with
    | IntCol xs => SInt (wrap64 (fold_left Z.add xs 0))
    | FloatCol xs => SFloat (np.sum (np.drop_nan xs))
    | ObjCol _ => SStr "Other"
    end.

Definition other_cell (x : string) (k : nat) (df : DataFrame) (c : string)
  : scalar :=
  match pd.get df c with
  | Some col => other_value x c (pd.col_map_rows (fun _ => skipn k) col)
  | None => SStr "Other"
  end.

(** The loop that fills [other_row], once no lookup can fail. *)
Definition other_row_of (x : string) (k : nat) (df : DataFrame)
  (cols : list string) (d : list (string * scalar))
  : list (string * scalar) :=
  fold_left (fun d c => if String.eqb c x then d
                        else dict_set d c (other_cell x k df c)) cols d.

Definition collapse_to (x : string) (k : Z) : kwargs :=
  mkKwargs (Some x) None None None None None None (Some k).

(** What C2 says of a numeric column [c]: the last row of the collapsed
    table holds, under [c], the sum of the rows left out. *)
Definition other_row_sums (kw : kwargs) (df : DataFrame) : Prop :=
  ∀ x k out c col total,
    x_col kw = Some x → max_categories kw = Some k →
    0 < k < Z.of_nat (pd.nrows df) →
    stage_collapse kw df = Done out →
    pd.get df c = Some col → pd.is_numeric_dtype col = true →
    pd.sum (pd.col_map_rows (fun _ => skipn (Z.to_nat k)) col) = Done total →
    ∃ col', pd.get out c = Some col'
            ∧ pd.values col' !! Z.to_nat k = Some total.

Definition categories (vA vB vC vD vE : Z) : DataFrame :=
  [("category"%string,
    ObjCol [SStr "A"; SStr "B"; SStr "C"; SStr "D"; SStr "E"]);
   ("value"%string, IntCol [vA; vB; vC; vD; vE])].

Definition keep_three : kwargs := collapse_to "category" 3.

(** ** Records of the detectors *)

(** What every record of a detector says of [values]: its index is a
    position of the sequence, its value is the entry there, and that entry
    is not missing. *)
Definition points_at (values : list float) (h : Highlight) : Prop :=
  0 <= index h < len values
  ∧ values !! Z.to_nat (index h) = Some (value h)
  ∧ np.isnan (value h) = false.

(** The z-score of an entry against a mean and a spread. *)
Definition z_of (mean std v : float) : float := ((v - mean) / std)%float.

(** What a record of the z-score detector says of the z-score [z] it was
    made for. *)
Definition zscore_record (threshold z : float) (h : Highlight) : Prop :=
  method h = "zscore"%string
  ∧ z_score h = Some (Round2 z) ∧ label h = LabelZ z
  ∧ shift_magnitude h = None
  ∧ reason h = (if (0 <? z)%float then "Z-score outlier (above mean)"
                else "Z-score outlier (below mean)")%string
  ∧ severity h = (if (threshold + 1 <? PrimFloat.abs z)%float then "high"
                  else "medium")%string
  ∧ suggested_style h
    = (if (threshold + 1 <? PrimFloat.abs z)%float then "halo_ring"
       else "color_shift")%string.

(** The fences of [detect_iqr]. *)
Definition iqr_of (percentile : list float -> float -> float)
  (values : list float) : float :=
  (percentile (np.drop_nan values) 75
   - percentile (np.drop_nan values) 25)%float.

Definition lower_fence (percentile : list float -> float -> float)
  (values : list float) (multiplier : float) : float :=
  (percentile (np.drop_nan values) 25
   - multiplier * iqr_of percentile values)%float.

Definition upper_fence (percentile : list float -> float -> float)
  (values : list float) (multiplier : float) : float :=
  (percentile (np.drop_nan values) 75
   + multiplier * iqr_of percentile values)%float.


Definition spike_sample : list float := [10; 10; 10; 10; 100]%float.


(** The merged records of the z-score and the min/max detector on the
    sample. *)
Definition spike_highlights : list Highlight :=
  deduplicate (detect_zscore spike_sample 1.5 ++ detect_minmax spike_sample).

(** ** Sorting *)

(** In the order of the keys, [a] does not come after [b]: [b < a] does not
    hold. *)
Definition not_after (a b : scalar) : Prop := pd.scalar_ltb b a = false.

(** [sort_order == "asc"], with the default ["desc"]. *)
Definition sorts_ascending (kw : kwargs) : bool :=
  match sort_order kw with
  | Some o => String.eqb o "asc"
  | None => false
  end.

(** The two first rows by the column [by_]. *)
Definition top_two (by_ : string) : kwargs :=
  mkKwargs None None None (Some 2) None (Some by_) None None.

(** A cell of an [int64] column once [nan] has joined the column, which
    makes it [float64]; the cells of other columns stay as they are. *)
Definition as_float64 (s : scalar) : scalar :=
  match s with
  | SInt z => SFloat (float_of_int64 z)
  | _ => s
  end.

(** The cells [group_small_slices] returns for a column [col] named [c],
    other than the value column, of a table whose rows it has arranged in
    the order [perm] and cut at [k]: the rows before the cut, then the cell
    of the row 'Other', which is the string under the label column [x] and
    [nan] elsewhere. *)
Definition grouped_cells (perm : list nat) (k : Z) (x c : string)
  (col : column) : list scalar :=
  let front := py_slice (pd.take_list perm (pd.values col)) 0 k in
  if String.eqb c x then front ++ [SStr "Other"]
  else match col with
       | IntCol _ => as_float64 <$> front
       | _ => front
       end ++ [SFloat nan].

(** Four slices of a pie, and the same after grouping to three. *)
Definition pie_sample : DataFrame :=
  [("name"%string, ObjCol [SStr "a"; SStr "b"; SStr "c"; SStr "d"]);
   ("share"%string, IntCol [5; 40; 25; 30]);
   ("note"%string, ObjCol [SStr "p"; SStr "q"; SStr "r"; SStr "s"])].

Definition pie_grouped : DataFrame :=
  [("name"%string, ObjCol [SStr "b"; SStr "d"; SStr "Other"]);
   ("share"%string, IntCol [40; 30; 30]);
   ("note"%string, ObjCol [SStr "q"; SStr "s"; SFloat nan])].

(** ** Tick labels *)

(** The labels a run of [smart_tick_labels] puts on the axis. *)
Definition labels_shown (calls : list ax_call) : option (list pystr) :=
  match calls with
  | set_xticklabels labels _ _ :: _ => Some labels
  | set_yticklabels labels :: _ => Some labels
  | _ => None
  end.

(** The call hides tick [i]. *)
Definition hides_tick (i : nat) (c : ax_call) : bool :=
  match c with
  | tick_set_visible j false => Nat.eqb i j
  | _ => false
  end.

(** Tick [i] was hidden by one of the calls. *)
Definition hidden (calls : list ax_call) (i : nat) : bool :=
  existsb (hides_tick i) calls.

(** The ticks, of [major_ticks], that the calls leave visible. *)
Definition visible_ticks (major_ticks : nat) (calls : list ax_call)
  : list nat :=
  List.filter (fun i => negb (hidden calls i)) (seq 0 major_ticks).

(** The code points of an ASCII string. *)
Definition ascii_str (s : string) : pystr :=
  map N_of_ascii (list_ascii_of_string s).

Definition quarter_labels : list string := replicate 70 "Q1"%string.

(** ** Grouping *)

(** The rows whose key is [k], by position. *)
Definition rows_of_key (k : Z) (ks : list Z) : list nat :=
  List.filter (fun i => bool_decide (ks !! i = Some k)) (seq 0 (length ks)).

(** The number an [int64] key holds. *)
Definition int_of (s : scalar) : Z :=
  match s with
  | SInt z => z
  | _ => 0
  end.

(** The tagged keys a list of groups stands for. *)
Definition flat_groups (gs : list (scalar * list nat))
  : list (nat * scalar) :=
  concat (map (fun kg => map (fun i => (i, kg.1)) kg.2) gs).

(** Sum by region, with no x column named. *)
Definition sum_by (g : string) : kwargs :=
  mkKwargs None (Some g) (Some "sum"%string) None None None None None.

Definition sales_by_shop : DataFrame :=
  [("shop"%string, IntCol [2; 1; 2; 1; 3]);
   ("units"%string, IntCol [10; 20; 30; 40; 50]);
   ("note"%string, ObjCol [SStr "a"; SStr "b"; SStr "c"; SStr "d";
                           SStr "e"])].

(** * Properties *)

(** ** The z-score detector on the sequence of scenario 1 *)

Lemma scenario_1_statistics :
  np.nanmean scenario_1 = 28%float ∧ np.nanstd scenario_1 = 36%float.
Proof. split; vm_compute; reflexivity. Qed.

(** C5, as stated, fails: with threshold 2.5 the detector flags nothing on
    [10,10,10,10,100], so index 4 is not reported. *)
Lemma zscore_scenario_1_not_flagged :
  ¬ flags_4_high_above (detect_zscore scenario_1 2.5).
Proof.
  intros (h & Hin & _).
  replace (detect_zscore scenario_1 2.5) with (@nil Highlight) in Hin
    by (vm_compute; reflexivity).
  by apply elem_of_nil in Hin.
Qed.

(** C5 (amended): on [10,10,10,10,100] the mean is 28 and the population
    standard deviation 36, so the z-score of index 4 is exactly 2: with
    threshold 2.5 the detector returns the empty list, and with threshold
    1.5 it flags index 4 alone, as "medium", with a reason that contains
    "above mean". *)
Theorem zscore_scenario_1 :
  detect_zscore scenario_1 2.5 = []
  ∧ ((100 - np.nanmean scenario_1) / np.nanstd scenario_1 = 2)%float
  ∧ ∃ h, detect_zscore scenario_1 1.5 = [h]
         ∧ index h = 4 ∧ value h = 100%float
         ∧ severity h = "medium"%string
         ∧ reason h = "Z-score outlier (above mean)"%string
         ∧ contains "above mean" (reason h) = true.
Proof.
  split; [vm_compute; reflexivity|].
  split; [vm_compute; reflexivity|].
  eexists. split; [vm_compute; reflexivity|].
  repeat split.
Qed.

(** ** Merge / deduplicate *)

Lemma severity_order_levels :
  severity_order "high" = 3 ∧ severity_order "medium" = 2
  ∧ severity_order "low" = 1.
Proof. done. Qed.

Lemma wins_index_snoc_keep hs h x :
  wins_index hs h →
  (index x = index h →
   severity_order (severity x) <= severity_order (severity h)) →
  wins_index (hs ++ [x]) h.
Proof.
  intros (pre & post & -> & Hpre & Hpost) Hx.
  exists pre, (post ++ [x]). split; [by rewrite <- app_assoc|].
  split; [done|].
  intros h' [Hin | ->%list_elem_of_singleton]%elem_of_app; auto.
Qed.

Lemma wins_index_snoc_new hs x :
  (∀ h', h' ∈ hs → index h' = index x →
     severity_order (severity h') < severity_order (severity x)) →
  wins_index (hs ++ [x]) x.
Proof.
  intros Hlt. exists hs, []. split; [done|]. split; [done|].
  intros h' Hin. by apply elem_of_nil in Hin.
Qed.

Lemma seen_invariant_nil : seen_invariant [] ∅.
Proof.
  split.
  - intros i h Hl. by rewrite lookup_empty in Hl.
  - intros h Hin. by apply elem_of_nil in Hin.
Qed.

Lemma seen_invariant_step hs seen x :
  seen_invariant hs seen → seen_invariant (hs ++ [x]) (dedup_step seen x).
Proof.
  intros [Hsome Hall]. unfold dedup_step.
  destruct (seen !! index x) as [old|] eqn:Hold.
  - destruct (Hsome _ _ Hold) as [Hidx Hwin].
    destruct (Z.ltb_spec (severity_order (severity old))
                (severity_order (severity x))) as [Hlt | Hge].
    + split.
      * intros i h. rewrite lookup_insert. case_decide as Hi.
        -- intros [= <-]. split; [done|]. apply wins_index_snoc_new.
           intros h' Hin Heq.
           destruct Hwin as (pre & post & -> & Hpre & Hpost).
           apply elem_of_app in Hin as [Hin | Hin].
           ++ specialize (Hpre h' Hin). lia.
           ++ apply elem_of_cons in Hin as [-> | Hin]; [done|].
              specialize (Hpost h' Hin). lia.
        -- intros Hl. destruct (Hsome _ _ Hl) as [Hi' Hw]. split; [done|].
           apply wins_index_snoc_keep; [done|]. intros Heq. congruence.
      * intros h [Hin | ->%list_elem_of_singleton]%elem_of_app.
        -- rewrite lookup_insert. case_decide; [by eexists|]. by apply Hall.
        -- rewrite lookup_insert_eq. by eexists.
    + split.
      * intros i h Hl. destruct (Hsome _ _ Hl) as [Hi' Hw]. split; [done|].
        apply wins_index_snoc_keep; [done|]. intros Heq.
        assert (h = old) as -> by congruence. done.
      * intros h [Hin | ->%list_elem_of_singleton]%elem_of_app.
        -- by apply Hall.
        -- by eexists.
  - split.
    + intros i h. rewrite lookup_insert. case_decide as Hi.
      * intros [= <-]. split; [done|]. apply wins_index_snoc_new.
        intros h' Hin Heq. destruct (Hall _ Hin) as [o Ho].
        rewrite Heq in Ho. congruence.
      * intros Hl. destruct (Hsome _ _ Hl) as [Hi' Hw]. split; [done|].
        apply wins_index_snoc_keep; [done|]. intros Heq. congruence.
    + intros h [Hin | ->%list_elem_of_singleton]%elem_of_app.
      * rewrite lookup_insert. case_decide; [by eexists|]. by apply Hall.
      * rewrite lookup_insert_eq. by eexists.
Qed.

Lemma seen_invariant_fold hs :
  seen_invariant hs (fold_left dedup_step hs ∅).
Proof.
  induction hs as [|x hs IH] using rev_ind.
  - apply seen_invariant_nil.
  - rewrite fold_left_app. simpl. by apply seen_invariant_step.
Qed.

#[global] Instance index_le_total : Total index_le.
Proof. intros a b. unfold index_le. lia. Qed.

#[global] Instance index_le_trans : Transitive index_le.
Proof. intros a b c. unfold index_le. lia. Qed.

Lemma elem_of_dict_values (seen : gmap Z Highlight) h :
  h ∈ dict_values seen ↔ ∃ i, seen !! i = Some h.
Proof.
  unfold dict_values. rewrite list_elem_of_fmap. split.
  - intros ([i h'] & -> & Hin). exists i. by apply elem_of_map_to_list.
  - intros [i Hi]. exists (i, h). split; [done|].
    by apply elem_of_map_to_list.
Qed.

Lemma dict_values_keys (seen : gmap Z Highlight) :
  (∀ i h, seen !! i = Some h → index h = i) →
  index <$> dict_values seen = (map_to_list seen).*1.
Proof.
  intros Hkey. unfold dict_values.
  assert (Forall (fun p => index p.2 = p.1) (map_to_list seen)) as HF.
  { apply Forall_forall. intros [i h] Hin. simpl.
    apply Hkey. by apply elem_of_map_to_list. }
  induction HF as [|[i h] l Hih _ IH]; [done|].
  simpl in *. f_equal; [exact Hih | exact IH].
Qed.

Lemma strictly_sorted (l : list Highlight) :
  Sorted index_le l → NoDup (index <$> l) → StronglySorted index_lt l.
Proof.
  intros Hs%Sorted_StronglySorted; [|apply _].
  induction Hs as [|h l Hs IH Hall]; intros Hnd; [constructor|].
  apply NoDup_cons in Hnd as [Hnotin Hnd].
  constructor; [by apply IH|].
  apply Forall_forall. intros k Hk.
  rewrite Forall_forall in Hall. specialize (Hall k Hk).
  unfold index_le in Hall. unfold index_lt.
  assert (index h ≠ index k).
  { intros Heq. apply Hnotin. rewrite Heq.
    apply list_elem_of_fmap. by exists k. }
  lia.
Qed.

(** The order in which a dict lists its values is lost in the sort: any
    arrangement of candidates with distinct indices sorts to the same
    list. *)
Lemma sorted_values_any_order (l1 l2 : list Highlight) :
  l1 ≡ₚ l2 → NoDup (index <$> l1) →
  sorted_by_index l1 = sorted_by_index l2.
Proof.
  intros Hp Hnd. unfold sorted_by_index.
  apply (Sorted_unique_strong index_le).
  - intros x1 x2 Hx1 Hx2 H12 H21.
    rewrite merge_sort_Permutation in Hx1, Hx2.
    rewrite <- Hp in Hx2. unfold index_le in *.
    assert (index x1 = index x2) as Heq by lia.
    clear H12 H21 Hp.
    induction l1 as [|a l1 IH]; [by apply elem_of_nil in Hx1|].
    simpl in Hnd. apply NoDup_cons in Hnd as [Hnotin Hnd].
    apply elem_of_cons in Hx1 as [-> | Hx1];
      apply elem_of_cons in Hx2 as [-> | Hx2]; auto.
    + exfalso. apply Hnotin. rewrite Heq.
      apply list_elem_of_fmap. by exists x2.
    + exfalso. apply Hnotin. rewrite <- Heq.
      apply list_elem_of_fmap. by exists x1.
  - apply Sorted_merge_sort. apply _.
  - apply Sorted_merge_sort. apply _.
  - by rewrite !merge_sort_Permutation.
Qed.

(** The table [severity_order] ranks the severities as the specification
    does. *)
Lemma more_severe_order (s t : string) :
  more_severe s t ↔ severity_order t < severity_order s.
Proof.
  unfold more_severe, severity_order.
  destruct (String.eqb_spec s "high") as [-> | Hs1];
    [|destruct (String.eqb_spec s "medium") as [-> | Hs2];
      [|destruct (String.eqb_spec s "low") as [-> | Hs3]]];
    (destruct (String.eqb_spec t "high") as [-> | Ht1];
     [|destruct (String.eqb_spec t "medium") as [-> | Ht2];
       [|destruct (String.eqb_spec t "low") as [-> | Ht3]]]);
    split; intros H; try lia;
    try (by destruct H as [[? ?] | [[? ?] | [? ?]]]);
    try (by destruct H as [[? ?] | [[? [? ?]] | [? [? [? ?]]]]]).
  all: auto 10.
Qed.

Lemma wins_index_most_severe (hs : list Highlight) (h : Highlight) :
  wins_index hs h → most_severe_first hs h.
Proof.
  intros (pre & post & -> & Hpre & Hpost). split.
  - intros h' Hin Hidx Hmore%more_severe_order.
    apply elem_of_app in Hin as [Hin | Hin].
    + specialize (Hpre h' Hin Hidx). lia.
    + apply elem_of_cons in Hin as [-> | Hin]; [lia|].
      specialize (Hpost h' Hin Hidx). lia.
  - exists pre, post. split; [done|].
    intros h' Hin Hidx. apply more_severe_order. by apply Hpre.
Qed.

(** C1: [deduplicate] returns its candidates in strictly increasing order
    of index, hence at most one per index.  Every record it returns is a
    candidate, the most severe one at its index under high > medium > low:
    no candidate of that index is more severe, and every candidate of that
    index that comes before it in the input is less severe, so that among
    equally severe candidates the first is kept.  Every index of a
    candidate is the index of a returned record. *)
Theorem deduplicate_spec (highlights : list Highlight) :
  StronglySorted index_lt (deduplicate highlights)
  ∧ (∀ h, h ∈ deduplicate highlights →
       h ∈ highlights
       ∧ (∀ h', h' ∈ highlights → index h' = index h →
            ¬ more_severe (severity h') (severity h))
       ∧ ∃ pre post, highlights = pre ++ h :: post
           ∧ ∀ h', h' ∈ pre → index h' = index h →
               more_severe (severity h) (severity h'))
  ∧ (∀ h, h ∈ highlights →
       ∃ k, k ∈ deduplicate highlights ∧ index k = index h).
Proof.
  destruct (seen_invariant_fold highlights) as [Hsome Hall].
  unfold deduplicate, sorted_by_index.
  set (seen := fold_left dedup_step highlights ∅) in *.
  split; [|split].
  - apply strictly_sorted; [apply Sorted_merge_sort; apply _|].
    rewrite merge_sort_Permutation.
    rewrite dict_values_keys by (intros i h Hl; by apply Hsome).
    apply NoDup_fst_map_to_list.
  - intros h. rewrite merge_sort_Permutation, elem_of_dict_values.
    intros [i Hi]. apply Hsome in Hi as [_ Hw].
    pose proof (wins_index_most_severe _ _ Hw) as [Hmost Hfirst].
    split; [|done].
    destruct Hw as (pre & post & -> & _).
    apply elem_of_app. right. left.
  - intros h Hin. destruct (Hall _ Hin) as [k Hk].
    exists k. split.
    + rewrite merge_sort_Permutation, elem_of_dict_values. by eexists.
    + by apply Hsome in Hk as [Hk _].
Qed.

(** ** The order of binary64 floats

    The comparisons of the kernel's floats are specified on their decoded
    form; on values that are not [nan] they are a total preorder. *)

Lemma SFleb_trans a b c :
  SFleb a b = true → SFleb b c = true → SFleb a c = true.
Proof.
  unfold SFleb, SFcompare.
  destruct a as [sa|sa| |sa ma ea], b as [sb|sb| |sb mb eb],
           c as [sc|sc| |sc mc ec];
    repeat match goal with s : bool |- _ => destruct s end;
    simpl; try congruence; intros H1 H2;
    cmp_cases; simpl in *; try congruence; try lia.
Qed.

Lemma SFleb_total a b :
  sf_is_nan a = false → sf_is_nan b = false →
  SFleb a b = true ∨ SFleb b a = true.
Proof.
  unfold SFleb, SFcompare.
  destruct a as [sa|sa| |sa ma ea], b as [sb|sb| |sb mb eb];
    repeat match goal with s : bool |- _ => destruct s end;
    simpl; try congruence; intros _ _; auto;
    cmp_cases; simpl in *; auto; try lia.
Qed.

Lemma is_nan_spec x : np.isnan x = sf_is_nan (Prim2SF x).
Proof.
  unfold np.isnan, PrimFloat.is_nan. rewrite FloatAxioms.eqb_spec.
  unfold SFeqb, SFcompare.
  destruct (Prim2SF x) as [s|s| |s m e]; try destruct s; simpl; auto;
    rewrite Z.compare_refl;
    change (Pos.compare_cont Eq m m) with (Pos.compare m m);
    rewrite Pos.compare_refl; reflexivity.
Qed.

Lemma float_leb_trans (x y z : float) :
  (x <=? y)%float = true → (y <=? z)%float = true → (x <=? z)%float = true.
Proof. rewrite !FloatAxioms.leb_spec. apply SFleb_trans. Qed.

Lemma float_leb_total (x y : float) :
  np.isnan x = false → np.isnan y = false →
  (x <=? y)%float = true ∨ (y <=? x)%float = true.
Proof. rewrite !FloatAxioms.leb_spec, !is_nan_spec. apply SFleb_total. Qed.

Lemma float_leb_refl (x : float) :
  np.isnan x = false → (x <=? x)%float = true.
Proof. intros H. by destruct (float_leb_total x x H H). Qed.

Lemma float_eqb_refl (x : float) :
  np.isnan x = false → (x =? x)%float = true.
Proof.
  unfold np.isnan, PrimFloat.is_nan. intros H.
  by apply negb_false_iff in H.
Qed.

(** ** numpy's [max] and [min] *)

Lemma elem_of_drop_nan (a : list float) v :
  v ∈ np.drop_nan a ↔ v ∈ a ∧ np.isnan v = false.
Proof.
  unfold np.drop_nan.
  by rewrite !list_elem_of_In, filter_In, negb_true_iff.
Qed.

Lemma fold_maximum_spec (xs : list float) (x : float) :
  np.isnan x = false → Forall (fun v => np.isnan v = false) xs →
  let m := fold_left np.maximum xs x in
  m ∈ x :: xs ∧ np.isnan m = false
  ∧ ∀ c, c ∈ x :: xs → (c <=? m)%float = true.
Proof.
  intros Hx Hxs. revert x Hx.
  induction Hxs as [|y xs Hy Hxs IH]; intros x Hx; simpl.
  - split; [left|]. split; [done|].
    intros c ->%list_elem_of_singleton. by apply float_leb_refl.
  - assert (np.maximum x y = x ∧ (y <=? x)%float = true
            ∨ np.maximum x y = y ∧ (x <=? y)%float = true) as Hm.
    { unfold np.maximum. rewrite Hx, orb_false_r.
      destruct (y <=? x)%float eqn:E; [by left|right].
      split; [done|]. destruct (float_leb_total x y Hx Hy); congruence. }
    destruct Hm as [[-> Hle] | [-> Hle]].
    + destruct (IH x Hx) as (Hin & Hnan & Hub). split; [|split; [done|]].
      * apply elem_of_cons in Hin as [-> | Hin]; [left|].
        by do 2 right.
      * intros c [-> | [-> | Hc]%elem_of_cons]%elem_of_cons.
        -- apply Hub. left.
        -- apply (float_leb_trans _ x); [done|]. apply Hub. left.
        -- apply Hub. by right.
    + destruct (IH y Hy) as (Hin & Hnan & Hub). split; [|split; [done|]].
      * by right.
      * intros c [-> | Hc]%elem_of_cons.
        -- apply (float_leb_trans _ y); [done|]. apply Hub. left.
        -- by apply Hub.
Qed.

Lemma fold_minimum_spec (xs : list float) (x : float) :
  np.isnan x = false → Forall (fun v => np.isnan v = false) xs →
  let m := fold_left np.minimum xs x in
  m ∈ x :: xs ∧ np.isnan m = false
  ∧ ∀ c, c ∈ x :: xs → (m <=? c)%float = true.
Proof.
  intros Hx Hxs. revert x Hx.
  induction Hxs as [|y xs Hy Hxs IH]; intros x Hx; simpl.
  - split; [left|]. split; [done|].
    intros c ->%list_elem_of_singleton. by apply float_leb_refl.
  - assert (np.minimum x y = x ∧ (x <=? y)%float = true
            ∨ np.minimum x y = y ∧ (y <=? x)%float = true) as Hm.
    { unfold np.minimum. rewrite Hx, orb_false_r.
      destruct (x <=? y)%float eqn:E; [by left|right].
      split; [done|]. destruct (float_leb_total x y Hx Hy); congruence. }
    destruct Hm as [[-> Hle] | [-> Hle]].
    + destruct (IH x Hx) as (Hin & Hnan & Hlb). split; [|split; [done|]].
      * apply elem_of_cons in Hin as [-> | Hin]; [left|].
        by do 2 right.
      * intros c [-> | [-> | Hc]%elem_of_cons]%elem_of_cons.
        -- apply Hlb. left.
        -- apply (float_leb_trans _ x); [|done]. apply Hlb. left.
        -- apply Hlb. by right.
    + destruct (IH y Hy) as (Hin & Hnan & Hlb). split; [|split; [done|]].
      * by right.
      * intros c [-> | Hc]%elem_of_cons.
        -- apply (float_leb_trans _ y); [|done]. apply Hlb. left.
        -- by apply Hlb.
Qed.

(** On an array with an entry that is not missing, [np.max] of the clean
    values is one of them and bounds them all from above; [np.min] from
    below. *)
Lemma np_max_spec (a : list float) :
  np.drop_nan a ≠ [] →
  let m := np.max (np.drop_nan a) in
  m ∈ a ∧ np.isnan m = false
  ∧ ∀ c, c ∈ a → np.isnan c = false → (c <=? m)%float = true.
Proof.
  intros Hne.
  assert (Forall (fun v => np.isnan v = false) (np.drop_nan a)) as HF.
  { apply Forall_forall. intros v Hv.
    by apply elem_of_drop_nan in Hv as [_ Hv]. }
  destruct (np.drop_nan a) as [|x xs] eqn:E; [done|]. simpl.
  apply Forall_cons in HF as [Hx Hxs].
  destruct (fold_maximum_spec xs x Hx Hxs) as (Hin & Hnan & Hub).
  rewrite <- E in Hin, Hub. split; [|split; [done|]].
  - by apply elem_of_drop_nan in Hin as [Hin _].
  - intros c Hc Hcn. apply Hub. by apply elem_of_drop_nan.
Qed.

Lemma np_min_spec (a : list float) :
  np.drop_nan a ≠ [] →
  let m := np.min (np.drop_nan a) in
  m ∈ a ∧ np.isnan m = false
  ∧ ∀ c, c ∈ a → np.isnan c = false → (m <=? c)%float = true.
Proof.
  intros Hne.
  assert (Forall (fun v => np.isnan v = false) (np.drop_nan a)) as HF.
  { apply Forall_forall. intros v Hv.
    by apply elem_of_drop_nan in Hv as [_ Hv]. }
  destruct (np.drop_nan a) as [|x xs] eqn:E; [done|]. simpl.
  apply Forall_cons in HF as [Hx Hxs].
  destruct (fold_minimum_spec xs x Hx Hxs) as (Hin & Hnan & Hlb).
  rewrite <- E in Hin, Hlb. split; [|split; [done|]].
  - by apply elem_of_drop_nan in Hin as [Hin _].
  - intros c Hc Hcn. apply Hlb. by apply elem_of_drop_nan.
Qed.

(** ** The min/max detector *)

Lemma find_enumerate_from (P : float → bool) (s : Z) (xs : list float) i v :
  List.find (fun '(_, v) => P v) (enumerate_from s xs) = Some (i, v) →
  ∃ n, i = s + Z.of_nat n ∧ xs !! n = Some v ∧ P v = true
       ∧ ∀ m w, (m < n)%nat → xs !! m = Some w → P w = false.
Proof.
  revert s. induction xs as [|x xs IH]; intros s; simpl; [done|].
  destruct (P x) eqn:HP.
  - intros [= <- <-]. exists 0%nat. repeat split; [lia|done|]. lia.
  - intros (n & -> & Hn & HPv & Hbefore)%IH. exists (S n).
    repeat split; [lia|done|done|].
    intros [|m] w Hm; simpl; [by intros [= <-]|].
    apply Hbefore. lia.
Qed.

Lemma find_enumerate_from_None (P : float → bool) (s : Z) (xs : list float) :
  List.find (fun '(_, v) => P v) (enumerate_from s xs) = None →
  ∀ w, w ∈ xs → P w = false.
Proof.
  revert s. induction xs as [|x xs IH]; intros s; simpl.
  - intros _ w Hw. by apply elem_of_nil in Hw.
  - destruct (P x) eqn:HP; [done|].
    intros Hnone w [-> | Hw]%elem_of_cons; [done|]. by eapply IH.
Qed.

Lemma first_equal_Some target values i v :
  first_equal target values = Some (i, v) →
  first_occurrence target values i v.
Proof.
  unfold first_equal, enumerate.
  intros (n & -> & Hn & HP & Hbefore)%
    (find_enumerate_from
       (fun v => negb (np.isnan v) && (v =? target)%float)).
  apply andb_true_iff in HP as [Hnan%negb_true_iff Heq].
  unfold first_occurrence. rewrite Z.add_0_l, Nat2Z.id.
  repeat split; [lia|done|done|done|].
  intros j w Hj Hw. specialize (Hbefore j w Hj Hw).
  apply andb_false_iff in Hbefore as [Hb%negb_false_iff | Hb]; auto.
Qed.

Lemma first_equal_is_Some target values :
  target ∈ values → np.isnan target = false →
  is_Some (first_equal target values).
Proof.
  intros Hin Hnan. destruct (first_equal target values) eqn:E; [done|].
  unfold first_equal, enumerate in E.
  apply (find_enumerate_from_None
           (fun v => negb (np.isnan v) && (v =? target)%float))
    with (w := target) in E; [|done].
  rewrite Hnan, float_eqb_refl in E; done.
Qed.

Lemma drop_nan_nonempty (values : list float) :
  (∃ v, v ∈ values ∧ np.isnan v = false) → np.drop_nan values ≠ [].
Proof.
  intros (v & Hin & Hnan) E.
  assert (v ∈ np.drop_nan values) as Hv by by apply elem_of_drop_nan.
  rewrite E in Hv. by apply elem_of_nil in Hv.
Qed.

Lemma detect_minmax_records (values : list float) :
  (∃ v, v ∈ values ∧ np.isnan v = false) →
  ∃ i v j w,
    detect_minmax values = [max_highlight i v; min_highlight j w]
    ∧ first_occurrence (np.max (np.drop_nan values)) values i v
    ∧ first_occurrence (np.min (np.drop_nan values)) values j w.
Proof.
  intros Hne%drop_nan_nonempty.
  destruct (np_max_spec values Hne) as (Hmax_in & Hmax_nan & _).
  destruct (np_min_spec values Hne) as (Hmin_in & Hmin_nan & _).
  simpl in *.
  destruct (first_equal_is_Some _ _ Hmax_in Hmax_nan) as [[i v] Hi].
  destruct (first_equal_is_Some _ _ Hmin_in Hmin_nan) as [[j w] Hj].
  exists i, v, j, w. split; [|split; by apply first_equal_Some].
  unfold detect_minmax.
  destruct (len (np.drop_nan values) =? 0) eqn:Hlen.
  - apply Z.eqb_eq in Hlen. unfold len in Hlen.
    destruct (np.drop_nan values); [done|]. simpl in Hlen. lia.
  - by rewrite Hi, Hj.
Qed.

(** C6: on a sequence with an entry that is not missing, [detect_minmax]
    returns at most two records, each of severity "low": one for the
    maximum of the entries that are not missing and one for their minimum.
    The index of each record is the smallest index whose entry equals that
    extreme and its value is the entry there; the first record has the
    reason "Global maximum" and the second "Global minimum", and both carry
    the method name "minmax". *)
Theorem detect_minmax_spec (values : list float) :
  (∃ v, v ∈ values ∧ np.isnan v = false) →
  (length (detect_minmax values) <= 2)%nat
  ∧ Forall (fun h => severity h = "low"%string) (detect_minmax values)
  ∧ (∀ c, c ∈ values → np.isnan c = false →
       (c <=? np.max (np.drop_nan values))%float = true
       ∧ (np.min (np.drop_nan values) <=? c)%float = true)
  ∧ ∃ hmax hmin,
      detect_minmax values = [hmax; hmin]
      ∧ first_occurrence (np.max (np.drop_nan values)) values
          (index hmax) (value hmax)
      ∧ first_occurrence (np.min (np.drop_nan values)) values
          (index hmin) (value hmin)
      ∧ reason hmax = "Global maximum"%string
      ∧ reason hmin = "Global minimum"%string
      ∧ label hmax = LabelMax (value hmax)
      ∧ label hmin = LabelMin (value hmin)
      ∧ Forall (fun h => method h = "minmax"%string
                         ∧ suggested_style h = "annotation_arrow"%string
                         ∧ z_score h = None ∧ shift_magnitude h = None)
               [hmax; hmin].
Proof.
  intros Hne.
  destruct (detect_minmax_records values Hne)
    as (i & v & j & w & Hout & Hi & Hj).
  apply drop_nan_nonempty in Hne.
  destruct (np_max_spec values Hne) as (_ & _ & Hub).
  destruct (np_min_spec values Hne) as (_ & _ & Hlb).
  simpl in *.
  rewrite Hout. split; [simpl; lia|]. split; [by repeat constructor|].
  split; [by auto|].
  exists (max_highlight i v), (min_highlight j w).
  split; [done|]. split; [exact Hi|]. split; [exact Hj|].
  repeat split; by repeat constructor.
Qed.

Lemma detect_minmax_spec_witness :
  (length (detect_minmax minmax_sample) <= 2)%nat
  ∧ Forall (fun h => severity h = "low"%string) (detect_minmax minmax_sample)
  ∧ (∀ c, c ∈ minmax_sample → np.isnan c = false →
       (c <=? np.max (np.drop_nan minmax_sample))%float = true
       ∧ (np.min (np.drop_nan minmax_sample) <=? c)%float = true)
  ∧ ∃ hmax hmin,
      detect_minmax minmax_sample = [hmax; hmin]
      ∧ first_occurrence (np.max (np.drop_nan minmax_sample)) minmax_sample
          (index hmax) (value hmax)
      ∧ first_occurrence (np.min (np.drop_nan minmax_sample)) minmax_sample
          (index hmin) (value hmin)
      ∧ reason hmax = "Global maximum"%string
      ∧ reason hmin = "Global minimum"%string
      ∧ label hmax = LabelMax (value hmax)
      ∧ label hmin = LabelMin (value hmin)
      ∧ Forall (fun h => method h = "minmax"%string
                         ∧ suggested_style h = "annotation_arrow"%string
                         ∧ z_score h = None ∧ shift_magnitude h = None)
               [hmax; hmin].
Proof.
  apply (detect_minmax_spec minmax_sample).
  exists 3%float. split; [apply list_elem_of_here | reflexivity].
Defined.

(** On the sample the maximum 7 is reported at index 3, the first of its
    two positions, and the minimum 1 at index 2. *)
Example detect_minmax_repeated_extremes :
  map (fun h => (index h, value h, reason h, severity h))
      (detect_minmax minmax_sample)
  = [(3, 7%float, "Global maximum"%string, "low"%string);
     (2, 1%float, "Global minimum"%string, "low"%string)].
Proof. vm_compute. reflexivity. Qed.

Lemma first_non_missing_unique values i v j w :
  first_non_missing values i v → first_non_missing values j w →
  i = j ∧ v = w.
Proof.
  intros (Hi & Hvi & Hvn & Hvb) (Hj & Hwj & Hwn & Hwb).
  assert (Z.to_nat i = Z.to_nat j) as Heq.
  { destruct (lt_eq_lt_dec (Z.to_nat i) (Z.to_nat j)) as [[Hlt | Heq] | Hlt];
      [|done|].
    - specialize (Hwb _ _ Hlt Hvi). congruence.
    - specialize (Hvb _ _ Hlt Hwj). congruence. }
  split; [lia|]. rewrite Heq in Hvi. congruence.
Qed.

Lemma deduplicate_same_index (a b : Highlight) :
  index a = index b →
  severity_order (severity b) <= severity_order (severity a) →
  deduplicate [a; b] = [a].
Proof.
  intros Hidx Hsev. unfold deduplicate. simpl.
  unfold dedup_step at 2. rewrite lookup_empty.
  unfold dedup_step. rewrite <- Hidx, lookup_insert_eq.
  destruct (Z.ltb_spec (severity_order (severity a))
              (severity_order (severity b))); [lia|].
  unfold dict_values. rewrite insert_empty, map_to_list_singleton.
  reflexivity.
Qed.

(** C10: when the entries that are not missing are all equal, and there is
    one, [detect_minmax] returns exactly two records, "Global maximum" and
    "Global minimum", both at the first index that is not missing: its own
    output holds two records of one index, which [deduplicate] then merges
    into the first of them. *)
Theorem detect_minmax_all_equal (values : list float) :
  (∃ v, v ∈ values ∧ np.isnan v = false) →
  (∀ v w, v ∈ values → w ∈ values →
     np.isnan v = false → np.isnan w = false → (v =? w)%float = true) →
  ∃ i v,
    detect_minmax values = [max_highlight i v; min_highlight i v]
    ∧ first_non_missing values i v
    ∧ reason (max_highlight i v) = "Global maximum"%string
    ∧ reason (min_highlight i v) = "Global minimum"%string
    ∧ index (max_highlight i v) = index (min_highlight i v)
    ∧ deduplicate (detect_minmax values) = [max_highlight i v].
Proof.
  intros Hne Hall.
  destruct (detect_minmax_records values Hne)
    as (i & v & j & w & Hout & Hi & Hj).
  pose proof (drop_nan_nonempty values Hne) as Hne'.
  destruct (np_max_spec values Hne') as (Hmax_in & Hmax_nan & _).
  destruct (np_min_spec values Hne') as (Hmin_in & Hmin_nan & _).
  simpl in *.
  assert (∀ target k u, target ∈ values → np.isnan target = false →
            first_occurrence target values k u →
            first_non_missing values k u) as Hfirst.
  { intros target k u Ht Htn (Hk & Hu & Hun & _ & Hbefore).
    repeat split; [done|done|done|].
    intros m x Hm Hx. destruct (np.isnan x) eqn:Hxn; [done|].
    destruct (Hbefore m x Hm Hx) as [? | Hneq]; [congruence|].
    rewrite Hall in Hneq; [done| |done|done|done].
    apply list_elem_of_lookup. by exists m. }
  apply Hfirst in Hi; [|done|done]. apply Hfirst in Hj; [|done|done].
  destruct (first_non_missing_unique _ _ _ _ _ Hi Hj) as [<- <-].
  exists i, v. rewrite Hout. repeat split; try done.
  - by destruct Hi.
  - by destruct Hi as (_ & ? & _).
  - by destruct Hi as (_ & _ & ? & _).
  - by destruct Hi as (_ & _ & _ & ?).
  - by apply deduplicate_same_index.
Qed.

Lemma detect_minmax_all_equal_witness :
  ∃ i v,
    detect_minmax all_equal_sample = [max_highlight i v; min_highlight i v]
    ∧ first_non_missing all_equal_sample i v
    ∧ reason (max_highlight i v) = "Global maximum"%string
    ∧ reason (min_highlight i v) = "Global minimum"%string
    ∧ index (max_highlight i v) = index (min_highlight i v)
    ∧ deduplicate (detect_minmax all_equal_sample) = [max_highlight i v].
Proof.
  apply (detect_minmax_all_equal all_equal_sample).
  - exists 3%float. split; [|reflexivity].
    unfold all_equal_sample. apply list_elem_of_further, list_elem_of_here.
  - unfold all_equal_sample. intros v w Hv Hw.
    repeat (apply elem_of_cons in Hv as [-> | Hv]);
      repeat (apply elem_of_cons in Hw as [-> | Hw]);
      try (by apply elem_of_nil in Hv); try (by apply elem_of_nil in Hw);
      vm_compute; congruence.
Defined.

Example detect_minmax_all_equal_sample :
  detect_minmax all_equal_sample = [max_highlight 1 3; min_highlight 1 3]
  ∧ deduplicate (detect_minmax all_equal_sample) = [max_highlight 1 3].
Proof. split; vm_compute; reflexivity. Qed.

(** ** The changepoint detector *)

Lemma elem_of_py_range (a b i : Z) : i ∈ py_range a b ↔ a <= i < b.
Proof.
  unfold py_range. rewrite list_elem_of_fmap. split.
  - intros (k & -> & Hk). apply elem_of_seq in Hk. lia.
  - intros Hi. exists (Z.to_nat (i - a)). split; [lia|].
    apply elem_of_seq. lia.
Qed.

Lemma py_index_in_range {A : Type} (xs : list A) (i : Z) :
  0 <= i < len xs → ∃ x, py_index xs i = Ok x.
Proof.
  intros Hi. unfold py_index.
  destruct (Z.ltb_spec i 0); [lia|]. simpl.
  destruct (Z.ltb_spec i 0); [lia|].
  destruct (Z.leb_spec (len xs) i); [lia|]. simpl.
  destruct (nth_error xs (Z.to_nat i)) eqn:E; [by eexists|].
  apply nth_error_None in E. unfold len in *. lia.
Qed.

(** A record emitted at position [i] carries that index and the value
    there, which is not missing. *)
Lemma changepoint_at_Some values window threshold i h :
  changepoint_at values window threshold i = Ok (Some h) →
  index h = i ∧ py_index values i = Ok (value h)
  ∧ np.isnan (value h) = false.
Proof.
  unfold changepoint_at.
  destruct (py_index values i) as [vi|e]; simpl; [|done].
  destruct (np.isnan vi) eqn:Hnan; [done|].
  repeat match goal with
         | |- (if ?c then _ else _) = _ → _ => destruct c; [done|]
         end.
  destruct (_ <? _)%float; [|done].
  by intros [= <-].
Qed.

Lemma changepoint_at_total values window threshold i :
  0 <= i < len values →
  ∃ r, changepoint_at values window threshold i = Ok r.
Proof.
  intros [vi Hvi]%py_index_in_range. unfold changepoint_at.
  rewrite Hvi. simpl.
  repeat match goal with
         | |- ∃ r, (if ?c then _ else _) = _ => destruct c
         end; by eexists.
Qed.

Lemma changepoint_loop_Forall (P : Highlight → Prop)
  values window threshold positions acc hs :
  Forall P acc →
  (∀ i h, i ∈ positions →
     changepoint_at values window threshold i = Ok (Some h) → P h) →
  changepoint_loop values window threshold positions acc = Ok hs →
  Forall P hs.
Proof.
  revert acc. induction positions as [|i rest IH]; intros acc Hacc Hat; simpl.
  - by intros [= <-].
  - destruct (changepoint_at values window threshold i) as [r|e] eqn:E;
      simpl; [|done].
    apply IH.
    + apply Forall_app. split; [done|].
      destruct r as [h|]; simpl; [|constructor].
      repeat constructor. apply (Hat i); [left|done].
    + intros j h Hj. apply Hat. by right.
Qed.

Lemma changepoint_loop_total values window threshold positions acc :
  (∀ i, i ∈ positions → 0 <= i < len values) →
  ∃ hs, changepoint_loop values window threshold positions acc = Ok hs.
Proof.
  revert acc. induction positions as [|i rest IH]; intros acc Hpos; simpl.
  - by eexists.
  - destruct (changepoint_at_total values window threshold i) as [r ->];
      [apply Hpos; left|].
    simpl. apply IH. intros j Hj. apply Hpos. by right.
Qed.

(** C7: a sequence shorter than [2 * window + 1] yields the empty list;
    every record that [detect_changepoint] returns has an index [i] with
    [window <= i < n - window]; and with a window that is not negative the
    detector does return. *)
Theorem detect_changepoint_range (values : list float) (window : Z)
  (threshold : float) :
  (len values < window * 2 + 1 →
     detect_changepoint values window threshold = Ok [])
  ∧ (0 <= window →
       ∃ hs, detect_changepoint values window threshold = Ok hs)
  ∧ (∀ hs, detect_changepoint values window threshold = Ok hs →
       Forall (fun h => window <= index h < len values - window) hs).
Proof.
  unfold detect_changepoint. split; [|split].
  - intros Hlt. by destruct (Z.ltb_spec (len values) (window * 2 + 1)); [|lia].
  - intros Hw. destruct (_ <? _); [by eexists|].
    apply changepoint_loop_total. intros i Hi%elem_of_py_range. lia.
  - intros hs. destruct (_ <? _); [by intros [= <-]|].
    apply changepoint_loop_Forall; [constructor|].
    intros i h Hi%elem_of_py_range [-> _]%changepoint_at_Some. lia.
Qed.

(** A shift between positions 4 and 5 of eleven values, window 2: the two
    records lie in [2, 9).  A negative window ends in an [IndexError]. *)
Example detect_changepoint_shift_sample :
  index <$> default [] (match detect_changepoint shift_sample 2 2 with
                        | Ok hs => Some hs
                        | Raise _ => None
                        end) = [4; 5]
  ∧ detect_changepoint shift_sample (-1) 2 = Raise IndexError.
Proof. split; vm_compute; reflexivity. Qed.

(** C9: [detect_changepoint] never returns a record at a position whose
    own value is missing: the value of every record is the entry at its
    index, and is not [nan].  On [gap_sample] position 3 is skipped,
    although its two windows hold three values each and their shift
    exceeds the threshold, as the same windows around a value show. *)
Theorem detect_changepoint_skips_missing (values : list float) (window : Z)
  (threshold : float) :
  (∀ hs, detect_changepoint values window threshold = Ok hs →
     Forall (fun h => py_index values (index h) = Ok (value h)
                      ∧ np.isnan (value h) = false) hs)
  ∧ detect_changepoint gap_sample 3 2 = Ok []
  ∧ ∃ h, detect_changepoint no_gap_sample 3 2 = Ok [h] ∧ index h = 3.
Proof.
  split; [|split].
  - unfold detect_changepoint. intros hs.
    destruct (_ <? _); [by intros [= <-]|].
    apply changepoint_loop_Forall; [constructor|].
    intros i h _ (-> & Hv & Hnan)%changepoint_at_Some. done.
  - vm_compute. reflexivity.
  - eexists. split; [vm_compute; reflexivity|]. reflexivity.
Qed.

(** ** The reduction pipeline: frames *)

Lemma has_column_elem (c : string) (df : DataFrame) :
  pd.has_column c df = true ↔ c ∈ pd.columns df.
Proof.
  unfold pd.has_column. rewrite existsb_exists. split.
  - intros (n & Hin & ->%String.eqb_eq). by apply list_elem_of_In.
  - intros Hin. exists c. split; [by apply list_elem_of_In|].
    apply String.eqb_refl.
Qed.

Lemma get_is_Some (c : string) (df : DataFrame) :
  c ∈ pd.columns df ↔ is_Some (pd.get df c).
Proof.
  unfold pd.columns. induction df as [|[name col] df IH]; simpl.
  - split; [by intros ?%elem_of_nil | by intros [? ?]].
  - destruct (String.eqb_spec name c) as [-> | Hne].
    + split; [by eexists | left].
    + rewrite elem_of_cons, IH. split; [|by right].
      intros [? | ?]; [congruence | done].
Qed.

Lemma get_map (f : string → column → column) (df : DataFrame) c :
  pd.get (map (fun '(name, col) => (name, f name col)) df) c
  = f c <$> pd.get df c.
Proof.
  induction df as [|[name col] df IH]; simpl; [done|].
  by destruct (String.eqb_spec name c) as [-> | Hne].
Qed.

Lemma columns_map (f : string → column → column) (df : DataFrame) :
  pd.columns (map (fun '(name, col) => (name, f name col)) df)
  = pd.columns df.
Proof.
  unfold pd.columns. induction df as [|[name col] df IH]; simpl; [done|].
  by f_equal.
Qed.

(** ** The stages whose parameters are absent *)

(** C4, as stated, fails for the sort stage: with no keyword argument at
    all, the rows of [two_rows] come back ordered by the primary value
    column [v], largest first. *)
Lemma sort_stage_not_identity :
  stage_sort no_kwargs (Some "v"%string) two_rows
  = Done [("name"%string, ObjCol [SStr "b"; SStr "a"]);
          ("v"%string, IntCol [2; 1])]
  ∧ ¬ sort_is_identity_when_absent no_kwargs (Some "v"%string) two_rows.
Proof.
  split; [vm_compute; reflexivity|].
  intros H. specialize (H eq_refl eq_refl). vm_compute in H. discriminate.
Qed.

(** C4 (amended): the aggregate, rank-limit and category-collapse stages
    return their input when their parameters are not supplied.  The sort
    stage returns its input when its sort column, which is the supplied one
    or else the primary value column, is not a column of the table; with no
    sort parameter and the primary value column present it sorts by that
    column, in descending order. *)
Theorem absent_stage_identity (kw : kwargs) (y_primary : option string)
  (df : DataFrame) :
  (groupby kw = None ∨ agg kw = None →
     stage_aggregate kw y_primary df = Done df)
  ∧ (top kw = None ∧ bottom kw = None →
       stage_rank_limit kw y_primary df = Done df)
  ∧ (max_categories kw = None → stage_collapse kw df = Done df)
  ∧ (in_columns (sort_col_of kw y_primary) df = false →
       stage_sort kw y_primary df = Done df)
  ∧ (∀ y, sort_by kw = None → sort_order kw = None →
       y_primary = Some y → y ≠ EmptyString → y ∈ pd.columns df →
       stage_sort kw y_primary df = pd.sort_values y false df).
Proof.
  repeat split.
  - unfold stage_aggregate. intros [-> | ->]; simpl; [done|].
    by rewrite andb_false_r.
  - unfold stage_rank_limit. by intros [-> ->].
  - unfold stage_collapse. by intros ->.
  - unfold stage_sort. intros ->. by rewrite andb_false_r.
  - intros y Hby Hord -> Hy Hin. unfold stage_sort, sort_col_of.
    rewrite Hby, Hord. simpl.
    apply has_column_elem in Hin. rewrite Hin.
    by destruct (String.eqb_spec y EmptyString).
Qed.

(** ** The aggregate stage and the group key *)

Lemma aggregate_columns_columns (func : pd.agg_fn) (df : DataFrame)
  (groups : list (list nat)) (cols : list string) (out : DataFrame) :
  pd.aggregate_columns func df groups cols = Done out →
  pd.columns out = cols.
Proof.
  revert out. induction cols as [|c cols IH]; simpl; intros out H.
  - by inversion H.
  - destruct (pd.get df c) as [col|]; [|done].
    destruct (pd.aggregate func col groups) as [a| |]; simpl in H; try done.
    destruct (pd.aggregate_columns func df groups cols) as [r| |];
      simpl in H; try done.
    inversion H; subst. unfold pd.columns in *. simpl. f_equal. by apply IH.
Qed.

Lemma groupby_agg_columns (by_ : string) (cols : list string)
  (func : pd.agg_fn) (df out : DataFrame) :
  pd.groupby_agg by_ cols func df = Done out →
  pd.columns out = by_ :: cols ∧ by_ ∉ cols.
Proof.
  unfold pd.groupby_agg. intros H.
  destruct (pd.get df by_) as [key|]; [|done].
  destruct (negb (pd.orderable key) || (length cols =? 0)%nat
            || existsb (String.eqb by_) cols) eqn:Hguard; [done|].
  apply orb_false_iff in Hguard as [_ Hex].
  destruct (pd.aggregate_columns func df _ cols) as [r| |] eqn:Hagg;
    simpl in H; try done.
  inversion H; subst. apply aggregate_columns_columns in Hagg.
  split.
  - unfold pd.columns in *. simpl. by f_equal.
  - intros Hin. apply not_true_iff_false in Hex. apply Hex.
    apply existsb_exists. exists by_. split; [by apply list_elem_of_In|].
    apply String.eqb_refl.
Qed.

Lemma rename_columns (old new : string) (df : DataFrame) :
  pd.columns (pd.rename old new df)
  = map (fun n => if String.eqb n old then new else n) (pd.columns df).
Proof.
  unfold pd.columns, pd.rename.
  induction df as [|[name col] df IH]; simpl; [done|]. by f_equal.
Qed.

Lemma rename_absent (old new : string) (names : list string) :
  old ∉ names →
  map (fun n => if String.eqb n old then new else n) names = names.
Proof.
  induction names as [|n names IH]; simpl; intros Hn; [done|].
  apply not_elem_of_cons in Hn as [Hne Hn].
  destruct (String.eqb_spec n old) as [-> | _]; [done|].
  f_equal. by apply IH.
Qed.

(** C8, as stated, fails: with x-column [year], which the aggregated table
    keeps as a summed column, the group key stays under its name
    [region]. *)
Lemma group_key_not_renamed :
  stage_aggregate (sum_by_region "year") (Some "sales"%string)
                  sales_by_region
  = Done [("region"%string, ObjCol [SStr "north"; SStr "south"]);
          ("year"%string, IntCol [4; 2]);
          ("sales"%string, FloatCol [5; 2]%float)]
  ∧ ¬ group_key_renamed (sum_by_region "year") (Some "sales"%string)
        sales_by_region.
Proof.
  split; [vm_compute; reflexivity|].
  intros H.
  specialize (H "region"%string "sum"%string "year"%string _
                eq_refl eq_refl eq_refl ltac:(discriminate) eq_refl).
  vm_compute in H. discriminate.
Qed.

(** C8 (amended): with a group-by column of the table, an aggregation
    function and an x-column name supplied, the aggregated table has the
    group key as its first column, followed by the aggregated columns.  The
    stage renames the group key to the x-column name exactly when no column
    of the aggregated table has that name already; otherwise it returns the
    aggregated table as it is, the group key under its own name. *)
Theorem aggregate_renames_group_key (kw : kwargs)
  (y_primary : option string) (df agg_df : DataFrame) (g a x : string) :
  groupby kw = Some g → agg kw = Some a → x_col kw = Some x →
  g ≠ EmptyString → a ≠ EmptyString → x ≠ EmptyString →
  g ∈ pd.columns df →
  pd.groupby_agg g (agg_cols_of g y_primary df) (agg_map a) df
  = Done agg_df →
  pd.columns agg_df = g :: agg_cols_of g y_primary df
  ∧ (x ∉ pd.columns agg_df →
       stage_aggregate kw y_primary df = Done (pd.rename g x agg_df)
       ∧ pd.columns (pd.rename g x agg_df)
         = x :: agg_cols_of g y_primary df)
  ∧ (x ∈ pd.columns agg_df →
       stage_aggregate kw y_primary df = Done agg_df).
Proof.
  intros Hg Ha Hx Hg0 Ha0 Hx0 Hin Hagg.
  destruct (groupby_agg_columns _ _ _ _ _ Hagg) as [Hcols Hfresh].
  assert (Hstage : stage_aggregate kw y_primary df
            = if negb (pd.has_column x agg_df) && pd.has_column g agg_df
              then Done (pd.rename g x agg_df) else Done agg_df).
  { unfold stage_aggregate. rewrite Hg, Ha, Hx. simpl.
    apply has_column_elem in Hin. rewrite Hin.
    destruct (String.eqb_spec g EmptyString); [done|].
    destruct (String.eqb_spec a EmptyString); [done|].
    destruct (String.eqb_spec x EmptyString); [done|].
    simpl. by rewrite Hagg. }
  assert (Hkey : pd.has_column g agg_df = true).
  { apply has_column_elem. rewrite Hcols. left. }
  split; [done|]. split.
  - intros Hnot. split.
    + rewrite Hstage, Hkey.
      destruct (pd.has_column x agg_df) eqn:Hhas; [|done].
      by apply has_column_elem in Hhas.
    + rewrite rename_columns, Hcols. simpl. rewrite String.eqb_refl.
      f_equal. by apply rename_absent.
  - intros Hhas. rewrite Hstage.
    apply has_column_elem in Hhas. by rewrite Hhas.
Qed.

Lemma aggregate_renames_group_key_witness :
  stage_aggregate (sum_by_region "area") (Some "sales"%string)
                  sales_by_region
  = Done (pd.rename "region" "area" sum_by_region_table)
  ∧ pd.columns (pd.rename "region" "area" sum_by_region_table)
    = "area"%string :: agg_cols_of "region" (Some "sales"%string)
                                   sales_by_region.
Proof.
  pose proof (aggregate_renames_group_key (sum_by_region "area")
    (Some "sales"%string) sales_by_region sum_by_region_table
    "region"%string "sum"%string "area"%string
    eq_refl eq_refl eq_refl
    ltac:(discriminate) ltac:(discriminate) ltac:(discriminate)
    ltac:(left) ltac:(vm_compute; reflexivity)) as (_ & H & _).
  apply H. unfold pd.columns, sum_by_region_table. simpl.
  rewrite !elem_of_cons, elem_of_nil.
  intros [?|[?|[?|[]]]]; discriminate.
Defined.

(** ** The category collapse *)

Lemma dict_get_set (d : list (string * scalar)) (k c : string) (v : scalar) :
  dict_get (dict_set d k v) c
  = if String.eqb k c then Some v else dict_get d c.
Proof.
  induction d as [|[k' v'] d IH]; simpl; [done|].
  destruct (String.eqb_spec k' k) as [-> | Hne]; simpl.
  - by destruct (String.eqb_spec k c).
  - rewrite IH. destruct (String.eqb_spec k' c) as [-> | ?]; [|done].
    by destruct (String.eqb_spec k c).
Qed.

Lemma dict_get_elem (d : list (string * scalar)) (k : string) (v : scalar) :
  (k, v) ∈ d → is_Some (dict_get d k).
Proof.
  induction d as [|[k' v'] d IH]; simpl; [by intros ?%elem_of_nil|].
  intros [Heq | Hin]%elem_of_cons.
  - inversion Heq; subst. rewrite String.eqb_refl. by eexists.
  - destruct (String.eqb k' k); [by eexists | by apply IH].
Qed.

Lemma get_of_row (d : list (string * scalar)) (c : string) :
  pd.get (pd.of_row d) c = pd.column_of_scalar <$> dict_get d c.
Proof.
  induction d as [|[k v] d IH]; simpl; [done|].
  by destruct (String.eqb k c).
Qed.

Lemma filter_none {A : Type} (P : A → bool) (l : list A) :
  (∀ a, a ∈ l → P a = false) → List.filter P l = [].
Proof.
  induction l as [|a l IH]; simpl; intros H; [done|].
  rewrite (H a) by left. apply IH. intros b Hb. apply H. by right.
Qed.

Lemma other_row_fold (x : string) (k : nat) (df : DataFrame)
  (cols : list string) (d : list (string * scalar)) :
  (∀ c, c ∈ cols → is_Some (pd.get df c)) →
  fold_left (other_row_step x df (pd.iloc_from k df)) cols (Done d)
  = Done (other_row_of x k df cols d).
Proof.
  revert d. induction cols as [|c cols IH]; intros d Hall; [done|].
  assert (Hstep : other_row_step x df (pd.iloc_from k df) (Done d) c
            = Done (if String.eqb c x then d
                    else dict_set d c (other_cell x k df c))).
  { unfold other_row_step, other_cell. simpl.
    destruct (String.eqb_spec c x) as [-> | Hne]; [done|].
    destruct (Hall c) as [col Hcol]; [left|].
    unfold pd.iloc_from, pd.map_rows.
    rewrite (get_map (fun _ => pd.col_map_rows (fun _ => skipn k))), Hcol.
    simpl. unfold other_value.
    destruct (String.eqb_spec c x); [done|]. by destruct col. }
  change (fold_left (other_row_step x df (pd.iloc_from k df)) cols
            (other_row_step x df (pd.iloc_from k df) (Done d) c)
          = Done (other_row_of x k df cols
                    (if String.eqb c x then d
                     else dict_set d c (other_cell x k df c)))).
  rewrite Hstep. apply IH. intros c' Hc'. apply Hall. by right.
Qed.

Lemma other_row_get (x : string) (k : nat) (df : DataFrame)
  (cols : list string) (d : list (string * scalar)) (c : string) :
  dict_get (other_row_of x k df cols d) c
  = if decide (c ∈ cols ∧ c ≠ x) then Some (other_cell x k df c)
    else dict_get d c.
Proof.
  revert d. induction cols as [|c0 cols IH]; intros d.
  - simpl. destruct (decide (c ∈ [] ∧ c ≠ x)) as [[H _]|]; [|done].
    by apply elem_of_nil in H.
  - change (other_row_of x k df (c0 :: cols) d)
      with (other_row_of x k df cols
              (if String.eqb c0 x then d
               else dict_set d c0 (other_cell x k df c0))).
    rewrite IH. destruct (String.eqb_spec c0 x) as [-> | Hne].
    + repeat case_decide; try done; exfalso; rewrite ?elem_of_cons in *; intuition congruence.
    + rewrite dict_get_set.
      destruct (String.eqb_spec c0 c) as [-> | Hc];
        repeat case_decide; try done; exfalso; rewrite ?elem_of_cons in *; intuition congruence.
Qed.

Lemma other_cell_x (x : string) (k : nat) (df : DataFrame) :
  other_cell x k df x = SStr "Other".
Proof.
  unfold other_cell, other_value. rewrite String.eqb_refl.
  by destruct (pd.get df x).
Qed.

Lemma other_row_complete (x : string) (k : nat) (df : DataFrame)
  (c : string) :
  x ∈ pd.columns df →
  dict_get (other_row_of x k df (pd.columns df) [(x, SStr "Other")]) c
  = if decide (c ∈ pd.columns df) then Some (other_cell x k df c) else None.
Proof.
  intros Hx. rewrite other_row_get. simpl.
  destruct (String.eqb_spec x c) as [<- | Hne].
  - rewrite other_cell_x. repeat case_decide; try done; exfalso; rewrite ?elem_of_cons in *; intuition congruence.
  - repeat case_decide; try done; exfalso; rewrite ?elem_of_cons in *; intuition congruence.
Qed.

Lemma col_len_values (col : column) :
  pd.col_len col = length (pd.values col).
Proof. destruct col; simpl; by rewrite ?length_map. Qed.

Lemma concat_other_values (x c : string) (k : nat) (col : column) :
  pd.values
    (pd.concat_columns (pd.col_map_rows (fun _ => firstn k) col)
       (pd.column_of_scalar
          (other_value x c (pd.col_map_rows (fun _ => skipn k) col))))
  = firstn k (pd.values col)
    ++ [other_value x c (pd.col_map_rows (fun _ => skipn k) col)].
Proof.
  unfold other_value.
  destruct (String.eqb c x), col; simpl;
    by rewrite ?map_app, ?firstn_map.
Qed.

Lemma collapse_concat (x : string) (k : nat) (df : DataFrame) :
  x ∈ pd.columns df →
  pd.concat (pd.head k df)
    (pd.of_row (other_row_of x k df (pd.columns df) [(x, SStr "Other")]))
  = map (fun '(name, col) =>
           (name, pd.concat_columns col
                    (pd.column_of_scalar (other_cell x k df name))))
        (pd.head k df).
Proof.
  intros Hx. unfold pd.concat.
  set (d := other_row_of x k df (pd.columns df) [(x, SStr "Other")]).
  assert (Hcols : pd.columns (pd.head k df) = pd.columns df)
    by apply (columns_map (fun _ => pd.col_map_rows (fun _ => firstn k))).
  rewrite filter_none, app_nil_r.
  - assert (Hsub : ∀ c, c ∈ pd.columns (pd.head k df) → c ∈ pd.columns df)
      by (by rewrite Hcols).
    revert Hsub. generalize (pd.nrows (pd.of_row d)) as n.
    generalize (pd.head k df) as fr.
    induction fr as [|[name col] fr IH]; intros n Hsub; simpl; [done|].
    f_equal.
    + f_equal. f_equal. rewrite get_of_row. subst d.
      rewrite other_row_complete by done.
      destruct (decide (name ∈ pd.columns df)) as [Hin | Hout]; [done|].
      destruct Hout. apply Hsub. left.
    + apply IH. intros c Hc. apply Hsub. by right.
  - intros [name col] Hin. apply negb_false_iff, has_column_elem.
    rewrite Hcols. unfold pd.of_row in Hin.
    apply list_elem_of_fmap in Hin as ([k' v] & Heq & Hin).
    inversion Heq; subst. apply dict_get_elem in Hin.
    subst d. rewrite other_row_complete in Hin by done.
    destruct (decide (k' ∈ pd.columns df)) as [H|H]; [done|].
    by destruct Hin.
Qed.

(** C2, as stated, fails when the x column is numeric: with x column
    [year] and two categories kept, the synthesized row holds the string
    under [year], not the sum 3 of the row left out. *)
Lemma other_row_of_numeric_x :
  stage_collapse (collapse_to "year" 2) sales_by_region
  = Done [("region"%string,
           ObjCol [SStr "north"; SStr "south"; SStr "Other"]);
          ("year"%string, ObjCol [SInt 1; SInt 2; SStr "Other"]);
          ("sales"%string, FloatCol [1; 2; 4]%float)]
  ∧ ¬ other_row_sums (collapse_to "year" 2) sales_by_region.
Proof.
  split; [vm_compute; reflexivity|].
  intros H.
  destruct (H "year"%string 2 _ "year"%string (IntCol [1; 2; 3]) (SInt 3)
              eq_refl eq_refl ltac:(vm_compute; split; reflexivity) eq_refl
              eq_refl eq_refl eq_refl) as (col' & Hget & Hlast).
  vm_compute in Hget. inversion Hget; subst. vm_compute in Hlast.
  discriminate.
Qed.

(** C2 (amended): when the x column is a column of the table and the table
    has more than [k > 0] rows, the collapse keeps the column labels and
    returns [k + 1] rows: under every column the first [k] cells of the
    input, then one cell which is the string ['Other'] under the x column
    whatever its type, the sum of the cells left out under any other
    numeric column (an [int64] sum wraps, a [float64] sum skips the missing
    entries), and the string ['Other'] under any other column. *)
Theorem stage_collapse_spec (kw : kwargs) (df : DataFrame) (x : string)
  (k : Z) :
  x_col kw = Some x → max_categories kw = Some k →
  x ≠ EmptyString → x ∈ pd.columns df →
  0 < k < Z.of_nat (pd.nrows df) →
  ∃ out,
    stage_collapse kw df = Done out
    ∧ pd.columns out = pd.columns df
    ∧ pd.nrows out = S (Z.to_nat k)
    ∧ ∀ c col, pd.get df c = Some col →
        ∃ col', pd.get out c = Some col'
          ∧ pd.values col'
            = firstn (Z.to_nat k) (pd.values col)
              ++ [other_value x c
                    (pd.col_map_rows (fun _ => skipn (Z.to_nat k)) col)].
Proof.
  intros Hx Hk Hx0 Hin [Hk0 Hkn].
  set (f := fun name col =>
         pd.concat_columns col
           (pd.column_of_scalar (other_cell x (Z.to_nat k) df name))).
  set (g := fun _ : string => pd.col_map_rows (fun _ => firstn (Z.to_nat k))).
  exists (map (fun '(name, col) => (name, f name col))
              (map (fun '(name, col) => (name, g name col)) df)).
  assert (Hget : ∀ c col, pd.get df c = Some col →
    ∃ col', pd.get (map (fun '(name, col) => (name, f name col))
                     (map (fun '(name, col) => (name, g name col)) df)) c
            = Some col'
      ∧ pd.values col'
        = firstn (Z.to_nat k) (pd.values col)
          ++ [other_value x c
                (pd.col_map_rows (fun _ => skipn (Z.to_nat k)) col)]).
  { intros c col Hc. rewrite !get_map, Hc. simpl. eexists. split; [done|].
    unfold f, g, other_cell. rewrite Hc. apply concat_other_values. }
  repeat split.
  - unfold stage_collapse. rewrite Hx, Hk. simpl.
    apply has_column_elem in Hin as Hhas. rewrite Hhas.
    destruct (Z.eqb_spec k 0) as [? | _]; [lia|].
    destruct (Z.ltb_spec 0 k) as [_ | ?]; [|lia].
    destruct (String.eqb_spec x EmptyString) as [? | _]; [done|].
    destruct (Z.ltb_spec k (Z.of_nat (pd.nrows df))) as [_ | ?]; [|lia].
    simpl. rewrite other_row_fold by (intros c Hc; by apply get_is_Some).
    simpl. f_equal. by apply collapse_concat.
  - by rewrite !columns_map.
  - destruct df as [|[name col] df]; [by apply elem_of_nil in Hin|].
    destruct (Hget name col) as (col' & Hc & Hv);
      [simpl; by rewrite String.eqb_refl|].
    simpl in Hc. rewrite String.eqb_refl in Hc. inversion Hc as [Hcol].
    simpl. rewrite Hcol, col_len_values, Hv.
    simpl in Hkn. rewrite col_len_values in Hkn.
    rewrite length_app, length_firstn. simpl. lia.
  - done.
Qed.

Lemma stage_collapse_spec_witness :
  ∃ out,
    stage_collapse (collapse_to "region" 2) sales_by_region = Done out
    ∧ pd.columns out = pd.columns sales_by_region
    ∧ pd.nrows out = 3%nat
    ∧ ∀ c col, pd.get sales_by_region c = Some col →
        ∃ col', pd.get out c = Some col'
          ∧ pd.values col'
            = firstn 2 (pd.values col)
              ++ [other_value "region" c
                    (pd.col_map_rows (fun _ => skipn 2) col)].
Proof.
  apply (stage_collapse_spec (collapse_to "region" 2) sales_by_region
           "region"%string 2 eq_refl eq_refl).
  - discriminate.
  - left.
  - vm_compute. split; reflexivity.
Defined.

Lemma stage_collapse_sample :
  stage_collapse (collapse_to "region" 2) sales_by_region
  = Done [("region"%string,
           ObjCol [SStr "north"; SStr "south"; SStr "Other"]);
          ("year"%string, IntCol [1; 2; 3]);
          ("sales"%string, FloatCol [1; 2; 4]%float)].
Proof. vm_compute. reflexivity. Qed.

(** ** Scenario 4: five categories, three kept *)

Lemma nargsort_descending (vA vB vC vD vE : Z) :
  vA > vB → vB > vC → vC > vD → vD > vE →
  pd.nargsort (pd.values (IntCol [vA; vB; vC; vD; vE])) false
  = [0; 1; 2; 3; 4]%nat.
Proof.
  intros HA HB HC HD. unfold pd.nargsort, stable_sort. simpl.
  repeat match goal with
         | |- context [?a <? ?b] =>
             destruct (Z.ltb_spec a b); [lia|]; simpl
         end.
  reflexivity.
Qed.

Lemma outcome_bind_Done {A B : Type} (a : A) (k : A → outcome B) :
  (Done a ≫= k) = k a.
Proof. reflexivity. Qed.

(** C3, as stated, fails: with values 50, 40, 30, 20, 10 the pipeline
    keeps three categories and adds the row ['Other'], four rows in all,
    and ['Other'] holds 30, the sum of the rows of D and E, not the three
    rows A, B, ['Other'] with 60. *)
Lemma scenario_4_keeps_three :
  reduce_data (categories 50 40 30 20 10) (YStr "value") keep_three
  = Done
      [("category"%string,
        ObjCol [SStr "A"; SStr "B"; SStr "C"; SStr "Other"]);
       ("value"%string, IntCol [50; 40; 30; 30])]
  ∧ reduce_data (categories 50 40 30 20 10) (YStr "value") keep_three
    ≠ Done
        [("category"%string, ObjCol [SStr "A"; SStr "B"; SStr "Other"]);
         ("value"%string, IntCol [50; 40; 60])].
Proof. split; [vm_compute; reflexivity | vm_compute; discriminate]. Qed.

(** C3 (amended): for the five categories A to E, one row each, with
    integer values in strictly decreasing order, the pipeline with
    [max_categories=3], the category column as x and the value column as y
    returns the four rows A, B, C and ['Other'], where ['Other'] holds the
    sum of the values of D and E. *)
Theorem reduce_data_scenario_4 (vA vB vC vD vE : Z) :
  vA > vB → vB > vC → vC > vD → vD > vE →
  reduce_data (categories vA vB vC vD vE) (YStr "value") keep_three
  = Done
      [("category"%string,
        ObjCol [SStr "A"; SStr "B"; SStr "C"; SStr "Other"]);
       ("value"%string, IntCol [vA; vB; vC; wrap64 (vD + vE)])].
Proof.
  intros HA HB HC HD.
  set (df := categories vA vB vC vD vE).
  assert (H1 : stage_aggregate keep_three (Some "value"%string) df = Done df)
    by reflexivity.
  assert (H2 : stage_sort keep_three (Some "value"%string) df = Done df).
  { transitivity (pd.sort_values "value" false df); [reflexivity|].
    unfold pd.sort_values.
    change (pd.get df "value") with (Some (IntCol [vA; vB; vC; vD; vE])).
    cbv beta iota.
    change (pd.orderable (IntCol [vA; vB; vC; vD; vE])) with true.
    cbv beta iota.
    rewrite nargsort_descending by done. reflexivity. }
  assert (H3 : stage_rank_limit keep_three (Some "value"%string) df = Done df)
    by reflexivity.
  unfold reduce_data.
  change (y_primary_of (YStr "value")) with (Done (Some "value"%string)).
  rewrite outcome_bind_Done, H1, outcome_bind_Done, H2, outcome_bind_Done, H3,
    outcome_bind_Done.
  lazy -[wrap64 Z.add]. reflexivity.
Qed.

Lemma reduce_data_scenario_4_witness :
  reduce_data (categories 50 40 30 20 10) (YStr "value") keep_three
  = Done
      [("category"%string,
        ObjCol [SStr "A"; SStr "B"; SStr "C"; SStr "Other"]);
       ("value"%string, IntCol [50; 40; 30; wrap64 (20 + 10)])].
Proof. apply (reduce_data_scenario_4 50 40 30 20 10); lia. Defined.

(** In another order of the values the rows come out sorted: the three
    largest values are kept, whatever their categories. *)
Lemma reduce_data_scenario_4_unsorted :
  reduce_data (categories 10 50 20 40 30) (YStr "value") keep_three
  = Done
      [("category"%string,
        ObjCol [SStr "B"; SStr "D"; SStr "E"; SStr "Other"]);
       ("value"%string, IntCol [50; 40; 30; 30])].
Proof. vm_compute. reflexivity. Qed.

(** * Further properties of the program *)

(** ** Loops over [enumerate(values)] *)

Lemma omap_enumerate_from (f : Z → float → option Highlight) (s : Z)
  (xs : list float) :
  (∀ i v h, f i v = Some h → index h = i) →
  Forall (fun h => ∃ n v, index h = s + Z.of_nat n ∧ xs !! n = Some v
                          ∧ f (index h) v = Some h)
         (omap (fun '(i, v) => f i v) (enumerate_from s xs))
  ∧ StronglySorted index_lt
      (omap (fun '(i, v) => f i v) (enumerate_from s xs)).
Proof.
  intros Hf. revert s. induction xs as [|x xs IH]; intros s; simpl.
  - split; constructor.
  - destruct (IH (s + 1)) as [Hall Hsorted].
    assert (Forall (fun h => ∃ n v, index h = s + Z.of_nat n
                       ∧ (x :: xs) !! n = Some v ∧ f (index h) v = Some h)
              (omap (fun '(i, v) => f i v) (enumerate_from (s + 1) xs)))
      as Hall'.
    { eapply Forall_impl; [exact Hall|].
      intros h (n & v & Hi & Hv & Hh). exists (S n), v.
      split; [lia|done]. }
    destruct (f s x) as [h|] eqn:E; [|done].
    pose proof (Hf _ _ _ E) as Hidx. split.
    + constructor; [|done]. exists 0%nat, x.
      split; [lia|]. split; [done|]. by rewrite Hidx.
    + constructor; [done|]. eapply Forall_impl; [exact Hall|].
      intros k (n & _ & Hk & _). unfold index_lt. lia.
Qed.

Lemma omap_enumerate_from_complete (f : Z → float → option Highlight)
  (s : Z) (xs : list float) (n : nat) (v : float) (h : Highlight) :
  xs !! n = Some v → f (s + Z.of_nat n) v = Some h →
  h ∈ omap (fun '(i, v) => f i v) (enumerate_from s xs).
Proof.
  revert s n. induction xs as [|x xs IH]; intros s n Hv Hh; [done|].
  simpl. destruct n as [|n]; simpl in Hv.
  - inversion Hv; subst. replace (s + Z.of_nat 0) with s in Hh by lia.
    rewrite Hh. left.
  - assert (h ∈ omap (fun '(i, v) => f i v) (enumerate_from (s + 1) xs))
      as Hin.
    { apply (IH _ n); [done|].
      by replace (s + 1 + Z.of_nat n) with (s + Z.of_nat (S n)) by lia. }
    destruct (f s x); [by right | done].
Qed.

Lemma points_at_lookup (values : list float) (h : Highlight) n v :
  index h = Z.of_nat n → values !! n = Some v → value h = v →
  np.isnan v = false → points_at values h.
Proof.
  intros Hi Hv <- Hnan. unfold points_at, len. rewrite Hi, Nat2Z.id.
  apply lookup_lt_Some in Hv as Hlt. repeat split; try done; lia.
Qed.

(** ** The z-score detector *)

Lemma zscore_at_Some mean std threshold i v h :
  zscore_at mean std threshold i v = Some h →
  index h = i ∧ value h = v ∧ np.isnan v = false
  ∧ method h = "zscore"%string
  ∧ (threshold <? PrimFloat.abs ((v - mean) / std))%float = true
  ∧ (severity h = "high"%string ∧ suggested_style h = "halo_ring"%string
     ∨ severity h = "medium"%string
       ∧ suggested_style h = "color_shift"%string).
Proof.
  unfold zscore_at. destruct (np.isnan v); [done|].
  destruct (threshold <? _)%float; [|done].
  intros [= <-]. simpl. repeat split; try done.
  destruct (_ <? _)%float; [by left | by right].
Qed.

Lemma zscore_at_record mean std threshold i v h :
  zscore_at mean std threshold i v = Some h →
  zscore_record threshold (z_of mean std v) h.
Proof.
  unfold zscore_at, zscore_record, z_of. destruct (np.isnan v); [done|].
  destruct (threshold <? _)%float; [|done].
  intros [= <-]. simpl.
  destruct (threshold + 1 <? _)%float; destruct (0 <? _)%float; done.
Qed.

(** X1: [detect_zscore], whatever [np.nanmean] and [np.nanstd] return for
    the sequence.  Every record points at an entry that is not missing and
    whose z-score against that mean and spread exceeds the threshold in
    absolute value; it carries the method name "zscore", the z-score, the
    reason "above mean" for a positive z-score and "below mean" otherwise,
    and the severity "high" with the style "halo_ring" when the z-score
    exceeds the threshold by more than 1, "medium" with "color_shift"
    otherwise.  The records come in strictly increasing order of index.  A
    spread of zero gives no record, and with any other spread every such
    entry has its record. *)
Theorem detect_zscore_records (nanmean nanstd : list float → float)
  (values : list float) (threshold : float) :
  Forall (fun h =>
            points_at values h
            ∧ (threshold
               <? PrimFloat.abs
                    (z_of (nanmean values) (nanstd values) (value h)))%float
              = true
            ∧ zscore_record threshold
                (z_of (nanmean values) (nanstd values) (value h)) h)
         (detect_zscore_with nanmean nanstd values threshold)
  ∧ StronglySorted index_lt
      (detect_zscore_with nanmean nanstd values threshold)
  ∧ ((nanstd values =? 0)%float = true →
       detect_zscore_with nanmean nanstd values threshold = [])
  ∧ (∀ n v, values !! n = Some v → np.isnan v = false →
       (nanstd values =? 0)%float = false →
       (threshold
        <? PrimFloat.abs (z_of (nanmean values) (nanstd values) v))%float
       = true →
       ∃ h, h ∈ detect_zscore_with nanmean nanstd values threshold
            ∧ index h = Z.of_nat n ∧ value h = v).
Proof.
  unfold detect_zscore_with.
  set (mean := nanmean values). set (std := nanstd values).
  destruct (omap_enumerate_from (zscore_at mean std threshold) 0 values)
    as [Hall Hsorted].
  { intros i v h H. by apply zscore_at_Some in H as [? _]. }
  fold (enumerate values) in Hall, Hsorted.
  split; [|split; [|split]].
  - destruct (std =? 0)%float; [constructor|].
    eapply Forall_impl; [exact Hall|].
    intros h (n & v & Hi & Hv & Hh).
    pose proof (zscore_at_record _ _ _ _ _ _ Hh) as Hrec.
    apply zscore_at_Some in Hh as (_ & Hval & Hnan & _ & Hz & _).
    split; [by apply (points_at_lookup values h n v)|].
    rewrite Hval. done.
  - destruct (std =? 0)%float; [constructor | done].
  - by intros ->.
  - intros n v Hv Hnan -> Hz.
    destruct (zscore_at mean std threshold (Z.of_nat n) v) as [h|] eqn:E.
    + exists h. pose proof E as (Hi & Hval & _)%zscore_at_Some.
      split; [|done].
      by apply (omap_enumerate_from_complete _ 0 values n v).
    + unfold zscore_at in E. rewrite Hnan in E.
      unfold z_of in Hz. by rewrite Hz in E.
Qed.

(** On the sequence of scenario 1, with the reductions of [np], the mean is
    28 and the spread 36: the one record at threshold 1.5 carries the
    z-score 2. *)
Example detect_zscore_sample :
  map (fun h => (index h, value h, z_score h, severity h))
      (detect_zscore scenario_1 1.5)
  = [(4, 100%float, Some (Round2 2), "medium"%string)].
Proof. vm_compute. reflexivity. Qed.

(** ** The IQR detector *)

Lemma iqr_at_Some iqr lower upper i v h :
  iqr_at iqr lower upper i v = Some h →
  index h = i ∧ value h = v ∧ np.isnan v = false
  ∧ method h = "iqr"%string
  ∧ ((v <? lower)%float = true ∨ (upper <? v)%float = true)
  ∧ (severity h = "high"%string ∨ severity h = "medium"%string)
  ∧ suggested_style h = "annotation_arrow"%string.
Proof.
  unfold iqr_at. destruct (np.isnan v); [done|].
  destruct (_ || _) eqn:Hout; [|done].
  intros [= <-]. simpl. repeat split; try done.
  - by apply orb_true_iff in Hout.
  - destruct (1 <? _)%float; [by left | by right].
Qed.

(** X2: a sequence with fewer than four entries that are not missing gets no
    IQR record.  Every record of [detect_iqr] points at an entry that is
    not missing and lies strictly outside the fences, carries the method
    name "iqr", severity "high" or "medium" and the arrow style; the records
    come in strictly increasing order of index; and when there are four
    values and the quartiles differ, every such entry has its record.  All
    of it holds whatever [np.percentile] returns. *)
Theorem detect_iqr_records (percentile : list float → float → float)
  (values : list float) (multiplier : float) :
  (len (np.drop_nan values) < 4 →
     detect_iqr percentile values multiplier = [])
  ∧ Forall (fun h =>
              points_at values h
              ∧ method h = "iqr"%string
              ∧ ((value h <? lower_fence percentile values multiplier)%float
                 = true
                 ∨ (upper_fence percentile values multiplier <? value h)%float
                   = true)
              ∧ (severity h = "high"%string ∨ severity h = "medium"%string)
              ∧ suggested_style h = "annotation_arrow"%string)
           (detect_iqr percentile values multiplier)
  ∧ StronglySorted index_lt (detect_iqr percentile values multiplier)
  ∧ (∀ n v, values !! n = Some v → np.isnan v = false →
       4 <= len (np.drop_nan values) →
       (iqr_of percentile values =? 0)%float = false →
       (v <? lower_fence percentile values multiplier)%float = true
       ∨ (upper_fence percentile values multiplier <? v)%float = true →
       ∃ h, h ∈ detect_iqr percentile values multiplier
            ∧ index h = Z.of_nat n ∧ value h = v).
Proof.
  unfold detect_iqr, lower_fence, upper_fence, iqr_of.
  set (clean := np.drop_nan values).
  set (iqr := (percentile clean 75 - percentile clean 25)%float).
  set (lower := (percentile clean 25 - multiplier * iqr)%float).
  set (upper := (percentile clean 75 + multiplier * iqr)%float).
  destruct (omap_enumerate_from (iqr_at iqr lower upper) 0 values)
    as [Hall Hsorted].
  { intros i v h H. by apply iqr_at_Some in H as [? _]. }
  fold (enumerate values) in Hall, Hsorted.
  split; [|split; [|split]].
  - intros Hlt. by destruct (Z.ltb_spec (len clean) 4); [|lia].
  - destruct (len clean <? 4); [constructor|].
    destruct (iqr =? 0)%float; [constructor|].
    eapply Forall_impl; [exact Hall|].
    intros h (n & v & Hi & Hv & Hh).
    apply iqr_at_Some in Hh as (_ & Hval & Hnan & Hm & Hout & Hsev & Hst).
    split; [by apply (points_at_lookup values h n v)|].
    rewrite Hval. done.
  - destruct (len clean <? 4); [constructor|].
    destruct (iqr =? 0)%float; [constructor | done].
  - intros n v Hv Hnan Hlen -> Hout.
    destruct (Z.ltb_spec (len clean) 4); [lia|].
    destruct (iqr_at iqr lower upper (Z.of_nat n) v) as [h|] eqn:E.
    + exists h. pose proof E as (Hi & Hval & _)%iqr_at_Some.
      split; [|done].
      by apply (omap_enumerate_from_complete _ 0 values n v).
    + unfold iqr_at in E. rewrite Hnan in E.
      assert ((v <? lower)%float || (upper <? v)%float = true) as Hor
        by (apply orb_true_iff; exact Hout).
      by rewrite Hor in E.
Qed.

(** ** The min/max detector on sequences with nothing to report *)

(** X3: [detect_minmax] returns the empty list exactly on the sequences
    whose entries are all missing, the empty sequence among them. *)
Theorem detect_minmax_empty_iff (values : list float) :
  detect_minmax values = []
  ↔ Forall (fun v => np.isnan v = true) values.
Proof.
  split.
  - intros Hnil. apply Forall_forall. intros v Hv.
    destruct (np.isnan v) eqn:Hnan; [done|].
    destruct (detect_minmax_records values) as (i & x & j & w & Hout & _).
    { by exists v. }
    congruence.
  - intros Hall. unfold detect_minmax.
    assert (np.drop_nan values = []) as ->; [|done].
    induction Hall as [|v l Hv _ IH]; [done|].
    unfold np.drop_nan in *. simpl. by rewrite Hv.
Qed.

(** ** The changepoint detector: its records and its exception *)

Lemma nth_error_lookup {A : Type} (xs : list A) (n : nat) :
  nth_error xs n = xs !! n.
Proof. revert n. induction xs; intros [|n]; simpl; auto. Qed.

Lemma py_index_Ok {A : Type} (xs : list A) (i : Z) (x : A) :
  0 <= i → py_index xs i = Ok x →
  i < len xs ∧ xs !! Z.to_nat i = Some x.
Proof.
  intros Hi. unfold py_index.
  destruct (Z.ltb_spec i 0); [lia|]. simpl.
  destruct (Z.ltb_spec i 0); [lia|].
  destruct (Z.leb_spec (len xs) i); simpl; [done|].
  rewrite nth_error_lookup.
  destruct (xs !! Z.to_nat i); [|done]. by intros [= ->].
Qed.

Lemma py_index_len {A : Type} (xs : list A) :
  py_index xs (len xs) = Raise IndexError.
Proof.
  unfold py_index. pose proof (Nat2Z.is_nonneg (length xs)) as Hn.
  fold (len xs) in Hn.
  destruct (Z.ltb_spec (len xs) 0); [lia|]. simpl.
  destruct (Z.ltb_spec (len xs) 0); [lia|].
  by destruct (Z.leb_spec (len xs) (len xs)); [|lia].
Qed.

Lemma py_range_sorted (a b : Z) : StronglySorted Z.lt (py_range a b).
Proof.
  unfold py_range. generalize (Z.to_nat (b - a)) as n. generalize 0%nat as s.
  intros s n. revert s. induction n as [|n IH]; intros s; simpl.
  - constructor.
  - constructor; [apply IH|]. apply Forall_forall. intros x Hx.
    apply list_elem_of_fmap in Hx as (k & -> & Hk).
    apply elem_of_seq in Hk. lia.
Qed.

Lemma changepoint_at_record values window threshold i h :
  changepoint_at values window threshold i = Ok (Some h) →
  method h = "changepoint"%string
  ∧ (severity h = "high"%string ∨ severity h = "medium"%string)
  ∧ suggested_style h = "band_shade"%string
  ∧ is_Some (shift_magnitude h).
Proof.
  unfold changepoint_at.
  destruct (py_index values i) as [vi|e]; simpl; [|done].
  destruct (np.isnan vi) eqn:Hnan; [done|].
  repeat match goal with
         | |- (if ?c then _ else _) = _ → _ => destruct c; [done|]
         end.
  destruct (_ <? _)%float; [|done].
  intros [= <-]. simpl. split; [done|].
  split; [|split; [done | by eexists]].
  destruct (_ <? _)%float; [by left | by right].
Qed.

Lemma changepoint_at_exn values window threshold i e :
  changepoint_at values window threshold i = Raise e → e = IndexError.
Proof.
  unfold changepoint_at.
  destruct (py_index values i) as [vi|e'] eqn:E; simpl.
  - destruct (np.isnan vi); [done|].
    repeat match goal with
           | |- (if ?c then _ else _) = _ → _ => destruct c; [done|]
           end.
    done.
  - intros [= <-]. unfold py_index in E.
    destruct (_ || _); [by inversion E|].
    destruct (nth_error _ _); by inversion E.
Qed.

Lemma changepoint_loop_raises values window threshold positions acc i :
  i ∈ positions →
  changepoint_at values window threshold i = Raise IndexError →
  changepoint_loop values window threshold positions acc = Raise IndexError.
Proof.
  revert acc. induction positions as [|j rest IH]; intros acc Hin Hraise.
  - by apply elem_of_nil in Hin.
  - simpl.
    destruct (changepoint_at values window threshold j) as [r|e] eqn:E;
      simpl.
    + apply elem_of_cons in Hin as [-> | Hin]; [congruence|].
      by apply IH.
    + by apply changepoint_at_exn in E as ->.
Qed.

Lemma changepoint_loop_sorted values window threshold positions acc hs :
  StronglySorted Z.lt positions → StronglySorted index_lt acc →
  (∀ h i, h ∈ acc → i ∈ positions → index h < i) →
  changepoint_loop values window threshold positions acc = Ok hs →
  StronglySorted index_lt hs.
Proof.
  revert acc. induction positions as [|i rest IH];
    intros acc Hpos Hacc Hbelow; simpl.
  - by intros [= <-].
  - destruct (changepoint_at values window threshold i) as [r|e] eqn:E;
      simpl; [|done].
    apply StronglySorted_inv in Hpos as [Hrest Hi].
    rewrite Forall_forall in Hi.
    assert (∀ h, h ∈ option_list r → index h = i) as Hr.
    { destruct r as [h'|]; simpl; intros h Hh.
      - apply list_elem_of_singleton in Hh as ->.
        by apply changepoint_at_Some in E as [? _].
      - by apply elem_of_nil in Hh. }
    apply IH; [done| |].
    + apply StronglySorted_app_2; [|done|].
      * intros x y Hx Hy. unfold index_lt. rewrite (Hr y Hy).
        apply Hbelow; [done | left].
      * destruct r; simpl; repeat constructor.
    + intros h j [Hh | Hh]%elem_of_app Hj.
      * apply Hbelow; [done | by right].
      * rewrite (Hr h Hh). by apply Hi.
Qed.

Lemma detect_changepoint_raises values window threshold :
  window < 0 →
  detect_changepoint values window threshold = Raise IndexError.
Proof.
  intros Hw. unfold detect_changepoint.
  pose proof (Nat2Z.is_nonneg (length values)) as Hn.
  fold (len values) in Hn.
  destruct (Z.ltb_spec (len values) (window * 2 + 1)); [lia|].
  apply (changepoint_loop_raises _ _ _ _ _ (len values)).
  - apply elem_of_py_range. lia.
  - unfold changepoint_at. by rewrite py_index_len.
Qed.

(** X4: with a negative window [detect_changepoint] raises [IndexError] on
    every sequence, the empty one included.  Whenever it returns, every
    record points at an entry of the sequence that is not missing, carries
    the method name "changepoint", severity "high" or "medium", the band
    style and a shift magnitude, and the records come in strictly
    increasing order of index. *)
Theorem detect_changepoint_records (values : list float) (window : Z)
  (threshold : float) :
  (window < 0 →
     detect_changepoint values window threshold = Raise IndexError)
  ∧ (∀ hs, detect_changepoint values window threshold = Ok hs →
       Forall (fun h =>
                 points_at values h
                 ∧ method h = "changepoint"%string
                 ∧ (severity h = "high"%string
                    ∨ severity h = "medium"%string)
                 ∧ suggested_style h = "band_shade"%string
                 ∧ is_Some (shift_magnitude h)) hs
       ∧ StronglySorted index_lt hs).
Proof.
  split; [apply detect_changepoint_raises|].
  intros hs Hok.
  destruct (Z.lt_ge_cases window 0) as [Hneg | Hw].
  { by rewrite detect_changepoint_raises in Hok. }
  unfold detect_changepoint in Hok.
  destruct (_ <? _); [inversion Hok; split; constructor|].
  split.
  - revert Hok. apply changepoint_loop_Forall; [constructor|].
    intros i h Hi%elem_of_py_range Hat.
    pose proof (changepoint_at_Some _ _ _ _ _ Hat) as (Hidx & Hv & Hnan).
    split; [|by apply changepoint_at_record in Hat].
    subst i. apply py_index_Ok in Hv as [Hlt Hlook]; [|lia].
    repeat split; try done; lia.
  - revert Hok. apply changepoint_loop_sorted.
    + apply py_range_sorted.
    + constructor.
    + intros h i Hh. by apply elem_of_nil in Hh.
Qed.

(** ** Lists that [deduplicate] leaves alone *)

Lemma index_lt_NoDup (l : list Highlight) :
  StronglySorted index_lt l → NoDup (index <$> l).
Proof.
  induction 1 as [|h l Hs IH Hall]; simpl; [constructor|].
  constructor; [|done]. intros Hin.
  apply list_elem_of_fmap in Hin as (k & Hk & Hkin).
  rewrite Forall_forall in Hall. specialize (Hall k Hkin).
  unfold index_lt in Hall. lia.
Qed.

Lemma index_lt_Sorted (l : list Highlight) :
  StronglySorted index_lt l → Sorted index_le l.
Proof.
  intros Hs. apply StronglySorted_Sorted.
  induction Hs as [|h l Hs IH Hall]; constructor; [done|].
  eapply Forall_impl; [exact Hall|]. unfold index_lt, index_le. lia.
Qed.

Lemma deduplicate_strictly_sorted (highlights : list Highlight) :
  StronglySorted index_lt (deduplicate highlights).
Proof.
  destruct (seen_invariant_fold highlights) as [Hsome _].
  unfold deduplicate, sorted_by_index.
  apply strictly_sorted; [apply Sorted_merge_sort; apply _|].
  rewrite merge_sort_Permutation.
  rewrite dict_values_keys by (intros i h Hl; by apply Hsome).
  apply NoDup_fst_map_to_list.
Qed.

Lemma wins_index_elem (hs : list Highlight) (h : Highlight) :
  wins_index hs h → h ∈ hs.
Proof.
  intros (pre & post & -> & _). apply elem_of_app. right. left.
Qed.

Lemma deduplicate_fixed (l : list Highlight) :
  StronglySorted index_lt l → deduplicate l = l.
Proof.
  intros Hs. pose proof (index_lt_NoDup l Hs) as Hnd.
  destruct (seen_invariant_fold l) as [Hsome Hall].
  unfold deduplicate. set (seen := fold_left dedup_step l ∅) in *.
  assert (NoDup (index <$> dict_values seen)) as Hnd'.
  { rewrite dict_values_keys by (intros i h Hl; by apply Hsome).
    apply NoDup_fst_map_to_list. }
  assert (dict_values seen ≡ₚ l) as Hperm.
  { apply NoDup_Permutation.
    - by apply NoDup_fmap_1 in Hnd'.
    - by apply NoDup_fmap_1 in Hnd.
    - intros h. rewrite elem_of_dict_values. split.
      + intros [i Hi]. apply Hsome in Hi as [_ Hw].
        by apply wins_index_elem.
      + intros Hin. destruct (Hall h Hin) as [k Hk].
        exists (index h). rewrite Hk. f_equal.
        apply Hsome in Hk as [Hidx Hw]. apply wins_index_elem in Hw.
        apply (NoDup_fmap_1 index) in Hnd as Hl.
        destruct (list_elem_of_lookup_1 _ _ Hw) as [a Ha].
        destruct (list_elem_of_lookup_1 _ _ Hin) as [b Hb].
        assert (a = b) as ->; [|congruence].
        eapply NoDup_lookup; [exact Hnd| |].
        * rewrite list_lookup_fmap, Ha. simpl. by rewrite Hidx.
        * by rewrite list_lookup_fmap, Hb. }
  rewrite (sorted_values_any_order _ _ Hperm Hnd').
  unfold sorted_by_index.
  apply (Sorted_unique_strong index_le).
  - intros x1 x2 Hx1 Hx2 H12 H21.
    rewrite merge_sort_Permutation in Hx1.
    assert (index x1 = index x2) as Heq by (unfold index_le in *; lia).
    destruct (list_elem_of_lookup_1 _ _ Hx1) as [a Ha].
    destruct (list_elem_of_lookup_1 _ _ Hx2) as [b Hb].
    assert (a = b) as ->; [|congruence].
    eapply NoDup_lookup; [exact Hnd| |].
    + rewrite list_lookup_fmap, Ha. simpl. by rewrite Heq.
    + by rewrite list_lookup_fmap, Hb.
  - apply Sorted_merge_sort. apply _.
  - by apply index_lt_Sorted.
  - apply merge_sort_Permutation.
Qed.

(** X5: [deduplicate] returns a list unchanged when its indices are
    strictly increasing, and merging twice is merging once. *)
Theorem deduplicate_idempotent (highlights : list Highlight) :
  (StronglySorted index_lt highlights → deduplicate highlights = highlights)
  ∧ deduplicate (deduplicate highlights) = deduplicate highlights.
Proof.
  split; [apply deduplicate_fixed|].
  apply deduplicate_fixed, deduplicate_strictly_sorted.
Qed.

(** ** The detector loop of [main] *)

Lemma index_lt_unique (l : list Highlight) (h k : Highlight) :
  StronglySorted index_lt l → h ∈ l → k ∈ l → index h = index k → h = k.
Proof.
  intros Hnd%index_lt_NoDup Hh Hk Heq.
  destruct (list_elem_of_lookup_1 _ _ Hh) as [a Ha].
  destruct (list_elem_of_lookup_1 _ _ Hk) as [b Hb].
  assert (a = b) as ->; [|congruence].
  eapply NoDup_lookup; [exact Hnd| |].
  - rewrite list_lookup_fmap, Ha. simpl. by rewrite Heq.
  - by rewrite list_lookup_fmap, Hb.
Qed.











(** On the sample the z-score record takes index 4 from "Global maximum";
    "Global minimum" stays at index 0. *)
Example main_highlights_spike :
  (fun h => (index h, method h, severity h)) <$> spike_highlights
  = [(0, "minmax", "low"); (4, "zscore", "medium")]%string.
Proof. vm_compute. reflexivity. Qed.

Lemma run_detectors_returns percentile a values names acc :
  Changepoint ∉ names ∨ 0 <= args.window a →
  ∃ all, run_detectors percentile a values names acc = Ok all.
Proof.
  revert acc. induction names as [|m rest IH]; intros acc Hok; simpl.
  - by eexists.
  - assert (∃ rs, detector percentile a m values = Ok rs) as [rs ->].
    { destruct m; simpl; try by eexists.
      destruct Hok as [Hnot | Hw].
      - destruct Hnot. left.
      - unfold detect_changepoint. destruct (_ <? _); [by eexists|].
        apply changepoint_loop_total.
        intros i Hi%elem_of_py_range. lia. }
    simpl. apply IH. destruct Hok as [Hnot | ?]; [left | by right].
    intros Hin. apply Hnot. by right.
Qed.

Lemma run_detectors_raises percentile a values names acc :
  Changepoint ∈ names → args.window a < 0 →
  run_detectors percentile a values names acc = Raise IndexError.
Proof.
  intros Hin Hw. revert acc.
  induction names as [|m rest IH]; intros acc; [by apply elem_of_nil in Hin|].
  simpl. destruct m; simpl;
    try (apply IH; apply elem_of_cons in Hin as [? | ?]; done).
  by rewrite detect_changepoint_raises.
Qed.

(** X7: the detector loop of [main] raises exactly when the changepoint
    detector is selected with a negative window, and what it raises then is
    [IndexError], whichever detectors run before; otherwise it returns a
    list. *)
Theorem main_highlights_raises (percentile : list float → float → float)
  (a : args.t) (values : list float) :
  (Changepoint ∈ args.methods a ∧ args.window a < 0 →
     main_highlights percentile a values = Raise IndexError)
  ∧ (Changepoint ∉ args.methods a ∨ 0 <= args.window a →
       ∃ hs, main_highlights percentile a values = Ok hs).
Proof.
  unfold main_highlights. split.
  - intros [Hin Hw]. by rewrite run_detectors_raises.
  - intros Hok.
    destruct (run_detectors_returns percentile a values (args.methods a) []
                Hok) as [all ->].
    by eexists.
Qed.

(** ** Sorting: [nargsort] and [sort_values] *)

Lemma insert_stable_Permutation {A : Type} (lt : A → A → bool) x l :
  insert_stable lt x l ≡ₚ x :: l.
Proof.
  induction l as [|y l IH]; simpl; [done|].
  destruct (lt y x); [|done]. rewrite IH. apply Permutation_swap.
Qed.

Lemma stable_sort_Permutation {A : Type} (lt : A → A → bool) l :
  stable_sort lt l ≡ₚ l.
Proof.
  induction l as [|x l IH]; [done|].
  unfold stable_sort in *. simpl.
  rewrite insert_stable_Permutation. by constructor.
Qed.

Lemma insert_stable_HdRel {A : Type} (lt : A → A → bool)
  (R : relation A) x y l :
  HdRel R y l → R y x → HdRel R y (insert_stable lt x l).
Proof.
  intros Hhd Hyx. destruct l as [|z l]; simpl; [by constructor|].
  destruct (lt z x); constructor; [by inversion Hhd | done].
Qed.

Lemma insert_stable_Sorted {A : Type} (lt : A → A → bool) x l :
  (∀ a b, lt a b = true → lt b a = false) →
  Sorted (fun a b => lt b a = false) l →
  Sorted (fun a b => lt b a = false) (insert_stable lt x l).
Proof.
  intros Hasym. induction 1 as [|y l Hs IH Hhd]; simpl.
  - by repeat constructor.
  - destruct (lt y x) eqn:E.
    + constructor; [done|]. apply insert_stable_HdRel; [done|].
      by apply Hasym.
    + constructor; [by constructor|]. by constructor.
Qed.

Lemma stable_sort_Sorted {A : Type} (lt : A → A → bool) l :
  (∀ a b, lt a b = true → lt b a = false) →
  Sorted (fun a b => lt b a = false) (stable_sort lt l).
Proof.
  intros Hasym. induction l as [|x l IH]; [constructor|].
  unfold stable_sort in *. simpl. by apply insert_stable_Sorted.
Qed.

Lemma SFltb_asym a b : SFltb a b = true → SFltb b a = false.
Proof.
  unfold SFltb, SFcompare.
  destruct a as [sa|sa| |sa ma ea], b as [sb|sb| |sb mb eb];
    repeat match goal with s : bool |- _ => destruct s end;
    simpl; try congruence; intros H1;
    cmp_cases; simpl in *; try congruence; try lia.
Qed.

Lemma string_ltb_asym (a b : string) :
  String.ltb a b = true → String.ltb b a = false.
Proof.
  unfold String.ltb. rewrite (String.compare_antisym b a).
  by destruct (String.compare a b).
Qed.

Lemma scalar_ltb_asym (a b : scalar) :
  pd.scalar_ltb a b = true → pd.scalar_ltb b a = false.
Proof.
  destruct a, b; simpl; try done.
  - intros H%Z.ltb_lt. apply Z.ltb_ge. lia.
  - rewrite !FloatAxioms.ltb_spec. apply SFltb_asym.
  - apply string_ltb_asym.
Qed.

Lemma filter_complement_Permutation {A : Type} (f : A → bool) (l : list A) :
  List.filter (fun a => negb (f a)) l ++ List.filter f l ≡ₚ l.
Proof.
  induction l as [|a l IH]; simpl; [done|].
  destruct (f a); simpl.
  - rewrite <- Permutation_middle. by constructor.
  - by constructor.
Qed.

Lemma Sorted_fmap_snd {A B : Type} (R : relation B) (l : list (A * B)) :
  Sorted (fun p q => R p.2 q.2) l → Sorted R l.*2.
Proof.
  induction 1 as [|p l Hs IH Hhd]; simpl; constructor; [done|].
  destruct Hhd; simpl; by constructor.
Qed.

Lemma rev_reverse {A : Type} (l : list A) : rev l = reverse l.
Proof. unfold reverse. apply rev_alt. Qed.

Lemma tagged_lookup (keys : list scalar) (p : nat * scalar) :
  p ∈ zip (seq 0 (length keys)) keys → keys !! p.1 = Some p.2.
Proof.
  intros Hp. apply list_elem_of_lookup in Hp as [j Hj].
  apply lookup_zip_with_Some in Hj as (i & k & -> & Hi & Hk).
  apply lookup_seq in Hi as [-> _]. done.
Qed.

Lemma take_list_tagged {A : Type} (keys : list A) (t : list (nat * A)) :
  (∀ p, p ∈ t → keys !! p.1 = Some p.2) →
  pd.take_list t.*1 keys = t.*2.
Proof.
  unfold pd.take_list. induction t as [|p t IH]; intros Hall; [done|].
  simpl. rewrite (Hall p) by left. simpl. f_equal.
  apply IH. intros q Hq. apply Hall. by right.
Qed.

Lemma take_list_fmap {A B : Type} (f : A → B) (perm : list nat)
  (xs : list A) :
  pd.take_list perm (f <$> xs) = f <$> pd.take_list perm xs.
Proof.
  unfold pd.take_list. induction perm as [|i perm IH]; [done|].
  simpl. rewrite list_lookup_fmap.
  destruct (xs !! i); simpl; [f_equal|]; exact IH.
Qed.

Lemma take_list_app {A : Type} (p q : list nat) (xs : list A) :
  pd.take_list (p ++ q) xs = pd.take_list p xs ++ pd.take_list q xs.
Proof. unfold pd.take_list. apply omap_app. Qed.

Lemma nargsort_Permutation (keys : list scalar) (ascending : bool) :
  pd.nargsort keys ascending ≡ₚ seq 0 (length keys).
Proof.
  unfold pd.nargsort.
  set (tagged := zip (seq 0 (length keys)) keys).
  set (non_nans := List.filter (fun p => negb (pd.is_missing p.2)) tagged).
  set (nans := List.filter (fun p => pd.is_missing p.2) tagged).
  transitivity (non_nans.*1 ++ nans.*1).
  - apply Permutation_app; [|done]. destruct ascending.
    + by rewrite stable_sort_Permutation.
    + by rewrite <- Permutation_rev, stable_sort_Permutation,
        <- Permutation_rev.
  - rewrite <- fmap_app.
    unfold non_nans, nans. rewrite filter_complement_Permutation.
    unfold tagged. rewrite fst_zip; [done|]. by rewrite length_seq.
Qed.

(** The keys in the order [nargsort] gives them: those that are not missing,
    in order, then the missing ones. *)
Lemma nargsort_keys (keys : list scalar) (ascending : bool) :
  ∃ present missing,
    pd.take_list (pd.nargsort keys ascending) keys = present ++ missing
    ∧ Forall (fun s => pd.is_missing s = false) present
    ∧ Forall (fun s => pd.is_missing s = true) missing
    ∧ Sorted (if ascending then not_after else flip not_after) present
    ∧ present ++ missing ≡ₚ keys.
Proof.
  unfold pd.nargsort.
  set (tagged := zip (seq 0 (length keys)) keys).
  set (non_nans := List.filter (fun p => negb (pd.is_missing p.2)) tagged).
  set (nans := List.filter (fun p => pd.is_missing p.2) tagged).
  set (ltp := fun p q : nat * scalar => pd.scalar_ltb p.2 q.2).
  pose proof (fun l => stable_sort_Sorted ltp l
                (fun p q => scalar_ltb_asym p.2 q.2)) as Hsorted.
  assert (∃ sorted,
            (if ascending
             then (stable_sort ltp
                     (if ascending then non_nans else rev non_nans)).*1
             else rev (stable_sort ltp
                         (if ascending then non_nans else rev non_nans)).*1)
            = sorted.*1
            ∧ sorted ≡ₚ non_nans
            ∧ Sorted (if ascending then not_after else flip not_after)
                     sorted.*2) as (sorted & -> & Hperm & Hs).
  { destruct ascending.
    - exists (stable_sort ltp non_nans).
      split; [done|]. split; [apply stable_sort_Permutation|].
      apply Sorted_fmap_snd. apply Hsorted.
    - exists (rev (stable_sort ltp (rev non_nans))).
      split; [by rewrite map_rev|]. split.
      + by rewrite <- Permutation_rev, stable_sort_Permutation,
          <- Permutation_rev.
      + apply Sorted_fmap_snd. rewrite rev_reverse.
        apply (Sorted_reverse _ _ (Hsorted (rev non_nans))). }
  assert (∀ p, p ∈ non_nans → p ∈ tagged ∧ pd.is_missing p.2 = false)
    as Hnon.
  { intros p. unfold non_nans.
    rewrite !list_elem_of_In, filter_In, negb_true_iff. done. }
  assert (∀ p, p ∈ nans → p ∈ tagged ∧ pd.is_missing p.2 = true) as Hnan.
  { intros p. unfold nans. by rewrite !list_elem_of_In, filter_In. }
  exists sorted.*2, nans.*2.
  split; [|split; [|split; [|split]]].
  - rewrite take_list_app. f_equal.
    + apply take_list_tagged. intros p Hp. apply tagged_lookup.
      rewrite Hperm in Hp. by apply Hnon.
    + apply take_list_tagged. intros p Hp. apply tagged_lookup.
      by apply Hnan.
  - apply Forall_forall. intros s Hs'.
    apply list_elem_of_fmap in Hs' as (p & -> & Hp).
    rewrite Hperm in Hp. by apply Hnon.
  - apply Forall_forall. intros s Hs'.
    apply list_elem_of_fmap in Hs' as (p & -> & Hp). by apply Hnan.
  - done.
  - rewrite <- fmap_app, Hperm.
    unfold non_nans, nans. rewrite filter_complement_Permutation.
    unfold tagged. rewrite snd_zip; [done|]. by rewrite length_seq.
Qed.

Lemma values_take (perm : list nat) (col : column) :
  pd.values (pd.col_map_rows (fun _ => pd.take_list perm) col)
  = pd.take_list perm (pd.values col).
Proof. destruct col; simpl; by rewrite ?take_list_fmap. Qed.

Lemma get_take (perm : list nat) (df : DataFrame) (c : string) :
  pd.get (pd.take perm df) c
  = pd.col_map_rows (fun _ => pd.take_list perm) <$> pd.get df c.
Proof.
  apply (get_map (fun _ => pd.col_map_rows (fun _ => pd.take_list perm))).
Qed.

Lemma stage_sort_unfold (kw : kwargs) (y_primary : option string)
  (df : DataFrame) (c : string) (col : column) :
  sort_col_of kw y_primary = Some c → c ≠ EmptyString →
  pd.get df c = Some col → pd.orderable col = true →
  stage_sort kw y_primary df
  = Done (pd.take (pd.nargsort (pd.values col) (sorts_ascending kw)) df).
Proof.
  intros Hc Hc0 Hget Hord. unfold stage_sort. rewrite Hc. simpl.
  destruct (String.eqb_spec c EmptyString); [done|]. simpl.
  assert (pd.has_column c df = true) as ->.
  { apply has_column_elem, get_is_Some. by rewrite Hget. }
  unfold pd.sort_values. by rewrite Hget, Hord.
Qed.

(** X8: the sort stage, on a sort column that is a column of the table with
    keys of one kind, only reorders the rows: the output is the input with
    every column taken at the same permutation of its positions.  In the
    output the keys that are not missing come first, no key followed by a
    smaller one (by a larger one in descending order, which is the default),
    and the missing keys come last. *)
Theorem stage_sort_spec (kw : kwargs) (y_primary : option string)
  (df : DataFrame) (c : string) (col : column) :
  sort_col_of kw y_primary = Some c → c ≠ EmptyString →
  pd.get df c = Some col → pd.orderable col = true →
  ∃ perm present missing,
    stage_sort kw y_primary df = Done (pd.take perm df)
    ∧ perm ≡ₚ seq 0 (pd.col_len col)
    ∧ pd.values <$> pd.get (pd.take perm df) c = Some (present ++ missing)
    ∧ present ++ missing ≡ₚ pd.values col
    ∧ Forall (fun s => pd.is_missing s = false) present
    ∧ Forall (fun s => pd.is_missing s = true) missing
    ∧ Sorted (if sorts_ascending kw then not_after else flip not_after)
             present.
Proof.
  intros Hc Hc0 Hget Hord.
  destruct (nargsort_keys (pd.values col) (sorts_ascending kw))
    as (present & missing & Htake & Hp & Hm & Hs & Hperm).
  exists (pd.nargsort (pd.values col) (sorts_ascending kw)), present, missing.
  split; [by apply (stage_sort_unfold kw y_primary df c col)|].
  split; [by rewrite nargsort_Permutation, col_len_values|].
  split; [|done].
  rewrite get_take, Hget. simpl. by rewrite values_take, Htake.
Qed.

Lemma stage_sort_spec_witness :
  ∃ perm present missing,
    stage_sort no_kwargs (Some "sales"%string) sales_by_region
    = Done (pd.take perm sales_by_region)
    ∧ perm ≡ₚ seq 0 (pd.col_len (FloatCol [1; 2; 4]%float))
    ∧ pd.values <$> pd.get (pd.take perm sales_by_region) "sales"
      = Some (present ++ missing)
    ∧ present ++ missing ≡ₚ pd.values (FloatCol [1; 2; 4]%float)
    ∧ Forall (fun s => pd.is_missing s = false) present
    ∧ Forall (fun s => pd.is_missing s = true) missing
    ∧ Sorted (if sorts_ascending no_kwargs then not_after
              else flip not_after) present.
Proof.
  apply (stage_sort_spec no_kwargs (Some "sales"%string) sales_by_region
           "sales"%string (FloatCol [1; 2; 4]%float)).
  - reflexivity.
  - discriminate.
  - reflexivity.
  - reflexivity.
Defined.

(** ** The rank-limit stage: top and bottom N *)

Lemma take_list_seq {A : Type} (xs : list A) (s : nat) (pre : list A) :
  length pre = s →
  pd.take_list (seq s (length xs)) (pre ++ xs) = xs.
Proof.
  unfold pd.take_list. revert s pre.
  induction xs as [|x xs IH]; intros s pre Hs; [done|].
  simpl. rewrite lookup_app_r by lia.
  replace (s - length pre)%nat with 0%nat by lia. simpl. f_equal.
  specialize (IH (S s) (pre ++ [x])).
  rewrite <- app_assoc in IH. apply IH.
  rewrite length_app. simpl. lia.
Qed.

Lemma take_list_Permutation {A : Type} (perm : list nat) (xs : list A) :
  perm ≡ₚ seq 0 (length xs) → pd.take_list perm xs ≡ₚ xs.
Proof.
  intros Hperm. unfold pd.take_list. rewrite Hperm.
  change (pd.take_list (seq 0 (length xs)) ([] ++ xs) ≡ₚ xs).
  by rewrite take_list_seq.
Qed.

Lemma Sorted_SInt (ascending : bool) (ys : list Z) :
  Sorted (if ascending then not_after else flip not_after) (SInt <$> ys) →
  Sorted (if ascending then Z.le else Z.ge) ys.
Proof.
  assert (∀ a b, (if ascending then not_after else flip not_after)
                   (SInt a) (SInt b) →
                 (if ascending then Z.le else Z.ge) a b) as Hrel.
  { intros a b. unfold not_after, flip. destruct ascending; simpl;
      intros H%Z.ltb_ge; lia. }
  remember (SInt <$> ys) as l eqn:El. intros Hs. revert ys El.
  induction Hs as [|s l Hs IH Hhd]; intros [|y ys] El; try done.
  simpl in El. injection El as -> ->. constructor; [by apply IH|].
  destruct ys as [|z ys]; constructor.
  simpl in Hhd. inversion Hhd; subst. by apply Hrel.
Qed.

Lemma nargsort_int64 (xs : list Z) (ascending : bool) :
  pd.take_list (pd.nargsort (SInt <$> xs) ascending) xs ≡ₚ xs
  ∧ Sorted (if ascending then Z.le else Z.ge)
           (pd.take_list (pd.nargsort (SInt <$> xs) ascending) xs).
Proof.
  split.
  - apply take_list_Permutation.
    by rewrite nargsort_Permutation, length_fmap.
  - destruct (nargsort_keys (SInt <$> xs) ascending)
      as (present & missing & Htake & _ & Hm & Hs & Hperm).
    rewrite take_list_fmap in Htake.
    assert (missing = []) as ->.
    { destruct missing as [|s missing]; [done|].
      apply Forall_cons in Hm as [Hs' _].
      assert (s ∈ SInt <$> xs) as Hin.
      { rewrite <- Hperm. apply elem_of_app. right. left. }
      apply list_elem_of_fmap in Hin as (z & -> & _). done. }
    rewrite app_nil_r in Htake. subst present. by apply Sorted_SInt.
Qed.

Lemma Sorted_firstn {A : Type} (R : relation A) (k : nat) (l : list A) :
  Sorted R l → Sorted R (firstn k l).
Proof.
  intros Hs. revert k. induction Hs as [|x l Hs IH Hhd]; intros [|k];
    simpl; try constructor; [apply IH|].
  destruct Hhd; destruct k; simpl; by constructor.
Qed.

Lemma Sorted_Z_unique (ascending : bool) (l1 l2 : list Z) :
  Sorted (if ascending then Z.le else Z.ge) l1 →
  Sorted (if ascending then Z.le else Z.ge) l2 →
  l1 ≡ₚ l2 → l1 = l2.
Proof.
  intros H1 H2 Hp.
  assert (Transitive (if ascending then Z.le else Z.ge)) as Htrans
    by (intros a b c; destruct ascending; lia).
  apply (@Sorted_unique_strong Z (if ascending then Z.le else Z.ge) Htrans);
    try done.
  intros a b _ _. destruct ascending; lia.
Qed.

(** The two calls of a rank limit on an [int64] column: [nlargest] or
    [nsmallest], then the sort for display. *)
Lemma rank_limit_int64 (ascending : bool) (k : nat) (df : DataFrame)
  (c : string) (xs : list Z) :
  pd.get df c = Some (IntCol xs) →
  ∃ out s,
    pd.sort_values c ascending
      (pd.head k (pd.take (pd.nargsort (SInt <$> xs) ascending) df))
    = Done out
    ∧ s ≡ₚ xs
    ∧ Sorted (if ascending then Z.le else Z.ge) s
    ∧ pd.get out c = Some (IntCol (firstn k s)).
Proof.
  intros Hget.
  destruct (nargsort_int64 xs ascending) as [Hperm Hsorted].
  set (s := pd.take_list (pd.nargsort (SInt <$> xs) ascending) xs) in *.
  set (df' := pd.head k (pd.take (pd.nargsort (SInt <$> xs) ascending) df)).
  assert (pd.get df' c = Some (IntCol (firstn k s))) as Hget'.
  { unfold df', pd.head, pd.map_rows.
    rewrite (get_map (fun _ => pd.col_map_rows (fun _ => firstn k))).
    by rewrite get_take, Hget. }
  destruct (nargsort_int64 (firstn k s) ascending) as [Hperm' Hsorted'].
  eexists _, s. split; [|split; [done|split; [done|]]].
  - unfold pd.sort_values. rewrite Hget'. simpl. reflexivity.
  - rewrite get_take, Hget'. simpl. do 2 f_equal.
    apply (Sorted_Z_unique ascending); [done| |done].
    by apply Sorted_firstn.
Qed.

(** X9: the rank-limit stage on a sort column of the table.  With [top = n
    > 0] and an [int64] sort column, the column comes back holding the [n]
    largest keys in descending order: the first [n] entries of the keys
    sorted in descending order.  With no positive [top] and [bottom = n >
    0], it holds the [n] smallest keys in ascending order.  On a sort column
    of dtype [object] either request raises [TypeError]. *)
Theorem stage_rank_limit_spec (kw : kwargs) (y_primary : option string)
  (df : DataFrame) (c : string) (col : column) :
  sort_col_of kw y_primary = Some c → pd.get df c = Some col →
  (∀ n xs, top kw = Some n → 0 < n → col = IntCol xs →
     ∃ out s, stage_rank_limit kw y_primary df = Done out
              ∧ s ≡ₚ xs ∧ Sorted Z.ge s
              ∧ pd.get out c = Some (IntCol (firstn (Z.to_nat n) s)))
  ∧ (∀ n xs, (∀ t, top kw = Some t → t <= 0) →
       bottom kw = Some n → 0 < n → col = IntCol xs →
       ∃ out s, stage_rank_limit kw y_primary df = Done out
                ∧ s ≡ₚ xs ∧ Sorted Z.le s
                ∧ pd.get out c = Some (IntCol (firstn (Z.to_nat n) s)))
  ∧ (∀ xs, col = ObjCol xs →
       (∃ n, top kw = Some n ∧ 0 < n)
       ∨ (∃ n, bottom kw = Some n ∧ 0 < n) →
       stage_rank_limit kw y_primary df = Raised TypeError).
Proof.
  intros Hc Hget.
  assert (pd.has_column c df = true) as Hhas.
  { apply has_column_elem, get_is_Some. by rewrite Hget. }
  assert (∀ n, top kw = Some n → 0 < n →
            stage_rank_limit kw y_primary df
            = (df' ← pd.nlargest (Z.to_nat n) c df;
               pd.sort_values c false df')) as Htop.
  { intros n Ht Hn. unfold stage_rank_limit. rewrite Hc, Ht. simpl.
    rewrite Hhas.
    destruct (Z.eqb_spec n 0); [lia|].
    by destruct (Z.ltb_spec 0 n); [|lia]. }
  assert (∀ n, (∀ t, top kw = Some t → t <= 0) → bottom kw = Some n →
            0 < n →
            stage_rank_limit kw y_primary df
            = (df' ← pd.nsmallest (Z.to_nat n) c df;
               pd.sort_values c true df')) as Hbottom.
  { intros n Ht Hb Hn. unfold stage_rank_limit. rewrite Hc, Hb. simpl.
    rewrite Hhas.
    assert (truthy_int (top kw) && (0 <? default 0 (top kw)) = false)
      as ->.
    { destruct (top kw) as [t|]; simpl; [|done].
      specialize (Ht t eq_refl).
      destruct (Z.ltb_spec 0 t); [lia|]. by rewrite andb_false_r. }
    destruct (Z.eqb_spec n 0); [lia|].
    by destruct (Z.ltb_spec 0 n); [|lia]. }
  split; [|split].
  - intros n xs Ht Hn ->. rewrite (Htop n Ht Hn).
    unfold pd.nlargest. rewrite Hget. simpl.
    apply (rank_limit_int64 false _ _ _ _ Hget).
  - intros n xs Ht Hb Hn ->. rewrite (Hbottom n Ht Hb Hn).
    unfold pd.nsmallest. rewrite Hget. simpl.
    apply (rank_limit_int64 true _ _ _ _ Hget).
  - intros xs -> Hreq.
    destruct (top kw) as [t|] eqn:Ht.
    + destruct (Z.ltb_spec 0 t) as [Hpos | Hneg].
      * rewrite (Htop t eq_refl Hpos). unfold pd.nlargest.
        by rewrite Hget.
      * destruct Hreq as [(n & [= ->] & ?) | (n & Hb & Hn)]; [lia|].
        rewrite (Hbottom n); try done.
        -- unfold pd.nsmallest. by rewrite Hget.
        -- intros ? [= <-]. lia.
    + destruct Hreq as [(n & [=] & _) | (n & Hb & Hn)].
      rewrite (Hbottom n); try done.
      unfold pd.nsmallest. by rewrite Hget.
Qed.

Lemma stage_rank_limit_spec_witness :
  (∀ n xs, top (top_two "value") = Some n → 0 < n →
     IntCol [10; 50; 20; 40; 30] = IntCol xs →
     ∃ out s, stage_rank_limit (top_two "value") (Some "value"%string)
                (categories 10 50 20 40 30) = Done out
              ∧ s ≡ₚ xs ∧ Sorted Z.ge s
              ∧ pd.get out "value" = Some (IntCol (firstn (Z.to_nat n) s)))
  ∧ (∀ n xs, (∀ t, top (top_two "value") = Some t → t <= 0) →
       bottom (top_two "value") = Some n → 0 < n →
       IntCol [10; 50; 20; 40; 30] = IntCol xs →
       ∃ out s, stage_rank_limit (top_two "value") (Some "value"%string)
                  (categories 10 50 20 40 30) = Done out
                ∧ s ≡ₚ xs ∧ Sorted Z.le s
                ∧ pd.get out "value"
                  = Some (IntCol (firstn (Z.to_nat n) s)))
  ∧ (∀ xs, IntCol [10; 50; 20; 40; 30] = ObjCol xs →
       (∃ n, top (top_two "value") = Some n ∧ 0 < n)
       ∨ (∃ n, bottom (top_two "value") = Some n ∧ 0 < n) →
       stage_rank_limit (top_two "value") (Some "value"%string)
         (categories 10 50 20 40 30) = Raised TypeError).
Proof.
  apply (stage_rank_limit_spec (top_two "value") (Some "value"%string)
           (categories 10 50 20 40 30) "value"%string
           (IntCol [10; 50; 20; 40; 30])); reflexivity.
Defined.

(** The two largest values of the sample, and the [TypeError] of a rank
    limit on the names. *)
Example stage_rank_limit_sample :
  stage_rank_limit (top_two "value") (Some "value"%string)
    (categories 10 50 20 40 30)
  = Done [("category"%string, ObjCol [SStr "B"; SStr "D"]);
          ("value"%string, IntCol [50; 40])]
  ∧ stage_rank_limit (top_two "category") (Some "value"%string)
      (categories 10 50 20 40 30)
    = Raised TypeError.
Proof. split; vm_compute; reflexivity. Qed.

(** ** Grouping the small slices of a pie *)

Lemma get_app (a b : DataFrame) (c : string) :
  pd.get (a ++ b) c
  = match pd.get a c with
    | Some col => Some col
    | None => pd.get b c
    end.
Proof.
  induction a as [|[name col] a IH]; simpl; [done|].
  by destruct (String.eqb name c).
Qed.

Lemma py_slice_split {A : Type} (xs : list A) (k : Z) :
  py_slice xs 0 k ++ py_slice xs k (len xs) = xs.
Proof.
  unfold py_slice, slice_bound.
  pose proof (Nat2Z.is_nonneg (length xs)) as Hn. fold (len xs) in Hn.
  set (n := len xs) in *.
  set (j := if k <? 0 then k + n else k).
  change (0 <? 0) with false. cbv iota.
  destruct (Z.ltb_spec n 0); [lia|].
  replace (0 `max` (n `min` 0)) with 0 by lia.
  replace (0 `max` (n `min` n)) with n by lia.
  rewrite Z.sub_0_r. simpl skipn.
  set (b := 0 `max` (n `min` j)).
  rewrite (firstn_all2 (skipn (Z.to_nat b) xs)).
  - apply firstn_skipn.
  - rewrite length_skipn. unfold n, len in *. lia.
Qed.

Lemma py_slice_length {A : Type} (xs : list A) (k : Z) :
  0 <= k <= len xs → len (py_slice xs 0 k) = k.
Proof.
  intros Hk. unfold py_slice, slice_bound.
  change (0 <? 0) with false. cbv iota.
  destruct (Z.ltb_spec k 0); [lia|].
  replace (0 `max` (len xs `min` 0)) with 0 by lia.
  replace (0 `max` (len xs `min` k)) with k by lia.
  rewrite Z.sub_0_r. change (Z.to_nat 0) with 0%nat. rewrite drop_0.
  unfold len in *. rewrite length_firstn. lia.
Qed.

Lemma fold_add_shift (l : list Z) (a : Z) :
  fold_left Z.add l a = a + fold_left Z.add l 0.
Proof.
  revert a. induction l as [|x l IH]; intros a; simpl; [lia|].
  rewrite (IH (a + x)), (IH (0 + x)). lia.
Qed.

Lemma fold_add_app (l1 l2 : list Z) :
  fold_left Z.add (l1 ++ l2) 0
  = fold_left Z.add l1 0 + fold_left Z.add l2 0.
Proof. rewrite fold_left_app. apply fold_add_shift. Qed.

Lemma fold_add_Permutation (l1 l2 : list Z) :
  l1 ≡ₚ l2 → fold_left Z.add l1 0 = fold_left Z.add l2 0.
Proof.
  induction 1 as [|x l1 l2 _ IH|x y l|l1 l2 l3 _ IH1 _ IH2]; simpl.
  - done.
  - rewrite (fold_add_shift l1), (fold_add_shift l2). lia.
  - rewrite (fold_add_shift l (0 + y + x)), (fold_add_shift l (0 + x + y)).
    lia.
  - congruence.
Qed.

Lemma wrap64_add_wrap64 (a b : Z) : wrap64 (a + wrap64 b) = wrap64 (a + b).
Proof.
  unfold wrap64. f_equal.
  replace (a + ((b + 2 ^ 63) mod 2 ^ 64 - 2 ^ 63) + 2 ^ 63)
    with (a + (b + 2 ^ 63) mod 2 ^ 64) by lia.
  rewrite Z.add_mod_idemp_r by lia. f_equal. lia.
Qed.

(** The frame [group_small_slices] returns on an [int64] value column, one
    column at a time. *)
Lemma group_small_slices_int64 (df : DataFrame) (x y : string)
  (max_slices : Z) (xs : list Z) :
  pd.get df y = Some (IntCol xs) → x ≠ y →
  max_slices < Z.of_nat (pd.nrows df) →
  let perm := pd.nargsort (SInt <$> xs) false in
  let s := pd.take_list perm xs in
  let k := max_slices - 1 in
  let total := wrap64 (fold_left Z.add (py_slice s k (len s)) 0) in
  ∃ out, group_small_slices df x y max_slices = Done out
    ∧ ∀ c col, pd.get df c = Some col →
        pd.get out c
        = Some (pd.concat_columns
                  (pd.col_map_rows (fun _ l => py_slice l 0 k)
                     (pd.col_map_rows (fun _ => pd.take_list perm) col))
                  (if String.eqb c x then ObjCol [SStr "Other"]
                   else if String.eqb c y then IntCol [total]
                   else FloatCol [nan])).
Proof.
  intros Hget Hxy Hlt perm s k total.
  set (sorted := pd.take perm df).
  set (top := head_int k sorted).
  set (other := dict_set [(x, SStr "Other")] y (SInt total)).
  assert (∀ c, dict_get other c
               = if String.eqb c x then Some (SStr "Other")
                 else if String.eqb c y then Some (SInt total) else None)
    as Hother.
  { intros c. unfold other. rewrite dict_get_set. simpl.
    rewrite (String.eqb_sym y c), (String.eqb_sym x c).
    destruct (String.eqb_spec c y) as [-> | ?]; [|done].
    by destruct (String.eqb_spec y x). }
  exists (pd.concat top (pd.of_row other)). split.
  - unfold group_small_slices.
    destruct (Z.leb_spec (Z.of_nat (pd.nrows df)) max_slices); [lia|].
    unfold pd.sort_values. rewrite Hget. simpl.
    fold perm sorted k.
    unfold iloc_from_int, pd.map_rows.
    rewrite (get_map (fun _ => pd.col_map_rows
                                 (fun _ l => py_slice l k (len l)))).
    unfold sorted. rewrite get_take, Hget. simpl. done.
  - intros c col Hc. unfold pd.concat. rewrite get_app.
    rewrite (get_map (fun name col =>
               pd.concat_columns col
                 (default (pd.nan_column (pd.nrows (pd.of_row other)))
                    (pd.get (pd.of_row other) name)))).
    unfold top, head_int, pd.map_rows.
    rewrite (get_map (fun _ => pd.col_map_rows (fun _ l => py_slice l 0 k))).
    unfold sorted. rewrite get_take, Hc. simpl. do 2 f_equal.
    rewrite get_of_row, Hother.
    destruct (String.eqb c x); [done|].
    destruct (String.eqb c y); [done|].
    unfold other. simpl. by destruct (String.eqb_spec x y).
Qed.

Lemma py_slice_fmap {A B : Type} (f : A → B) (l : list A) (a b : Z) :
  py_slice (f <$> l) a b = f <$> py_slice l a b.
Proof.
  unfold py_slice, len. by rewrite length_fmap, fmap_take, fmap_drop.
Qed.

Lemma values_py_slice (col : column) (a b : Z) :
  pd.values (pd.col_map_rows (fun _ l => py_slice l a b) col)
  = py_slice (pd.values col) a b.
Proof.
  destruct col; simpl; by rewrite ?map_is_fmap, ?py_slice_fmap.
Qed.

(** X10: [group_small_slices] on an [int64] value column other than the
    label column.  A table of at most [max_slices] rows comes back as it is.
    The rows of a longer one are arranged in descending order of the value,
    every column in the same order, and cut at [max_slices - 1] (a slice
    bound: a negative one counts from the end).  The value column holds the
    values before the cut and then the total of the values after it; with
    [max_slices >= 1] it has exactly [max_slices] entries.  Every other
    column of the input holds its cells of the rows before the cut and then
    one more cell, ['Other'] under the label column and [nan] elsewhere, an
    [int64] column that receives [nan] becoming [float64]. *)
Theorem group_small_slices_spec (df : DataFrame) (x y : string)
  (max_slices : Z) (xs : list Z) :
  pd.get df y = Some (IntCol xs) → x ≠ y →
  (Z.of_nat (pd.nrows df) <= max_slices →
     group_small_slices df x y max_slices = Done df)
  ∧ (max_slices < Z.of_nat (pd.nrows df) →
       ∃ out perm s ys,
         group_small_slices df x y max_slices = Done out
         ∧ perm ≡ₚ seq 0 (length xs)
         ∧ s = pd.take_list perm xs
         ∧ s ≡ₚ xs ∧ Sorted Z.ge s
         ∧ pd.get out y = Some (IntCol ys)
         ∧ ys = py_slice s 0 (max_slices - 1)
                ++ [wrap64 (fold_left Z.add
                              (py_slice s (max_slices - 1) (len s)) 0)]
         ∧ (1 <= max_slices → len xs = Z.of_nat (pd.nrows df) →
              len ys = max_slices)
         ∧ (∀ c col, pd.get df c = Some col → c ≠ y%string →
              ∃ col',
                pd.get out c = Some col'
                ∧ pd.values col'
                  = grouped_cells perm (max_slices - 1) x c col)).
Proof.
  intros Hget Hxy. split.
  - intros Hle. unfold group_small_slices.
    by destruct (Z.leb_spec (Z.of_nat (pd.nrows df)) max_slices); [|lia].
  - intros Hlt.
    destruct (group_small_slices_int64 df x y max_slices xs Hget Hxy Hlt)
      as (out & Hout & Hcols).
    destruct (nargsort_int64 xs false) as [Hperm Hsorted].
    set (perm := pd.nargsort (SInt <$> xs) false) in *.
    set (s := pd.take_list perm xs) in *.
    exists out, perm, s. eexists. split; [done|]. split.
    { unfold perm. by rewrite nargsort_Permutation, length_fmap. }
    split; [done|]. split; [done|]. split; [done|].
    split; [|split; [reflexivity|split]].
    + rewrite (Hcols y _ Hget). simpl.
      destruct (String.eqb_spec y x); [congruence|].
      by rewrite String.eqb_refl.
    + intros Hm Hlen. unfold len at 1. rewrite length_app. simpl.
      assert (len s = len xs) as Hs
        by (unfold len; by rewrite (Permutation_length Hperm)).
      pose proof (py_slice_length s (max_slices - 1)) as Hk.
      unfold len in *. lia.
    + intros c col Hc Hcy. rewrite (Hcols c col Hc).
      destruct (String.eqb_spec c y); [done|].
      eexists. split; [done|]. unfold grouped_cells.
      pose proof (values_py_slice
                    (pd.col_map_rows (fun _ => pd.take_list perm) col)
                    0 (max_slices - 1)) as Hfront.
      rewrite values_take in Hfront. rewrite <- Hfront.
      destruct (String.eqb c x); destruct col; simpl;
        rewrite ?map_app, ?map_is_fmap, <- ?list_fmap_compose; done.
Qed.

Lemma group_small_slices_spec_witness :
  (Z.of_nat (pd.nrows pie_sample) <= 3 →
     group_small_slices pie_sample "name" "share" 3 = Done pie_sample)
  ∧ (3 < Z.of_nat (pd.nrows pie_sample) →
       ∃ out perm s ys,
         group_small_slices pie_sample "name" "share" 3 = Done out
         ∧ perm ≡ₚ seq 0 (length [5; 40; 25; 30])
         ∧ s = pd.take_list perm [5; 40; 25; 30]
         ∧ s ≡ₚ [5; 40; 25; 30] ∧ Sorted Z.ge s
         ∧ pd.get out "share" = Some (IntCol ys)
         ∧ ys = py_slice s 0 (3 - 1)
                ++ [wrap64 (fold_left Z.add
                              (py_slice s (3 - 1) (len s)) 0)]
         ∧ (1 <= 3 → len [5; 40; 25; 30] = Z.of_nat (pd.nrows pie_sample) →
              len ys = 3)
         ∧ (∀ c col, pd.get pie_sample c = Some col → c ≠ "share"%string →
              ∃ col',
                pd.get out c = Some col'
                ∧ pd.values col'
                  = grouped_cells perm (3 - 1) "name" c col)).
Proof.
  apply (group_small_slices_spec pie_sample "name" "share" 3
           [5; 40; 25; 30]).
  - reflexivity.
  - discriminate.
Defined.

(** Three slices of four: the two largest and ['Other'], whose note is
    missing.  With [max_slices = 0] the cut falls before the last row, and
    the table keeps its four rows. *)
Example group_small_slices_sample :
  group_small_slices pie_sample "name" "share" 3
  = Done [("name"%string, ObjCol [SStr "b"; SStr "d"; SStr "Other"]);
          ("share"%string, IntCol [40; 30; 30]);
          ("note"%string, ObjCol [SStr "q"; SStr "s"; SFloat nan])]
  ∧ group_small_slices pie_sample "name" "share" 0
    = Done [("name"%string,
             ObjCol [SStr "b"; SStr "d"; SStr "c"; SStr "Other"]);
            ("share"%string, IntCol [40; 30; 25; 5]);
            ("note"%string,
             ObjCol [SStr "q"; SStr "s"; SStr "r"; SFloat nan])]
  ∧ group_small_slices pie_sample "name" "size" 2 = Raised KeyError.
Proof. repeat split; vm_compute; reflexivity. Qed.

(** X11: [group_small_slices] keeps the total of an [int64] value column:
    the sum of the column it returns is the sum of the column it was given
    (in [int64] arithmetic, as [Series.sum] computes it). *)
Theorem group_small_slices_total (df out : DataFrame) (x y : string)
  (max_slices : Z) (xs : list Z) :
  pd.get df y = Some (IntCol xs) → x ≠ y →
  group_small_slices df x y max_slices = Done out →
  ∃ ys, pd.get out y = Some (IntCol ys)
        ∧ pd.sum (IntCol ys) = pd.sum (IntCol xs).
Proof.
  intros Hget Hxy Hout.
  destruct (Z.le_gt_cases (Z.of_nat (pd.nrows df)) max_slices) as [Hle | Hlt].
  - unfold group_small_slices in Hout.
    destruct (Z.leb_spec (Z.of_nat (pd.nrows df)) max_slices); [|lia].
    inversion Hout; subst. by exists xs.
  - destruct (group_small_slices_int64 df x y max_slices xs Hget Hxy Hlt)
      as (out' & Hout' & Hcols).
    rewrite Hout in Hout'. inversion Hout'; subst out'.
    destruct (nargsort_int64 xs false) as [Hperm _].
    set (s := pd.take_list (pd.nargsort (SInt <$> xs) false) xs) in *.
    eexists. split.
    + rewrite (Hcols y _ Hget). simpl.
      destruct (String.eqb_spec y x); [congruence|].
      rewrite String.eqb_refl. reflexivity.
    + simpl. do 2 f_equal. rewrite fold_add_app. simpl.
      fold s. rewrite Z.add_0_l.
      rewrite wrap64_add_wrap64, <- fold_add_app, py_slice_split.
      f_equal. by apply fold_add_Permutation.
Qed.

Lemma group_small_slices_total_witness :
  ∃ ys, pd.get pie_grouped "share" = Some (IntCol ys)
        ∧ pd.sum (IntCol ys) = pd.sum (IntCol [5; 40; 25; 30]).
Proof.
  apply (group_small_slices_total pie_sample pie_grouped "name" "share" 3
           [5; 40; 25; 30]).
  - reflexivity.
  - discriminate.
  - vm_compute. reflexivity.
Defined.

(** ** The figure size *)

Lemma SFltb_SFleb a b : SFltb a b = true → SFleb a b = true.
Proof.
  unfold SFltb, SFleb. by destruct (SFcompare a b) as [[| |]|].
Qed.

Lemma SFltb_not_nan a b :
  SFltb a b = true → sf_is_nan a = false ∧ sf_is_nan b = false.
Proof.
  unfold SFltb, SFcompare.
  destruct a as [sa|sa| |sa ma ea], b as [sb|sb| |sb mb eb]; simpl; done.
Qed.

Lemma SFltb_false_SFleb a b :
  sf_is_nan a = false → sf_is_nan b = false →
  SFltb b a = false → SFleb a b = true.
Proof.
  unfold SFltb, SFleb, SFcompare.
  destruct a as [sa|sa| |sa ma ea], b as [sb|sb| |sb mb eb];
    repeat match goal with s : bool |- _ => destruct s end;
    simpl; try congruence; intros _ _;
    cmp_cases; simpl in *; try congruence; try lia.
Qed.

Lemma float_ltb_leb (a b : float) :
  (a <? b)%float = true → (a <=? b)%float = true.
Proof.
  rewrite FloatAxioms.ltb_spec, FloatAxioms.leb_spec. apply SFltb_SFleb.
Qed.

Lemma float_ltb_not_nan (a b : float) :
  (a <? b)%float = true → np.isnan a = false ∧ np.isnan b = false.
Proof.
  rewrite FloatAxioms.ltb_spec, !is_nan_spec. apply SFltb_not_nan.
Qed.

Lemma float_ltb_false_leb (a b : float) :
  np.isnan a = false → np.isnan b = false →
  (b <? a)%float = false → (a <=? b)%float = true.
Proof.
  rewrite FloatAxioms.ltb_spec, FloatAxioms.leb_spec, !is_nan_spec.
  apply SFltb_false_SFleb.
Qed.

Lemma py_max_grows (a b : float) :
  np.isnan a = false →
  np.isnan (py_max a b) = false ∧ (a <=? py_max a b)%float = true.
Proof.
  intros Ha. unfold py_max. destruct (a <? b)%float eqn:E.
  - split; [by apply float_ltb_not_nan in E as [_ ?]|].
    by apply float_ltb_leb.
  - split; [done | by apply float_leb_refl].
Qed.

Lemma py_max_when_grows (cond : bool) (a b : float) :
  np.isnan a = false →
  np.isnan (if cond then py_max a b else a) = false
  ∧ (a <=? (if cond then py_max a b else a))%float = true.
Proof.
  intros Ha. destruct cond; [by apply py_max_grows|].
  split; [done | by apply float_leb_refl].
Qed.

Lemma py_min_caps (a a' cap : float) :
  np.isnan a' = false → np.isnan cap = false →
  (a <=? a')%float = true →
  np.isnan (py_min a' cap) = false
  ∧ (py_min a' cap <=? cap)%float = true
  ∧ ((a <=? py_min a' cap)%float = true ∨ py_min a' cap = cap).
Proof.
  intros Ha Hc Hle. unfold py_min. destruct (cap <? a')%float eqn:E.
  - split; [done|]. split; [by apply float_leb_refl | by right].
  - split; [done|]. split; [by apply float_ltb_false_leb | by left].
Qed.

(** X12: [auto_figsize] raises [ValueError] unless the base size has two
    entries.  On a base size [w, h] without [nan] it returns a size that is
    never above 30 by 24 and never below the base size except where the cap
    applies; the width is the capped base width unless the chart is a bar,
    line, area or time-series chart of more than 15 categories, and the
    height is the capped base height unless it is a horizontal bar chart of
    more than 12. *)
Theorem auto_figsize_bounds (n_categories : Z) (chart_type : string)
  (base : list float) :
  (length base ≠ 2%nat →
     auto_figsize n_categories chart_type base = Raised ValueError)
  ∧ (∀ w h, base = [w; h] →
       - 2 ^ 63 <= n_categories < 2 ^ 63 →
       np.isnan w = false → np.isnan h = false →
       ∃ w' h',
         auto_figsize n_categories chart_type base = Done (w', h')
         ∧ np.isnan w' = false ∧ np.isnan h' = false
         ∧ (w' <=? 30)%float = true ∧ (h' <=? 24)%float = true
         ∧ ((w <=? w')%float = true ∨ w' = 30%float)
         ∧ ((h <=? h')%float = true ∨ h' = 24%float)
         ∧ (n_categories <= 15
            ∨ chart_type ∉ ["bar"; "line"; "area"; "timeseries"]%string →
            w' = py_min w 30)
         ∧ (n_categories <= 12 ∨ chart_type ≠ "hbar"%string →
            h' = py_min h 24)).
Proof.
  split.
  - intros Hlen. unfold auto_figsize.
    destruct base as [|w [|h [|? ?]]]; simpl in *; done.
  - intros w h -> Hn Hw Hh. unfold auto_figsize.
    destruct (Z.ltb_spec n_categories (- 2 ^ 63)); [lia|].
    destruct (Z.leb_spec (2 ^ 63) n_categories); [lia|]. simpl orb.
    cbv iota.
    set (n := float_of_int64 n_categories).
    set (w1 := if 15 <? n_categories then py_max w (n * factor_045)%float
               else w).
    set (w2 := if 30 <? n_categories then py_max w1 (n * factor_035)%float
               else w1).
    set (h1 := if 12 <? n_categories then py_max h (n * factor_04)%float
               else h).
    destruct (py_max_when_grows (15 <? n_categories) w (n * factor_045)%float
                Hw) as [Hw1 Hle1].
    fold w1 in Hw1, Hle1.
    destruct (py_max_when_grows (30 <? n_categories) w1
                (n * factor_035)%float Hw1) as [Hw2 Hle2].
    fold w2 in Hw2, Hle2.
    destruct (py_max_when_grows (12 <? n_categories) h (n * factor_04)%float
                Hh) as [Hh1 Hleh].
    fold h1 in Hh1, Hleh.
    pose proof (float_leb_trans _ _ _ Hle1 Hle2) as Hle.
    pose proof (float_leb_refl w Hw) as Hww.
    pose proof (float_leb_refl h Hh) as Hhh.
    assert (n_categories <= 15 → w2 = w) as Hsmall.
    { intros Hn15. unfold w2, w1.
      destruct (Z.ltb_spec 15 n_categories); [lia|].
      by destruct (Z.ltb_spec 30 n_categories); [lia|]. }
    assert (n_categories <= 12 → h1 = h) as Hsmallh.
    { intros Hn12. unfold h1.
      by destruct (Z.ltb_spec 12 n_categories); [lia|]. }
    destruct (py_min_caps w w2 30 Hw2 eq_refl Hle) as (Ha & Hb & Hc).
    destruct (py_min_caps w w 30 Hw eq_refl Hww) as (Ha' & Hb' & Hc').
    destruct (py_min_caps h h1 24 Hh1 eq_refl Hleh) as (Hd & He & Hf).
    destruct (py_min_caps h h 24 Hh eq_refl Hhh) as (Hd' & He' & Hf').
    destruct (String.eqb_spec chart_type "bar") as [-> | Hbar];
      [|destruct (String.eqb_spec chart_type "line") as [-> | Hline];
        [|destruct (String.eqb_spec chart_type "area") as [-> | Harea];
          [|destruct (String.eqb_spec chart_type "timeseries")
              as [-> | Hts];
            [|destruct (String.eqb_spec chart_type "hbar")
                as [-> | Hhbar]]]]];
      simpl; eexists _, _; (split; [reflexivity|]);
      repeat split; try done.
    all: try (intros [Hn15 | Hnot]; [by rewrite Hsmall|];
              exfalso; apply Hnot;
              rewrite !elem_of_cons; by auto).
    all: try (intros [Hn12 | Hnot]; [by rewrite Hsmallh | done]).
Qed.

(** Forty bars widen a 10 by 6 figure to 18, a hundred reach the cap of 30,
    and a hundred horizontal bars the cap of 24; the base size is not
    adapted for a pie, only capped. *)
Example auto_figsize_samples :
  auto_figsize 40 "bar" [10; 6]%float = Done (18, 6)%float
  ∧ auto_figsize 100 "bar" [10; 6]%float = Done (30, 6)%float
  ∧ auto_figsize 100 "hbar" [10; 6]%float = Done (10, 24)%float
  ∧ auto_figsize 100 "pie" [40; 6]%float = Done (30, 6)%float
  ∧ auto_figsize 100 "pie" [40]%float = Raised ValueError.
Proof. repeat split; vm_compute; reflexivity. Qed.

(** ** Tick labels *)

Lemma py_slice_prefix {A : Type} (xs : list A) (k : Z) :
  0 <= k → py_slice xs 0 k = firstn (Z.to_nat k) xs.
Proof.
  intros Hk. unfold py_slice, slice_bound.
  pose proof (Nat2Z.is_nonneg (length xs)) as Hn. fold (len xs) in Hn.
  change (0 <? 0) with false. cbv iota.
  destruct (Z.ltb_spec k 0); [lia|].
  replace (0 `max` (len xs `min` 0)) with 0 by lia.
  rewrite Z.sub_0_r. change (Z.to_nat 0) with 0%nat. rewrite drop_0.
  destruct (Z.le_gt_cases k (len xs)).
  - by replace (0 `max` (len xs `min` k)) with k by lia.
  - replace (0 `max` (len xs `min` k)) with (len xs) by lia.
    unfold len in *. rewrite Nat2Z.id.
    rewrite !firstn_all2; [done|lia|lia].
Qed.

Lemma map_is_fmap {A B : Type} (f : A → B) (l : list A) :
  map f l = f <$> l.
Proof. induction l; simpl; by f_equal. Qed.

Lemma truncate_label_spec (m : Z) (lab : pystr) :
  1 <= m →
  len (truncate_label m lab) <= m
  ∧ (len lab <= m → truncate_label m lab = lab)
  ∧ (m < len lab →
       truncate_label m lab = firstn (Z.to_nat (m - 1)) lab ++ ellipsis
       ∧ len (truncate_label m lab) = m).
Proof.
  intros Hm. unfold truncate_label.
  destruct (Z.ltb_spec m (len lab)) as [Hlong | Hshort].
  - rewrite py_slice_prefix by lia.
    assert (len (firstn (Z.to_nat (m - 1)) lab ++ ellipsis) = m) as Hlen.
    { unfold len in *. rewrite length_app, length_firstn. simpl. lia. }
    split; [lia|]. split; [lia | done].
  - split; [done|]. split; [done | lia].
Qed.

Lemma labels_shown_unfold {A : Type} (str : A → pystr) major_ticks
  (ls : list A) axis m :
  ls ≠ [] →
  labels_shown (smart_tick_labels str major_ticks (Some ls) axis m)
  = Some (map (truncate_label m) (map str ls)).
Proof.
  intros Hne. unfold smart_tick_labels.
  destruct (Z.eqb_spec (len ls) 0) as [Hz | _].
  { destruct ls; [done|]. unfold len in Hz. simpl in Hz. lia. }
  destruct (String.eqb axis "x"); [|done].
  by repeat match goal with |- context [if ?c then _ else _] =>
                              destruct c end.
Qed.

(** X13: [smart_tick_labels] does nothing when there are no labels.
    Otherwise it labels the axis, x or y, with one label per input label, in
    order; with [max_label_len >= 1] no label shown is longer than
    [max_label_len]: a label that fits is shown as it is, and a longer one
    is cut to its first [max_label_len - 1] characters followed by the
    ellipsis. *)
Theorem smart_tick_labels_truncates {A : Type} (str : A → pystr)
  (major_ticks : nat) (labels : option (list A)) (axis : string) (m : Z) :
  (labels = None ∨ labels = Some [] →
     smart_tick_labels str major_ticks labels axis m = [])
  ∧ (∀ ls, labels = Some ls → ls ≠ [] →
       ∃ shown,
         labels_shown (smart_tick_labels str major_ticks labels axis m)
         = Some shown
         ∧ length shown = length ls
         ∧ (1 <= m →
              Forall2 (fun l t =>
                         len t <= m
                         ∧ (len (str l) <= m → t = str l)
                         ∧ (m < len (str l) →
                              t = firstn (Z.to_nat (m - 1)) (str l)
                                  ++ ellipsis))
                      ls shown)).
Proof.
  split.
  - by intros [-> | ->].
  - intros ls -> Hne. eexists. split; [by apply labels_shown_unfold|].
    rewrite !map_is_fmap.
    split; [by rewrite !length_fmap|].
    intros Hm. apply Forall2_fmap_r, Forall2_fmap_r.
    apply Forall_Forall2_diag, Forall_forall. intros l _.
    destruct (truncate_label_spec m (str l) Hm) as (H1 & H2 & H3).
    split; [done|]. split; [done|]. intros Hlong. by apply H3.
Qed.

Lemma fold_max_le (bound : Z) (zs : list Z) (a : Z) :
  fold_left Z.max zs a <= bound
  ↔ a <= bound ∧ Forall (fun z => z <= bound) zs.
Proof.
  revert a. induction zs as [|z zs IH]; intros a; simpl.
  - split; [by split | by intros [? _]].
  - rewrite IH, Forall_cons. split.
    + intros [Hmax Hall]. repeat split; try done; lia.
    + intros (Ha & Hz & Hall). split; [lia | done].
Qed.

Lemma max_len_of_le (bound : Z) (ts : list pystr) :
  0 <= bound →
  max_len_of ts <= bound ↔ Forall (fun t => len t <= bound) ts.
Proof.
  intros Hb. destruct ts as [|t ts]; simpl.
  - split; [constructor | done].
  - by rewrite fold_max_le, Forall_cons, Forall_map.
Qed.

Lemma hidden_positions (every : Z) (i : nat) (positions : list nat) :
  existsb (hides_tick i)
          (omap (fun i => if Z.of_nat i mod every =? 0 then None
                          else Some (tick_set_visible i false)) positions)
  = negb (Z.of_nat i mod every =? 0) && existsb (Nat.eqb i) positions.
Proof.
  induction positions as [|j positions IH].
  - simpl. by rewrite andb_false_r.
  - change (omap ?f (j :: positions))
      with (match f j with
            | Some c => c :: omap f positions
            | None => omap f positions
            end).
    cbv beta. destruct (Z.of_nat j mod every =? 0) eqn:Ej.
    + rewrite IH. simpl.
      destruct (Nat.eqb_spec i j) as [-> | _]; simpl; [|done].
      by rewrite Ej.
    + change (existsb ?g (?c :: ?l)) with (g c || existsb g l).
      rewrite IH. simpl.
      destruct (Nat.eqb_spec i j) as [-> | _]; simpl; [|done].
      by rewrite Ej.
Qed.

Lemma count_multiples (q : Z) (ticks : nat) :
  0 < q →
  Z.of_nat (length (List.filter (fun i => Z.of_nat i mod q =? 0)
                                (seq 0 ticks)))
  = (Z.of_nat ticks + q - 1) / q.
Proof.
  intros Hq. induction ticks as [|t IH].
  - simpl. symmetry. apply Z.div_small. lia.
  - rewrite seq_S, List.filter_app, length_app, Nat2Z.inj_add, IH. simpl.
    pose proof (Z.div_mod (Z.of_nat t) q ltac:(lia)) as Hdiv.
    pose proof (Z.mod_pos_bound (Z.of_nat t) q Hq) as Hmod.
    set (k := Z.of_nat t / q) in *. set (r := Z.of_nat t mod q) in *.
    destruct (Z.eqb_spec r 0) as [Hr | Hr]; simpl.
    + rewrite <- (Z.div_unique (Z.of_nat t + q - 1) q k (q - 1)) by lia.
      apply (Z.div_unique _ q (k + 1) 0); lia.
    + rewrite <- (Z.div_unique (Z.of_nat t + q - 1) q (k + 1) (r - 1))
        by lia.
      rewrite Z.add_0_r.
      apply (Z.div_unique _ q (k + 1) r); lia.
Qed.

Lemma thinning_bounds (n : Z) :
  60 < n → 30 <= (n + n / 30 - 1) / (n / 30) <= 45.
Proof.
  intros Hn. set (q := n / 30).
  assert (2 <= q) as Hq by (apply Z.div_le_lower_bound; lia).
  pose proof (Z.mul_div_le n 30 ltac:(lia)) as Hlo.
  pose proof (Z.mul_succ_div_gt n 30 ltac:(lia)) as Hhi.
  fold q in Hlo, Hhi. split.
  - apply Z.div_le_lower_bound; lia.
  - assert ((n + q - 1) / q < 46); [|lia].
    apply Z.div_lt_upper_bound; lia.
Qed.

(** X14: on the x axis [smart_tick_labels] sets the labels once, with one
    of four rotations: 90 exactly when there are more than 30 labels, 0
    exactly when there are at most 8 labels and none shown is longer than 10
    characters, and 45 or 30 otherwise, aligned to the right.  It hides no
    tick when there are at most 60 labels; with more, it hides the ticks
    whose position is not a multiple of [n // 30], so that, with one tick per
    label, between 30 and 45 ticks stay visible. *)
Theorem smart_tick_labels_rotation {A : Type} (str : A → pystr)
  (major_ticks : nat) (ls : list A) (m : Z) :
  ls ≠ [] →
  ∃ shown rotation ha hides,
    smart_tick_labels str major_ticks (Some ls) "x" m
    = set_xticklabels shown rotation ha :: hides
    ∧ (rotation, ha) ∈ [(0, "center"); (30, "right"); (45, "right");
                        (90, "center")]%string
    ∧ (rotation = 90 ↔ 30 < len ls)
    ∧ (rotation = 0 ↔ len ls <= 8 ∧ Forall (fun t => len t <= 10) shown)
    ∧ (len ls <= 60 → hides = [])
    ∧ (60 < len ls →
         ∀ i, (i < major_ticks)%nat →
              hidden (set_xticklabels shown rotation ha :: hides) i
              = negb (Z.of_nat i mod (len ls / 30) =? 0))
    ∧ (60 < len ls → major_ticks = length ls →
         30 <= len (visible_ticks major_ticks
                      (set_xticklabels shown rotation ha :: hides)) <= 45).
Proof.
  intros Hne. unfold smart_tick_labels.
  destruct (Z.eqb_spec (len ls) 0) as [Hz | _].
  { destruct ls; [done|]. unfold len in Hz. simpl in Hz. lia. }
  change (String.eqb "x" "x") with true. cbv iota.
  set (n := len ls).
  set (shown := map (truncate_label m) (map str ls)).
  pose proof (max_len_of_le 10 shown ltac:(lia)) as Hmax.
  set (hides := if 60 <? n
                then omap (fun i => if Z.of_nat i mod Z.max 1 (n / 30) =? 0
                                    then None
                                    else Some (tick_set_visible i false))
                          (seq 0 major_ticks)
                else []).
  assert (60 < n → Z.max 1 (n / 30) = n / 30) as Hevery.
  { intros Hn. assert (2 <= n / 30)
      by (apply Z.div_le_lower_bound; lia). lia. }
  assert (60 < n → ∀ i, (i < major_ticks)%nat →
            hidden (set_xticklabels shown 0 "" :: hides) i
            = negb (Z.of_nat i mod (n / 30) =? 0)) as Hhidden.
  { intros Hn i Hi. unfold hidden, hides. simpl.
    destruct (Z.ltb_spec 60 n); [|lia].
    rewrite hidden_positions, (Hevery Hn).
    assert (existsb (Nat.eqb i) (seq 0 major_ticks) = true) as ->.
    { apply existsb_exists. exists i. split; [|apply Nat.eqb_refl].
      apply in_seq. lia. }
    by rewrite andb_true_r. }
  assert (60 < n → major_ticks = length ls →
            30 <= len (visible_ticks major_ticks
                         (set_xticklabels shown 0 "" :: hides)) <= 45)
    as Hvisible.
  { intros Hn Hticks. unfold visible_ticks.
    rewrite (filter_ext_in _ (fun i => Z.of_nat i mod (n / 30) =? 0)).
    - unfold len.
      rewrite count_multiples by (specialize (Hevery Hn); lia).
      rewrite Hticks. fold (len ls). fold n. by apply thinning_bounds.
    - intros i Hi%in_seq. rewrite Hhidden by (done || lia).
      apply negb_involutive. }
  assert (∀ rotation ha,
            hidden (set_xticklabels shown rotation ha :: hides)
            = hidden (set_xticklabels shown 0 "" :: hides)) as Hsame
    by done.
  assert (∀ rotation ha,
            visible_ticks major_ticks
              (set_xticklabels shown rotation ha :: hides)
            = visible_ticks major_ticks
                (set_xticklabels shown 0 "" :: hides)) as Hsame'
    by done.
  assert (n <= 60 → hides = []) as Hnone.
  { intros Hn. unfold hides. by destruct (Z.ltb_spec 60 n); [lia|]. }
  fold hides.
  destruct (Z.ltb_spec 30 n) as [H30 | H30].
  { eexists shown, 90, _, hides. split; [reflexivity|].
    rewrite Hsame, Hsame'.
    repeat split; try done; try lia;
      rewrite !elem_of_cons; by auto 6. }
  destruct ((15 <? n) || (10 <? max_len_of shown)) eqn:H45.
  { eexists shown, 45, _, hides. split; [reflexivity|].
    rewrite Hsame, Hsame'.
    repeat split; try done; try lia;
      try (rewrite !elem_of_cons; by auto 6).
    all: intros [Hn8 Hall]; apply Hmax in Hall.
    all: apply orb_true_iff in H45 as [H%Z.ltb_lt | H%Z.ltb_lt]; lia. }
  apply orb_false_iff in H45 as [H15%Z.ltb_ge Hlen%Z.ltb_ge].
  destruct (Z.ltb_spec 8 n) as [H8 | H8].
  { eexists shown, 30, _, hides. split; [reflexivity|].
    rewrite Hsame, Hsame'.
    repeat split; try done; try lia;
      rewrite !elem_of_cons; by auto 6. }
  eexists shown, 0, _, hides. split; [reflexivity|].
  rewrite Hsame, Hsame'.
  repeat split; try done; try lia;
    try (rewrite !elem_of_cons; by auto 6).
  all: by apply Hmax.
Qed.

Lemma smart_tick_labels_rotation_witness :
  ∃ shown rotation ha hides,
    smart_tick_labels ascii_str 70 (Some quarter_labels) "x" 20
    = set_xticklabels shown rotation ha :: hides
    ∧ (rotation, ha) ∈ [(0, "center"); (30, "right"); (45, "right");
                        (90, "center")]%string
    ∧ (rotation = 90 ↔ 30 < len quarter_labels)
    ∧ (rotation = 0
       ↔ len quarter_labels <= 8 ∧ Forall (fun t => len t <= 10) shown)
    ∧ (len quarter_labels <= 60 → hides = [])
    ∧ (60 < len quarter_labels →
         ∀ i, (i < 70)%nat →
              hidden (set_xticklabels shown rotation ha :: hides) i
              = negb (Z.of_nat i mod (len quarter_labels / 30) =? 0))
    ∧ (60 < len quarter_labels → 70%nat = length quarter_labels →
         30 <= len (visible_ticks 70
                      (set_xticklabels shown rotation ha :: hides)) <= 45).
Proof.
  apply (smart_tick_labels_rotation ascii_str 70 quarter_labels 20).
  discriminate.
Defined.

(** Seventy labels: every second tick stays, 35 in all; a long label is cut
    to twenty characters. *)
Example smart_tick_labels_sample :
  length (visible_ticks 70
            (smart_tick_labels ascii_str 70 (Some quarter_labels) "x" 20))
  = 35%nat
  ∧ smart_tick_labels ascii_str 0
      (Some ["Gross domestic product"%string; "GDP"%string]) "y" 20
    = [set_yticklabels [ascii_str "Gross domestic prod" ++ ellipsis;
                        ascii_str "GDP"]].
Proof. split; vm_compute; reflexivity. Qed.

(** ** Merging in batches *)

Lemma fold_dedup_deduplicate (l : list Highlight) :
  fold_left dedup_step (deduplicate l) ∅ = fold_left dedup_step l ∅.
Proof.
  destruct (seen_invariant_fold l) as [Hsome Hall].
  destruct (seen_invariant_fold (deduplicate l)) as [Hsome' Hall'].
  pose proof (deduplicate_strictly_sorted l) as Hsorted.
  set (seen := fold_left dedup_step l ∅) in *.
  set (seen' := fold_left dedup_step (deduplicate l) ∅) in *.
  assert (∀ h, h ∈ deduplicate l ↔ ∃ i, seen !! i = Some h) as Helem.
  { intros h. unfold deduplicate, sorted_by_index. fold seen.
    by rewrite merge_sort_Permutation, elem_of_dict_values. }
  apply map_eq. intros i.
  destruct (seen !! i) as [h|] eqn:Hi.
  - assert (h ∈ deduplicate l) as Hh by (apply Helem; by exists i).
    pose proof (Hsome _ _ Hi) as [Hidx _].
    destruct (Hall' h Hh) as [h' Hh'].
    pose proof (Hsome' _ _ Hh') as [Hidx' Hw%wins_index_elem].
    rewrite <- Hidx, Hh'. f_equal.
    by apply (index_lt_unique (deduplicate l)).
  - destruct (seen' !! i) as [h'|] eqn:Hi'; [|done].
    pose proof (Hsome' _ _ Hi') as [Hidx' Hw%wins_index_elem].
    apply Helem in Hw as [j Hj].
    pose proof (Hsome _ _ Hj) as [Hidx _]. congruence.
Qed.

(** X15: merging in batches is merging at once: the list merged so far can
    stand for the candidates it was merged from when more candidates
    follow. *)
Theorem deduplicate_incremental (l1 l2 : list Highlight) :
  deduplicate (deduplicate l1 ++ l2) = deduplicate (l1 ++ l2).
Proof.
  unfold deduplicate at 1 3. rewrite !fold_left_app.
  by rewrite fold_dedup_deduplicate.
Qed.

(** ** Windows too small for a changepoint *)

Lemma py_slice_length_le {A : Type} (xs : list A) (a b : Z) :
  0 <= a → 0 <= b <= len xs → len (py_slice xs a b) <= Z.max 0 (b - a).
Proof.
  intros Ha Hb. unfold py_slice, slice_bound.
  destruct (Z.ltb_spec a 0); [lia|]. destruct (Z.ltb_spec b 0); [lia|].
  unfold len in *. rewrite length_firstn. lia.
Qed.

Lemma drop_nan_length_le (a : list float) :
  len (np.drop_nan a) <= len a.
Proof.
  unfold len, np.drop_nan. apply inj_le, filter_length_le.
Qed.

Lemma changepoint_at_small_window values window threshold i :
  0 <= window <= 1 → window <= i < len values →
  changepoint_at values window threshold i = Ok None.
Proof.
  intros Hw Hi. unfold changepoint_at.
  destruct (py_index_in_range values i) as [vi ->]; [lia|]. simpl.
  destruct (np.isnan vi); [done|].
  pose proof (py_slice_length_le values (Z.max 0 (i - window)) i
                ltac:(lia) ltac:(lia)) as Hlen.
  pose proof (drop_nan_length_le
                (py_slice values (Z.max 0 (i - window)) i)) as Hclean.
  destruct (Z.ltb_spec
              (len (np.drop_nan (py_slice values (0 `max` (i - window)) i)))
              2) as [_ | Hge]; [done | lia].
Qed.

Lemma changepoint_loop_nothing values window threshold positions acc :
  (∀ i, i ∈ positions →
     changepoint_at values window threshold i = Ok None) →
  changepoint_loop values window threshold positions acc = Ok acc.
Proof.
  revert acc. induction positions as [|i rest IH]; intros acc Hall; [done|].
  simpl. rewrite (Hall i) by left. simpl. rewrite app_nil_r.
  apply IH. intros j Hj. apply Hall. by right.
Qed.

(** X16: with a window of 0 or 1 [detect_changepoint] reports nothing,
    whatever the values and the threshold: the window on the left of a
    position never holds the two values the comparison needs. *)
Theorem detect_changepoint_small_window (values : list float) (window : Z)
  (threshold : float) :
  0 <= window <= 1 →
  detect_changepoint values window threshold = Ok [].
Proof.
  intros Hw. unfold detect_changepoint.
  destruct (_ <? _); [done|].
  apply changepoint_loop_nothing. intros i Hi%elem_of_py_range.
  apply changepoint_at_small_window; lia.
Qed.

Lemma detect_changepoint_small_window_witness :
  detect_changepoint shift_sample 1 2 = Ok [].
Proof. apply (detect_changepoint_small_window shift_sample 1 2). lia. Defined.

(** ** Grouping by an [int64] key *)

Lemma group_adjacent_flat (l : list (nat * scalar)) :
  Forall (fun p => ∃ z, p.2 = SInt z) l →
  flat_groups (pd.group_adjacent l) = l
  ∧ Forall (fun kg => kg.2 ≠ []) (pd.group_adjacent l)
  ∧ Sorted (fun a b => int_of a.1 ≠ int_of b.1) (pd.group_adjacent l).
Proof.
  induction 1 as [|[i k] l [z Hz] Hall IH]; simpl.
  - repeat split; constructor.
  - destruct IH as (Hflat & Hne & Hadj). simpl in Hz. subst k.
    destruct (pd.group_adjacent l) as [|[k' g] gs] eqn:E.
    + unfold flat_groups in Hflat. simpl in Hflat. subst l.
      repeat split; repeat constructor; done.
    + assert (∃ z', k' = SInt z') as [z' ->].
      { apply Forall_cons in Hne as [Hg _]. simpl in Hg.
        destruct g as [|j g]; [done|].
        unfold flat_groups in Hflat. simpl in Hflat. subst l.
        apply Forall_cons in Hall as [[z' Hz'] _]. by exists z'. }
      simpl. destruct (Z.eqb_spec z z') as [<- | Hzz].
      * repeat split.
        -- unfold flat_groups in *. simpl in *. by rewrite Hflat.
        -- apply Forall_cons in Hne as [_ Hne]. by constructor.
        -- apply Sorted_inv in Hadj as [Hs Hhd].
           constructor; [done|]. destruct Hhd; by constructor.
      * repeat split.
        -- unfold flat_groups in *. simpl in *. by rewrite Hflat.
        -- by constructor.
        -- constructor; [done|]. by constructor.
Qed.

Lemma elem_of_flat_groups (p : nat * scalar) gs :
  p ∈ flat_groups gs ↔ ∃ kg, kg ∈ gs ∧ p.1 ∈ kg.2 ∧ p.2 = kg.1.
Proof.
  unfold flat_groups. rewrite list_elem_of_In, in_concat. split.
  - intros (block & Hb & Hp). apply in_map_iff in Hb as (kg & <- & Hkg).
    apply in_map_iff in Hp as (i & <- & Hi).
    exists kg. by rewrite !list_elem_of_In.
  - intros (kg & Hkg & Hi & Hk). destruct p as [i k]. simpl in *. subst k.
    exists (map (fun i => (i, kg.1)) kg.2). split.
    + apply in_map_iff. exists kg. by rewrite <- list_elem_of_In.
    + apply in_map_iff. exists i. by rewrite <- list_elem_of_In.
Qed.

Lemma elem_of_tagged {A : Type} (keys : list A) (i : nat) (k : A) :
  (i, k) ∈ zip (seq 0 (length keys)) keys ↔ keys !! i = Some k.
Proof.
  split.
  - intros Hp. apply list_elem_of_lookup in Hp as [j Hj].
    apply lookup_zip_with_Some in Hj as (i' & k' & [= -> ->] & Hi & Hk).
    apply lookup_seq in Hi as [-> _]. done.
  - intros Hk. apply list_elem_of_lookup. exists i.
    apply lookup_zip_with_Some. exists i, k. split; [done|]. split; [|done].
    apply lookup_seq. split; [done|]. by apply lookup_lt_Some in Hk.
Qed.

Lemma group_keys_increasing (gs : list (scalar * list nat)) :
  StronglySorted (fun p q : nat * scalar => int_of p.2 <= int_of q.2)
                 (flat_groups gs) →
  Forall (fun kg => kg.2 ≠ []) gs →
  Sorted (fun a b => int_of a.1 ≠ int_of b.1) gs →
  StronglySorted Z.lt (int_of <$> gs.*1).
Proof.
  induction gs as [|[k g] gs IH]; intros Hs Hne Hadj; [constructor|].
  unfold flat_groups in Hs. simpl in Hs.
  apply StronglySorted_app in Hs as (Hcross & _ & Hrest).
  apply Forall_cons in Hne as [Hg Hne]. simpl in Hg.
  apply Sorted_inv in Hadj as [Hadj Hhd].
  specialize (IH Hrest Hne Hadj).
  simpl. constructor; [done|].
  destruct gs as [|[k' g'] gs']; [constructor|].
  apply HdRel_inv in Hhd. simpl in Hhd.
  apply Forall_cons in Hne as [Hg' _]. simpl in Hg'.
  destruct g as [|i g]; [done|]. destruct g' as [|i' g']; [done|].
  assert (int_of k <= int_of k') as Hle.
  { apply (Hcross (i, k) (i', k')); [left|].
    unfold flat_groups. simpl. left. }
  simpl in IH |- *. apply StronglySorted_inv in IH as [_ Hall].
  constructor; [lia|].
  eapply Forall_impl; [exact Hall|]. simpl. lia.
Qed.

Lemma firsts_keys (keys : list scalar) (gs : list (scalar * list nat)) :
  Forall (fun kg => kg.2 ≠ []) gs →
  (∀ kg i, kg ∈ gs → i ∈ kg.2 → keys !! i = Some kg.1) →
  pd.take_list (omap (fun g => g !! 0%nat) gs.*2) keys = gs.*1.
Proof.
  unfold pd.take_list.
  induction gs as [|[k g] gs IH]; intros Hne Hall; [done|].
  apply Forall_cons in Hne as [Hg Hne]. simpl in Hg.
  destruct g as [|i g]; [done|]. simpl.
  rewrite (Hall (k, i :: g) i) by left. simpl. f_equal.
  apply IH; [done|]. intros kg j Hkg Hj. apply Hall; [by right | done].
Qed.

Lemma NoDup_concat_elem {A : Type} (ls : list (list A)) (l : list A) :
  NoDup (concat ls) → l ∈ ls → NoDup l.
Proof.
  induction ls as [|l' ls IH]; simpl; intros Hnd Hl.
  - by apply elem_of_nil in Hl.
  - apply NoDup_app in Hnd as (Hl' & _ & Hls).
    apply elem_of_cons in Hl as [-> | Hl]; [done | by apply IH].
Qed.

Lemma flat_groups_positions (gs : list (scalar * list nat)) :
  (flat_groups gs).*1 = concat gs.*2.
Proof.
  unfold flat_groups. induction gs as [|[k g] gs IH]; [done|].
  simpl. rewrite fmap_app, IH. f_equal.
  clear IH. induction g as [|i g IHg]; [done|]. simpl. by f_equal.
Qed.

Lemma key_determines_group (gs : list (scalar * list nat)) kg kg' :
  NoDup (int_of <$> gs.*1) → kg ∈ gs → kg' ∈ gs →
  int_of kg.1 = int_of kg'.1 → kg = kg'.
Proof.
  induction gs as [|a gs IH]; simpl; intros Hnd Hkg Hkg' Heq.
  - by apply elem_of_nil in Hkg.
  - apply NoDup_cons in Hnd as [Ha Hnd].
    assert (∀ b, b ∈ gs → int_of b.1 ≠ int_of a.1) as Hfresh.
    { intros b Hb Hab. apply Ha. rewrite <- Hab.
      apply list_elem_of_fmap. exists b.1. split; [done|].
      apply list_elem_of_fmap. by exists b. }
    apply elem_of_cons in Hkg as [-> | Hkg];
      apply elem_of_cons in Hkg' as [-> | Hkg']; try done.
    + by destruct (Hfresh kg' Hkg').
    + by destruct (Hfresh kg Hkg).
    + by apply IH.
Qed.

Lemma elem_of_rows_of_key (k : Z) (ks : list Z) (i : nat) :
  i ∈ rows_of_key k ks ↔ ks !! i = Some k.
Proof.
  unfold rows_of_key.
  rewrite list_elem_of_In, filter_In, bool_decide_eq_true, in_seq.
  split; [by intros [_ ?]|]. intros Hk. split; [|done].
  apply lookup_lt_Some in Hk. lia.
Qed.

Lemma NoDup_rows_of_key (k : Z) (ks : list Z) : NoDup (rows_of_key k ks).
Proof.
  unfold rows_of_key. apply NoDup_ListNoDup, List.NoDup_filter, seq_NoDup.
Qed.

Lemma increasing_NoDup (l : list Z) : StronglySorted Z.lt l → NoDup l.
Proof.
  induction 1 as [|x l Hs IH Hall]; constructor; [|done].
  intros Hx. apply (proj1 (Forall_forall _ _) Hall) in Hx. lia.
Qed.

(** The groups of an [int64] key column: one per distinct key, in
    increasing order of the keys, each holding the rows of its key. *)
Lemma group_positions_int64 (ks : list Z) :
  ∃ keys,
    pd.take_list (omap (fun g => g !! 0%nat)
                       (pd.group_positions (map SInt ks))) ks = keys
    ∧ StronglySorted Z.lt keys
    ∧ (∀ k, k ∈ keys ↔ k ∈ ks)
    ∧ Forall2 (fun k g => g ≡ₚ rows_of_key k ks) keys
              (pd.group_positions (map SInt ks)).
Proof.
  unfold pd.group_positions.
  set (keys := map SInt ks).
  set (tagged := zip (seq 0 (length keys)) keys).
  set (present := List.filter (fun p => negb (pd.is_missing p.2)) tagged).
  set (ltp := fun p q : nat * scalar => pd.scalar_ltb p.2 q.2).
  set (sorted := stable_sort ltp present).
  set (gs := pd.group_adjacent sorted).
  assert (∀ i s, (i, s) ∈ tagged ↔ ∃ z, s = SInt z ∧ ks !! i = Some z)
    as Htagged.
  { intros i s. unfold tagged. rewrite elem_of_tagged. unfold keys.
    rewrite map_is_fmap, list_lookup_fmap.
    destruct (ks !! i) as [z|]; simpl; split.
    - intros [= <-]. by exists z.
    - by intros (z' & -> & [= ->]).
    - done.
    - by intros (z' & _ & ?). }
  assert (present = tagged) as Hpresent.
  { unfold present. apply forallb_filter_id, forallb_forall.
    intros [i s] Hin%list_elem_of_In%Htagged. by destruct Hin as (z & -> & _). }
  assert (sorted ≡ₚ tagged) as Hperm.
  { unfold sorted. by rewrite stable_sort_Permutation, Hpresent. }
  assert (Forall (fun p => ∃ z, p.2 = SInt z) sorted) as Hint.
  { apply Forall_forall. intros [i s] Hin. rewrite Hperm in Hin.
    apply Htagged in Hin as (z & -> & _). by exists z. }
  destruct (group_adjacent_flat sorted Hint) as (Hflat & Hne & Hadj).
  fold gs in Hflat, Hne, Hadj.
  assert (∀ kg i, kg ∈ gs → i ∈ kg.2 →
            ∃ z, kg.1 = SInt z ∧ ks !! i = Some z) as Hrows.
  { intros kg i Hkg Hi. apply Htagged. rewrite <- Hperm, <- Hflat.
    apply elem_of_flat_groups. by exists kg. }
  assert (∀ i z, ks !! i = Some z →
            ∃ kg, kg ∈ gs ∧ i ∈ kg.2 ∧ kg.1 = SInt z) as Hcover.
  { intros i z Hz.
    assert ((i, SInt z) ∈ flat_groups gs) as Hin.
    { rewrite Hflat, Hperm. apply Htagged. by exists z. }
    apply elem_of_flat_groups in Hin as (kg & Hkg & Hi & Hk).
    by exists kg. }
  assert (StronglySorted Z.lt (int_of <$> gs.*1)) as Hsorted.
  { apply group_keys_increasing; [|done|done]. rewrite Hflat.
    apply Sorted_StronglySorted; [intros a b c; simpl; lia|].
    pose proof (stable_sort_Sorted ltp present
                  (fun p q => scalar_ltb_asym p.2 q.2)) as Hs.
    fold sorted in Hs. clear -Hs Hint.
    induction Hs as [|p l Hs IH Hhd]; [constructor|].
    apply Forall_cons in Hint as [[z Hz] Hint].
    constructor; [by apply IH|].
    destruct Hhd as [|q l' Hpq]; constructor.
    apply Forall_cons in Hint as [[z' Hz'] _].
    unfold ltp in Hpq. rewrite Hz, Hz' in Hpq |- *. simpl in *.
    apply Z.ltb_ge in Hpq. lia. }
  assert (pd.take_list (omap (fun g => g !! 0%nat) gs.*2) ks
          = int_of <$> gs.*1) as Hfirsts.
  { assert (pd.take_list (omap (fun g => g !! 0%nat) gs.*2) keys = gs.*1)
      as Hk.
    { apply firsts_keys; [done|]. intros kg i Hkg Hi.
      destruct (Hrows kg i Hkg Hi) as (z & -> & Hz).
      unfold keys. by rewrite map_is_fmap, list_lookup_fmap, Hz. }
    rewrite <- Hk. unfold keys.
    rewrite (map_is_fmap SInt ks), take_list_fmap, <- list_fmap_compose.
    symmetry. apply list_fmap_id. }
  exists (int_of <$> gs.*1). split; [done|]. split; [done|]. split.
  - intros k. split.
    + intros (s & -> & (kg & -> & Hkg)%list_elem_of_fmap)%list_elem_of_fmap.
      pose proof (proj1 (Forall_forall _ _) Hne kg Hkg) as Hg.
      destruct (kg.2) as [|i g] eqn:Eg; [done|].
      destruct (Hrows kg i Hkg) as (z & Hz & Hi); [rewrite Eg; left|].
      rewrite Hz. simpl. by apply list_elem_of_lookup_2 in Hi.
    + intros [i Hi]%list_elem_of_lookup.
      destruct (Hcover i k Hi) as (kg & Hkg & _ & Hk).
      apply list_elem_of_fmap. exists kg.1. rewrite Hk. split; [done|].
      apply list_elem_of_fmap. by exists kg.
  - rewrite <- list_fmap_compose. apply Forall2_fmap, Forall_Forall2_diag.
    apply Forall_forall. intros kg Hkg. simpl.
    apply NoDup_Permutation.
    + apply (NoDup_concat_elem gs.*2).
      * rewrite <- flat_groups_positions, Hflat, Hperm.
        unfold tagged. rewrite fst_zip by (by rewrite length_seq).
        apply NoDup_seq.
      * apply list_elem_of_fmap. by exists kg.
    + apply NoDup_rows_of_key.
    + intros i. rewrite elem_of_rows_of_key. split.
      * intros Hi. destruct (Hrows kg i Hkg Hi) as (z & -> & Hz). done.
      * intros Hi. destruct (Hcover i _ Hi) as (kg' & Hkg' & Hi' & Hk).
        assert (kg' = kg) as <-; [|done].
        apply (key_determines_group gs); try done.
        -- by apply increasing_NoDup.
        -- by rewrite Hk.
Qed.

(** ** The aggregation stage: sums by key *)

Lemma numeric_columns_get (df : DataFrame) (c : string) :
  NoDup (pd.columns df) → c ∈ pd.numeric_columns df →
  ∃ col, pd.get df c = Some col ∧ pd.is_numeric_dtype col = true.
Proof.
  unfold pd.columns, pd.numeric_columns.
  induction df as [|[name col] df IH]; simpl; intros Hnd Hc.
  - by apply elem_of_nil in Hc.
  - apply NoDup_cons in Hnd as [Hname Hnd].
    assert (c ∈ (List.filter (fun '(_, col) => pd.is_numeric_dtype col)
                             df).*1 →
            ∃ col', (if String.eqb name c then Some col else pd.get df c)
                    = Some col' ∧ pd.is_numeric_dtype col' = true) as Hrest.
    { intros Hin. destruct (String.eqb_spec name c) as [-> | _];
        [|by apply IH].
      destruct Hname.
      apply list_elem_of_fmap in Hin as ([c' col'] & -> & Hin).
      apply list_elem_of_In, filter_In in Hin as [Hin _].
      apply list_elem_of_fmap. exists (c', col').
      by rewrite list_elem_of_In. }
    destruct (pd.is_numeric_dtype col) eqn:Hnum; [|by apply Hrest].
    simpl in Hc. apply elem_of_cons in Hc as [-> | Hc]; [|by apply Hrest].
    rewrite String.eqb_refl. by exists col.
Qed.

Lemma get_numeric_columns (df : DataFrame) (c : string) (col : column) :
  pd.get df c = Some col → pd.is_numeric_dtype col = true →
  c ∈ pd.numeric_columns df.
Proof.
  unfold pd.numeric_columns.
  induction df as [|[name col'] df IH]; simpl; [done|].
  destruct (String.eqb_spec name c) as [-> | _].
  - intros [= ->] ->. left.
  - intros Hget Hnum. destruct (pd.is_numeric_dtype col'); [right|];
      by apply IH.
Qed.

Lemma aggregate_numeric (func : pd.agg_fn) (col : column)
  (groups : list (list nat)) :
  pd.is_numeric_dtype col = true →
  ∃ agg, pd.aggregate func col groups = Done agg.
Proof. destruct col; [by eexists | by eexists | done]. Qed.

Lemma aggregate_columns_numeric (func : pd.agg_fn) (df : DataFrame)
  (groups : list (list nat)) (cols : list string) :
  (∀ c, c ∈ cols →
     ∃ col, pd.get df c = Some col ∧ pd.is_numeric_dtype col = true) →
  ∃ out,
    pd.aggregate_columns func df groups cols = Done out
    ∧ ∀ c col, c ∈ cols → pd.get df c = Some col →
        ∃ agg, pd.aggregate func col groups = Done agg
               ∧ pd.get out c = Some agg.
Proof.
  induction cols as [|c cols IH]; intros Hall; simpl.
  - exists []. split; [done|]. intros c col Hc. by apply elem_of_nil in Hc.
  - destruct (Hall c) as (col & Hget & Hnum); [left|].
    destruct (aggregate_numeric func col groups Hnum) as [agg Hagg].
    destruct IH as (rest & Hrest & Hgets).
    { intros c' Hc'. apply Hall. by right. }
    rewrite Hget, Hagg, Hrest. simpl.
    exists ((c, agg) :: rest). split; [done|].
    intros c' col' Hc' Hget'. simpl.
    destruct (String.eqb_spec c c') as [<- | Hcc].
    + exists agg. split; [congruence | done].
    + apply elem_of_cons in Hc' as [-> | Hc']; [done|]. by apply Hgets.
Qed.

(** X17: the aggregation stage with [agg = "sum"], a group key of dtype
    [int64] and no x column named, on a table whose column names are
    distinct.  The stage returns a table with one row per distinct key, in
    increasing order of the keys: the key column holds every key of the
    input once.  Each other [int64] column holds, for each key, the sum of
    its entries in the rows of that key, wrapped to 64 bits. *)
Theorem stage_aggregate_sum (kw : kwargs) (y_primary : option string)
  (df : DataFrame) (g c : string) (ks xs : list Z) :
  groupby kw = Some g → agg kw = Some "sum"%string → x_col kw = None →
  g ≠ EmptyString → c ≠ g → NoDup (pd.columns df) →
  pd.get df g = Some (IntCol ks) → pd.get df c = Some (IntCol xs) →
  ∃ out keys sums,
    stage_aggregate kw y_primary df = Done out
    ∧ pd.get out g = Some (IntCol keys)
    ∧ pd.get out c = Some (IntCol sums)
    ∧ StronglySorted Z.lt keys
    ∧ (∀ k, k ∈ keys ↔ k ∈ ks)
    ∧ Forall2 (fun k s =>
                 s = wrap64 (fold_left Z.add
                               (pd.take_list (rows_of_key k ks) xs) 0))
              keys sums.
Proof.
  intros Hg Ha Hx Hg0 Hcg Hnd Hkey Hcol.
  set (groups := pd.group_positions (map SInt ks)).
  destruct (group_positions_int64 ks) as (keys & Hkeys & Hsorted & Hin & Hgs).
  fold groups in Hkeys, Hgs.
  set (cols := agg_cols_of g y_primary df).
  assert (c ∈ cols ∧ (g ∉ cols)
          ∧ ∀ c', c' ∈ cols →
              ∃ col, pd.get df c' = Some col
                     ∧ pd.is_numeric_dtype col = true) as (Hc & Hfresh & Hnum).
  { unfold cols, agg_cols_of.
    set (agg_cols := List.filter (fun c => negb (String.eqb c g))
                                 (pd.numeric_columns df)).
    assert (∀ c', c' ∈ agg_cols ↔ c' ∈ pd.numeric_columns df ∧ c' ≠ g)
      as Hagg.
    { intros c'. unfold agg_cols.
      rewrite !list_elem_of_In, filter_In, negb_true_iff.
      by rewrite String.eqb_neq. }
    assert (c ∈ agg_cols) as Hc.
    { apply Hagg. split; [|done]. by apply (get_numeric_columns _ _ _ Hcol). }
    destruct agg_cols as [|c0 rest] eqn:E; [by apply elem_of_nil in Hc|].
    simpl. split; [done|]. split.
    - by intros [_ ?]%Hagg.
    - intros c' [Hc' _]%Hagg. by apply numeric_columns_get. }
  destruct (aggregate_columns_numeric pd.AggSum df groups cols Hnum)
    as (aggregated & Haggregated & Hgets).
  destruct (Hgets c _ Hc Hcol) as (agg_c & Hagg_c & Hget_c).
  simpl in Hagg_c. injection Hagg_c as <-.
  assert (pd.groupby_agg g cols pd.AggSum df
          = Done ((g, IntCol keys) :: aggregated)) as Hgroupby.
  { unfold pd.groupby_agg. rewrite Hkey. simpl.
    destruct cols as [|c0 rest] eqn:E; [by apply elem_of_nil in Hc|].
    assert (existsb (String.eqb g) (c0 :: rest) = false) as ->.
    { apply not_true_is_false. intros (c' & Hc' & Heq)%existsb_exists.
      apply String.eqb_eq in Heq as <-. by apply Hfresh, list_elem_of_In. }
    simpl length. simpl orb. cbv iota.
    fold groups. rewrite Haggregated. simpl. by rewrite Hkeys. }
  exists ((g, IntCol keys) :: aggregated), keys,
    (map (fun g => wrap64 (fold_left Z.add g 0))
         (map (fun g => pd.take_list g xs) groups)).
  split; [|split; [|split; [|split; [done|split; [done|]]]]].
  - unfold stage_aggregate. rewrite Hg, Ha, Hx. simpl.
    destruct (String.eqb_spec g EmptyString); [done|]. simpl.
    assert (pd.has_column g df = true) as ->.
    { apply has_column_elem, get_is_Some. by rewrite Hkey. }
    fold cols. change (agg_map "sum") with pd.AggSum.
    by rewrite Hgroupby.
  - simpl. by rewrite String.eqb_refl.
  - simpl. destruct (String.eqb_spec g c); [by subst|]. done.
  - rewrite !map_is_fmap, <- list_fmap_compose. apply Forall2_fmap_r.
    eapply Forall2_impl; [exact Hgs|]. intros k grp Hperm. simpl.
    f_equal. apply fold_add_Permutation. unfold pd.take_list.
    by rewrite Hperm.
Qed.

Lemma stage_aggregate_sum_witness :
  ∃ out keys sums,
    stage_aggregate (sum_by "shop") None sales_by_shop = Done out
    ∧ pd.get out "shop" = Some (IntCol keys)
    ∧ pd.get out "units" = Some (IntCol sums)
    ∧ StronglySorted Z.lt keys
    ∧ (∀ k, k ∈ keys ↔ k ∈ [2; 1; 2; 1; 3])
    ∧ Forall2 (fun k s =>
                 s = wrap64 (fold_left Z.add
                               (pd.take_list
                                  (rows_of_key k [2; 1; 2; 1; 3])
                                  [10; 20; 30; 40; 50]) 0))
              keys sums.
Proof.
  apply (stage_aggregate_sum (sum_by "shop") None sales_by_shop
           "shop"%string "units"%string [2; 1; 2; 1; 3]
           [10; 20; 30; 40; 50]); try reflexivity; try done.
  unfold pd.columns, sales_by_shop. simpl.
  repeat (apply NoDup_cons; split;
          [rewrite ?elem_of_cons, elem_of_nil; intuition congruence|]).
  apply NoDup_nil_2.
Defined.

(** Units by shop: the shops come back in increasing order with their
    totals, and the column of notes is left out. *)
Example stage_aggregate_sum_sample :
  stage_aggregate (sum_by "shop") None sales_by_shop
  = Done [("shop"%string, IntCol [1; 2; 3]);
          ("units"%string, IntCol [60; 40; 50])].
Proof. vm_compute. reflexivity. Qed.
